(** * mirage.dark.dark_prep: the ramp-reshaping engine of [DarkPrep]

    A shallow embedding of the array-reshaping methods of
    [src/mirage/dark/dark_prep.py] ([data_volume_check], [darkints],
    [integration_copy], [reorder_dark], [crop_dark], [readpattern_check] and
    the value checks of [get_base_dark]) together with the properties the
    specification states about them.

    Modelling conventions.
    - A numpy array is a rectangular nested list; its shape is read off the
      first element of every axis ([dim1], [dim2], [dim3]), so the empty list
      stands for the array of shape (0, 0, 0, 0).
    - Samples are exact rationals [Q]: integer counts embed exactly, [+] and
      [-] are [Qplus] and [Qminus], [np.mean] is sum / count.  Rounding and the
      width of numpy's dtypes are outside the model.
    - Frame, group and integration counts are [nat]; pixel bounds and the
      amplifier count, which the code compares and subtracts as signed
      numbers, are [Z].
    - A Python exception is a value of [exn]; a method that mutates its
      object is a function in the state-and-exception monad [M]. *)

From Stdlib Require Import String Ascii.
From Stdlib Require Import List ZArith QArith Qminmax Lia Lqa Bool Arith.
Import ListNotations.

Set Implicit Arguments.
Open Scope nat_scope.

(** ** Exceptions and the state-and-exception monad *)

Inductive exn : Type :=
| ValueError
| IndexError
| TypeError
| ZeroDivisionError.

Inductive result (A : Type) : Type :=
| Ok (a : A)
| Raise (e : exn).

Arguments Ok {A} a.
Arguments Raise {A} e.

Definition M (S A : Type) : Type := S -> S * result A.

Definition ret {S A : Type} (a : A) : M S A := fun s => (s, Ok a).

Definition raise {S A : Type} (e : exn) : M S A := fun s => (s, Raise e).

Definition bind {S A B : Type} (m : M S A) (k : A -> M S B) : M S B :=
  fun s =>
    match m s with
    | (s', Ok a) => k a s'
    | (s', Raise e) => (s', Raise e)
    end.

Definition get {S : Type} : M S S := fun s => (s, Ok s).

Definition put {S : Type} (s : S) : M S unit := fun _ => (s, Ok tt).

Definition lift {S A : Type} (r : result A) : M S A := fun s => (s, r).

Declare Scope py_scope.
Delimit Scope py_scope with py.

Notation "x <- m ;; k" := (bind m (fun x => k))
  (at level 61, m at next level, right associativity) : py_scope.
Notation "m ;;; k" := (bind m (fun _ => k))
  (at level 61, right associativity) : py_scope.

Open Scope py_scope.

(** [for _ in range(n): body] *)
Fixpoint for_range {S : Type} (n : nat) (body : M S unit) : M S unit :=
  match n with
  | O => ret tt
  | S n' => body ;;; for_range n' body
  end.

(** Exceptions without state: [rbind] sequences two fallible computations,
    [map_result] is a comprehension whose body may raise. *)
Definition rbind {A B : Type} (r : result A) (k : A -> result B) : result B :=
  match r with
  | Ok a => k a
  | Raise e => Raise e
  end.

Fixpoint map_result {A B : Type} (f : A -> result B) (l : list A) : result (list B) :=
  match l with
  | [] => Ok []
  | x :: t =>
      rbind (f x) (fun y => rbind (map_result f t) (fun ys => Ok (y :: ys)))
  end.

(** ** Python strings and slices *)

Module Py.

(** [str.upper] on ASCII text. *)
Definition upper_ascii (c : ascii) : ascii :=
  let n := nat_of_ascii c in
  if (97 <=? n)%nat && (n <=? 122)%nat then ascii_of_nat (n - 32) else c.

Fixpoint upper (s : string) : string :=
  match s with
  | EmptyString => EmptyString
  | String c s' => String (upper_ascii c) (upper s')
  end.

(** [s in names] *)
Definition mem (s : string) (names : list string) : bool :=
  existsb (String.eqb s) names.

(** A slice bound on a sequence of length [n]: a negative bound counts from
    the end, and the result is clipped to [0, n]. *)
Definition bound (n : nat) (i : Z) : nat :=
  let j := if (i <? 0)%Z then (i + Z.of_nat n)%Z else i in
  Z.to_nat (Z.min (Z.max j 0) (Z.of_nat n)).

(** [l[lo:hi]] for arbitrary integers. *)
Definition slice {A : Type} (lo hi : Z) (l : list A) : list A :=
  let a := bound (length l) lo in
  let b := bound (length l) hi in
  firstn (b - a) (skipn a l).

(** [l[lo:hi]] for bounds known to be non-negative. *)
Definition islice {A : Type} (lo hi : nat) (l : list A) : list A :=
  firstn (hi - lo) (skipn lo l).

End Py.

(** ** numpy arrays *)

Module Np.

(** The arrays of the pipeline, by their axes: a [frame] is (y, x), a
    [cube3] is (integration, y, x), a [cube] is (integration, frame, y, x). *)
Abbreviation frame := (list (list Q)) (only parsing).
Abbreviation cube3 := (list (list (list Q))) (only parsing).
Abbreviation cube := (list (list (list (list Q)))) (only parsing).

Definition dim1 {A : Type} (a : list (list A)) : nat := length (hd [] a).
Definition dim2 {A : Type} (a : list (list (list A))) : nat := length (hd [] (hd [] a)).
Definition dim3 {A : Type} (a : list (list (list (list A)))) : nat :=
  length (hd [] (hd [] (hd [] a))).

(** Rectangular nested lists of a given shape. *)
Definition rect2 (Y X : nat) (f : frame) : Prop :=
  length f = Y /\ Forall (fun row => length row = X) f.

Definition rect4 (I F Y X : nat) (c : cube) : Prop :=
  length c = I /\ Forall (fun r => length r = F /\ Forall (rect2 Y X) r) c.

Definition zip_with {A B C : Type} (f : A -> B -> C) (l1 : list A) (l2 : list B) : list C :=
  map (fun p => f (fst p) (snd p)) (combine l1 l2).

(** Elementwise operation on two frames of one shape. *)
Definition frame_op (op : Q -> Q -> Q) (f g : frame) : frame :=
  zip_with (zip_with op) f g.

(** [np.zeros((yd, xd))] *)
Definition zeros (yd xd : nat) : frame := repeat (repeat 0%Q xd) yd.

(** [a[:, k, :, :]]: index [k] must exist on axis 1. *)
Definition frame_at {A : Type} (a : list (list (list A))) (k : nat) : result (list (list A)) :=
  if (k <? dim1 a)%nat then Ok (map (fun r => nth k r []) a) else Raise IndexError.

(** [a[:, -1, :, :]] *)
Definition last_frame {A : Type} (a : list (list (list A))) : result (list (list A)) :=
  if (0 <? dim1 a)%nat then Ok (map (fun r => last r []) a) else Raise IndexError.

(** [a[:, lo:hi, :, :]] *)
Definition slice_frames (lo hi : nat) (a : cube) : cube := map (Py.islice lo hi) a.

(** [a op b] for [a] of shape (I, F, Y, X) and [b] of shape (I', Y, X).
    numpy aligns the trailing axes, so [b] is read as (1, I', Y, X): axis 1
    of [a] meets axis 0 of [b], and the two must be equal or one of them 1. *)
Definition broadcast43 (op : Q -> Q -> Q) (a : cube) (b : cube3) : result cube :=
  let F := dim1 a in
  let I' := length b in
  if (F =? I')%nat then
    Ok (map (fun r => zip_with (frame_op op) r b) a)
  else if (I' =? 1)%nat then
    Ok (map (fun r => map (fun f => frame_op op f (hd [] b)) r) a)
  else if (F =? 1)%nat then
    Ok (map (fun r => map (fun g => frame_op op (hd [] r) g) b) a)
  else Raise ValueError.

(** [np.hstack((a, b))] on 4-D arrays: concatenation along axis 1; the
    other axes must agree. *)
Definition hstack (a b : cube) : result cube :=
  if (length a =? length b)%nat then Ok (zip_with (@app (list (list Q))) a b)
  else Raise ValueError.

(** [np.vstack((a, b))] on arrays of one trailing shape: concatenation
    along axis 0. *)
Definition vstack {A : Type} (a b : list A) : list A := a ++ b.

(** [np.mean] of a list of samples. *)
Definition pixel_mean (l : list Q) : Q :=
  (fold_left Qplus l 0 / inject_Z (Z.of_nat (length l)))%Q.

(** [np.mean(fs, axis=0)] for [fs] of shape (n, Y, X). *)
Definition mean_axis0 (fs : list frame) : frame :=
  let Y := length (hd [] fs) in
  let X := length (hd [] (hd [] fs)) in
  map (fun y =>
         map (fun x => pixel_mean (map (fun f => nth x (nth y f []) 0%Q) fs))
             (seq 0 X))
      (seq 0 Y).

(** [a[integ, frames, :, :]] with [frames] an index array. *)
Definition take_frames (a : cube) (integ : nat) (frames : list nat) : result (list frame) :=
  match nth_error a integ with
  | None => Raise IndexError
  | Some r =>
      map_result (fun k => match nth_error r k with
                           | Some f => Ok f
                           | None => Raise IndexError
                           end) frames
  end.

(** [a[integ, k, :, :]] *)
Definition take_frame (a : cube) (integ k : nat) : result frame :=
  match nth_error a integ with
  | None => Raise IndexError
  | Some r => match nth_error r k with
              | Some f => Ok f
              | None => Raise IndexError
              end
  end.

(** All samples of a 4-D array, in storage order. *)
Definition ravel (a : cube) : list Q := concat (concat (concat a)).

(** [a.max()] and [a.min()]: a reduction of an empty array raises. *)
Definition amax (a : cube) : result Q :=
  match ravel a with
  | [] => Raise ValueError
  | x :: t => Ok (fold_left Qmax t x)
  end.

Definition amin (a : cube) : result Q :=
  match ravel a with
  | [] => Raise ValueError
  | x :: t => Ok (fold_left Qmin t x)
  end.

(** [a + v] for a scalar [v]. *)
Definition add_scalar (v : Q) (a : cube) : cube :=
  map (map (map (map (fun s => (s + v)%Q)))) a.

(** Arrays of two, three or four axes, as [crop_dark] receives them. *)
Inductive ndarray : Type :=
| Arr2 (a : frame)
| Arr3 (a : cube3)
| Arr4 (a : cube).

(** [a.shape[-2]] and [a.shape[-1]] *)
Definition rows (a : ndarray) : nat :=
  match a with
  | Arr2 f => length f
  | Arr3 z => dim1 z
  | Arr4 c => dim2 c
  end.

Definition cols (a : ndarray) : nat :=
  match a with
  | Arr2 f => dim1 f
  | Arr3 z => dim2 z
  | Arr4 c => dim3 c
  end.

(** Two slices on the two leading axes of a nested list. *)
Definition slice2 {A : Type} (y0 y1 x0 x1 : Z) (l : list (list A)) : list (list A) :=
  map (Py.slice x0 x1) (Py.slice y0 y1 l).

(** [a[y0:y1, x0:x1]]: the slices bind to the two leading axes. *)
Definition index2 (y0 y1 x0 x1 : Z) (a : ndarray) : result ndarray :=
  match a with
  | Arr2 f => Ok (Arr2 (slice2 y0 y1 x0 x1 f))
  | Arr3 z => Ok (Arr3 (slice2 y0 y1 x0 x1 z))
  | Arr4 c => Ok (Arr4 (slice2 y0 y1 x0 x1 c))
  end.

(** [a[:, y0:y1, x0:x1]]: three indices need at least three axes. *)
Definition index3 (y0 y1 x0 x1 : Z) (a : ndarray) : result ndarray :=
  match a with
  | Arr2 _ => Raise IndexError
  | Arr3 z => Ok (Arr3 (map (slice2 y0 y1 x0 x1) z))
  | Arr4 c => Ok (Arr4 (map (slice2 y0 y1 x0 x1) c))
  end.

(** [a[:, :, y0:y1, x0:x1]]: four indices need four axes. *)
Definition index4 (y0 y1 x0 x1 : Z) (a : ndarray) : result ndarray :=
  match a with
  | Arr2 _ => Raise IndexError
  | Arr3 _ => Raise IndexError
  | Arr4 c => Ok (Arr4 (map (map (slice2 y0 y1 x0 x1)) c))
  end.

End Np.

Import Np.

(** ** The exposure object and the configuration *)

(** The header keywords the reshaping code reads and writes. *)
Record Header : Type := mkHeader {
  READPATT : string;
  NFRAMES : nat;
  NSKIP : nat;
  NGROUPS : nat;
  NINTS : nat;
  DETECTOR : string;
  INSTRUME : string
}.

(** A [Read_fits] instance holding a ramp: 4-D [data], and the optional
    [sbAndRefpix] (4-D) and [zeroframe] (3-D), [None] when absent. *)
Record Read_fits : Type := mkReadFits {
  data : cube;
  sbAndRefpix : option cube;
  zeroframe : option cube3;
  header : Header
}.

Definition set_data (d : cube) (o : Read_fits) : Read_fits :=
  mkReadFits d (sbAndRefpix o) (zeroframe o) (header o).

Definition set_sbAndRefpix (sb : option cube) (o : Read_fits) : Read_fits :=
  mkReadFits (data o) sb (zeroframe o) (header o).

Definition set_zeroframe (z : option cube3) (o : Read_fits) : Read_fits :=
  mkReadFits (data o) (sbAndRefpix o) z (header o).

Definition set_header (h : Header) (o : Read_fits) : Read_fits :=
  mkReadFits (data o) (sbAndRefpix o) (zeroframe o) h.

Definition set_NGROUPS (n : nat) (h : Header) : Header :=
  mkHeader (READPATT h) (NFRAMES h) (NSKIP h) n (NINTS h) (DETECTOR h) (INSTRUME h).

Definition set_NINTS (n : nat) (h : Header) : Header :=
  mkHeader (READPATT h) (NFRAMES h) (NSKIP h) (NGROUPS h) n (DETECTOR h) (INSTRUME h).

(** [self.params['Readout']] *)
Record Readout : Type := mkReadout {
  readpatt : string;
  nframe : nat;
  nskip : nat;
  ngroup : nat;
  nint : nat;
  namp : Z
}.

Definition set_readpatt (s : string) (p : Readout) : Readout :=
  mkReadout s (nframe p) (nskip p) (ngroup p) (nint p) (namp p).

Definition set_nframe_nskip (nf ns : nat) (p : Readout) : Readout :=
  mkReadout (readpatt p) nf ns (ngroup p) (nint p) (namp p).

(** A row of the readout pattern definition table. *)
Record ReadPattern : Type := mkReadPattern {
  name : string;
  rp_nframe : nat;
  rp_nskip : nat;
  maxgroups : nat
}.

(** [self.subarray_bounds]: (x_min, y_min, x_max, y_max), inclusive. *)
Definition Bounds : Type := (Z * Z * Z * Z)%type.

Definition bx0 (b : Bounds) : Z := fst (fst (fst b)).
Definition by0 (b : Bounds) : Z := snd (fst (fst b)).
Definition bx1 (b : Bounds) : Z := snd (fst b).
Definition by1 (b : Bounds) : Z := snd b.

(** The object [crop_dark] works on: its arrays may have 2, 3 or 4 axes
    (the zero-frame model is 3-D), and an attribute may be [None]. *)
Record Model : Type := mkModel {
  m_data : ndarray;
  m_sbAndRefpix : option ndarray;
  m_zeroframe : option ndarray
}.

Definition model_of (o : Read_fits) : Model :=
  mkModel (Arr4 (data o)) (option_map Arr4 (sbAndRefpix o)) (option_map Arr3 (zeroframe o)).

Definition rapids : list string := ["RAPID"; "NISRAPID"; "FGSRAPID"]%string.

(** ** The methods of [DarkPrep] *)

Module DarkPrep.

(** *** [data_volume_check] *)

(** [np.hstack((a, extra + a[:, -1, :, :]))] *)
Definition append_offset (a extra : cube) : result cube :=
  rbind (last_frame a) (fun final =>
  rbind (broadcast43 Qplus extra final) (fun shifted =>
  hstack a shifted)).

(** The body of the loop over full copies: the copy is taken from the
    array as it stands at this iteration. *)
Definition full_copy : M Read_fits unit :=
  obj <- get ;;
  d <- lift (append_offset (data obj) (data obj)) ;;
  put (set_data d obj) ;;;
  match sbAndRefpix obj with
  | None => ret tt
  | Some sb =>
      sb' <- lift (append_offset sb sb) ;;
      obj <- get ;;
      put (set_sbAndRefpix (Some sb') obj)
  end.

(** [np.hstack((a, (a[:, 1:mod+1] - a[:, 0]) + a[:, -1]))] *)
Definition append_partial (a : cube) (md : nat) : result cube :=
  rbind (frame_at a 0) (fun first =>
  rbind (broadcast43 Qminus (slice_frames 1 (md + 1) a) first) (fun extra =>
  append_offset a extra)).

Definition partial_copy (md : nat) : M Read_fits unit :=
  obj <- get ;;
  d <- lift (append_partial (data obj) md) ;;
  put (set_data d obj) ;;;
  match sbAndRefpix obj with
  | None => ret tt
  | Some sb =>
      sb' <- lift (append_partial sb md) ;;
      obj <- get ;;
      put (set_sbAndRefpix (Some sb') obj)
  end.

Definition truncate_frames (n : nat) : M Read_fits unit :=
  obj <- get ;;
  put (set_sbAndRefpix (option_map (slice_frames 0 n) (sbAndRefpix obj))
         (set_data (slice_frames 0 n (data obj)) obj)).

Definition data_volume_check (p : Readout) : M Read_fits unit :=
  obj <- get ;;
  let inputframes := dim1 (data obj) in
  let need := ngroup p * (nskip p + nframe p) in
  (if (inputframes <? need)%nat then
     if (inputframes =? 0)%nat then raise ZeroDivisionError
     else
       let div := (need / inputframes)%nat in
       let md := (need mod inputframes)%nat in
       for_range (div - 1) full_copy ;;;
       partial_copy md
   else if (need <? inputframes)%nat then truncate_frames need
   else ret tt) ;;;
  obj <- get ;;
  put (set_header (set_NGROUPS need (header obj)) obj).

(** *** [darkints] and [integration_copy] *)

(** One pass of the loop over full copies: the arrays saved before the
    loop are stacked under whatever is there.  [copysb] and [copyzero] are
    bound exactly when the attribute is not [None]. *)
Definition stack_copy (copydata : cube) (copysb : option cube) (copyzero : option cube3)
  : M Read_fits unit :=
  obj <- get ;;
  put (mkReadFits
         (vstack (data obj) copydata)
         (match sbAndRefpix obj, copysb with
          | Some sb, Some c => Some (vstack sb c)
          | other, _ => other
          end)
         (match zeroframe obj, copyzero with
          | Some z, Some c => Some (vstack z c)
          | other, _ => other
          end)
         (header obj)).

Definition stack_extras (extras : nat) : M Read_fits unit :=
  obj <- get ;;
  put (mkReadFits
         (vstack (data obj) (Py.islice 0 extras (data obj)))
         (option_map (fun sb => vstack sb (Py.islice 0 extras sb)) (sbAndRefpix obj))
         (option_map (fun z => vstack z (Py.islice 0 extras z)) (zeroframe obj))
         (header obj)).

(** [np.int((req - darkint) / darkint)] truncates towards zero; [%] takes
    the sign of the divisor. *)
Definition integration_copy (req darkint : nat) : M Read_fits unit :=
  if (darkint =? 0)%nat then raise ZeroDivisionError
  else
    let ncopies := Z.quot (Z.of_nat req - Z.of_nat darkint) (Z.of_nat darkint) in
    let extras := Z.modulo (Z.of_nat req - Z.of_nat darkint) (Z.of_nat darkint) in
    (if (0 <? ncopies)%Z then
       obj <- get ;;
       for_range (Z.to_nat ncopies)
         (stack_copy (data obj) (sbAndRefpix obj) (zeroframe obj))
     else ret tt) ;;;
    (if (0 <? extras)%Z then stack_extras (Z.to_nat extras) else ret tt) ;;;
    obj <- get ;;
    put (set_header (set_NINTS req (header obj)) obj).

Definition darkints (p : Readout) : M Read_fits unit :=
  obj <- get ;;
  let ndarkints := length (data obj) in
  let reqints := nint p in
  if (reqints <=? ndarkints)%nat then
    put (mkReadFits
           (Py.islice 0 reqints (data obj))
           (option_map (Py.islice 0 reqints) (sbAndRefpix obj))
           (option_map (Py.islice 0 reqints) (zeroframe obj))
           (header obj))
  else integration_copy reqints ndarkints.

(** *** [readpattern_check] *)

Definition upper_name (r : ReadPattern) : ReadPattern :=
  mkReadPattern (Py.upper (name r)) (rp_nframe r) (rp_nskip r) (maxgroups r).

(** The state is [(self.params['Readout'], self.readpatterns)], the table
    as read from the definition file.  Both are upper-cased before the
    membership test, so they stay so when the test fails. *)
Definition readpattern_check : M (Readout * list ReadPattern) unit :=
  st <- get ;;
  let p := set_readpatt (Py.upper (readpatt (fst st))) (fst st) in
  let tbl := map upper_name (snd st) in
  put (p, tbl) ;;;
  if Py.mem (readpatt p) (map name tbl) then
    match filter (fun r => String.eqb (readpatt p) (name r)) tbl with
    | r :: _ => put (set_nframe_nskip (rp_nframe r) (rp_nskip r) p, tbl)
    | [] => raise IndexError
    end
  else raise ValueError.

(** *** [reorder_dark] *)

(** [self.readpatterns['nskip'].data[mtch][0]]: the first row whose name
    is the dark's pattern; indexing an empty selection raises. *)
Definition lookup_nskip (tbl : list ReadPattern) (patt : string) : result nat :=
  match filter (fun r => String.eqb (name r) patt) tbl with
  | r :: _ => Ok (rp_nskip r)
  | [] => Raise IndexError
  end.

(** [sbzero = dark.sbAndRefpix[:, 0, :, :]] when the attribute is there. *)
Definition sbzero_of (dark : Read_fits) : M Read_fits (option cube3) :=
  match sbAndRefpix dark with
  | None => ret None
  | Some sb => z <- lift (frame_at sb 0) ;; ret (Some z)
  end.

Definition is_none {A : Type} (o : option A) : bool :=
  match o with None => true | Some _ => false end.

(** The four-way test that saves the zeroth frame. *)
Definition save_zeroframe (dark : Read_fits) : M Read_fits (option cube3) :=
  let darkpatt := READPATT (header dark) in
  if Py.mem darkpatt rapids && is_none (zeroframe dark) then
    z <- lift (frame_at (data dark) 0) ;;
    put (set_zeroframe (Some z) dark) ;;;
    sbzero_of dark
  else if negb (Py.mem darkpatt rapids) && is_none (zeroframe dark) then
    ret None
  else if Py.mem darkpatt rapids && negb (is_none (zeroframe dark)) then
    sbzero_of dark
  else ret None.

(** The body of the loop over groups, for the frame indexes [frames]:
    the image that is added to [outdark[integ, i]] and, when
    [sbAndRefpix] is there, the one added to [outsb[integ, i]].  Both
    output arrays start as zeros of the dark's frame shape. *)
Definition average_step (p : Readout) (d : cube) (sb : option cube)
           (yd xd integ : nat) (frames : list nat) : result (frame * option frame) :=
  if 1 <? nframe p then
    rbind (take_frames d integ frames) (fun fs =>
    let accumimage := mean_axis0 fs in
    rbind (match sb with
           | None => Ok None
           | Some s => rbind (take_frames s integ frames)
                             (fun zs => Ok (Some (mean_axis0 zs)))
           end) (fun zeroaccumimage =>
    Ok (frame_op Qplus (zeros yd xd) accumimage,
        option_map (frame_op Qplus (zeros yd xd)) zeroaccumimage)))
  else
    match frames with
    | [] => Raise IndexError
    | f0 :: _ =>
        rbind (take_frame d integ f0) (fun accumimage =>
        rbind (match sb with
               | None => Ok None
               | Some s => rbind (take_frame s integ f0) (fun z => Ok (Some z))
               end) (fun zeroaccumimage =>
        Ok (frame_op Qplus (zeros yd xd) accumimage,
            option_map (frame_op Qplus (zeros yd xd)) zeroaccumimage)))
    end.

(** The loop over groups: [frames] is carried from one group to the next
    and incremented by [framesPerGroup]. *)
Fixpoint group_loop {B : Type} (n framesPerGroup : nat) (frames : list nat)
         (body : list nat -> result B) : result (list B) :=
  match n with
  | O => Ok []
  | S n' =>
      rbind (body frames) (fun y =>
      rbind (group_loop n' framesPerGroup (map (fun k => k + framesPerGroup) frames) body)
            (fun ys => Ok (y :: ys)))
  end.

(** The loops over integrations and groups of the averaging branch. *)
Definition average (p : Readout) (d : cube) (sb : option cube) (yd xd : nat)
  : result (list (list (frame * option frame))) :=
  let framesPerGroup := nframe p + nskip p in
  map_result (fun integ =>
                group_loop (ngroup p) framesPerGroup (seq 0 (nframe p))
                           (average_step p d sb yd xd integ))
             (seq 0 (nint p)).

Definition outdark_of (res : list (list (frame * option frame))) : cube :=
  map (map fst) res.

(** [outsb] keeps its zeros where nothing was added. *)
Definition outsb_of (yd xd : nat) (res : list (list (frame * option frame))) : cube :=
  map (map (fun x => match snd x with Some z => z | None => zeros yd xd end)) res.

(** [reorder_dark(dark)]: [dark] is the state, the value is [sbzero]. *)
Definition reorder_dark (p : Readout) (tbl : list ReadPattern) : M Read_fits (option cube3) :=
  dark <- get ;;
  let darkpatt := READPATT (header dark) in
  _ <- lift (lookup_nskip tbl darkpatt) ;;
  let yd := dim2 (data dark) in
  let xd := dim3 (data dark) in
  sbzero <- save_zeroframe dark ;;
  out <- (if Py.mem darkpatt rapids && negb (Py.mem (readpatt p) rapids) then
            res <- lift (average p (data dark) (sbAndRefpix dark) yd xd) ;;
            ret (outdark_of res,
                 option_map (fun _ => outsb_of yd xd res) (sbAndRefpix dark))
          else if String.eqb (readpatt p) darkpatt then
            ret (slice_frames 0 (ngroup p) (data dark),
                 option_map (slice_frames 0 (ngroup p)) (sbAndRefpix dark))
          else raise ValueError) ;;
  now <- get ;;
  put (mkReadFits
         (fst out)
         (match sbAndRefpix now with Some _ => snd out | None => None end)
         (zeroframe now)
         (mkHeader (readpatt p) (nframe p) (nskip p) (ngroup p) (nint p)
                   (DETECTOR (header now)) (INSTRUME (header now)))) ;;;
  ret sbzero.

(** *** [crop_dark] *)

(** An assignment under [try: ... except: pass]: on [None] (a TypeError)
    or on an IndexError the attribute keeps its value. *)
Definition try_update (f : ndarray -> result ndarray) (a : option ndarray) : option ndarray :=
  match a with
  | None => None
  | Some x => match f x with
              | Ok y => Some y
              | Raise _ => Some x
              end
  end.

Definition crop_arrays (b : Bounds) (model : Model) : Model :=
  let y0 := by0 b in
  let y1 := (by1 b + 1)%Z in
  let x0 := bx0 b in
  let x1 := (bx1 b + 1)%Z in
  match m_data model with
  | Arr4 c =>
      mkModel (Arr4 (map (map (slice2 y0 y1 x0 x1)) c))
              (try_update (index4 y0 y1 x0 x1) (m_sbAndRefpix model))
              (try_update (index3 y0 y1 x0 x1) (m_zeroframe model))
  | Arr3 z =>
      mkModel (Arr3 (map (slice2 y0 y1 x0 x1) z))
              (try_update (index3 y0 y1 x0 x1) (m_sbAndRefpix model))
              (try_update (index3 y0 y1 x0 x1) (m_zeroframe model))
  | Arr2 f =>
      mkModel (Arr2 (slice2 y0 y1 x0 x1 f))
              (try_update (index2 y0 y1 x0 x1) (m_sbAndRefpix model))
              (try_update (index2 y0 y1 x0 x1) (m_zeroframe model))
  end.

(** [crop_dark(model)]: [model] is the state (the method returns the
    object it was given).  [int(nfast / 4)] truncates towards zero. *)
Definition crop_dark (p : Readout) (b : Bounds) : M Model unit :=
  model <- get ;;
  let yd := Z.of_nat (rows (m_data model)) in
  let xd := Z.of_nat (cols (m_data model)) in
  (if negb (bx0 b =? 0)%Z || negb (bx1 b =? xd - 1)%Z
      || negb (by0 b =? 0)%Z || negb (by1 b =? yd - 1)%Z
   then put (crop_arrays b model)
   else ret tt) ;;;
  let nfast := (bx1 b - bx0 b + 1)%Z in
  if negb (namp p =? 4)%Z && negb (namp p =? 1)%Z then raise ValueError
  else if (namp p =? 4)%Z then
    let n := (Z.quot nfast 4 * 4)%Z in
    if negb (n =? nfast)%Z then raise ValueError else ret tt
  else ret tt.

(** *** [get_base_dark]: the checks on the dark once it is read *)

Definition Qlt_bool (a b : Q) : bool := negb (Qle_bool b a).

(** The state is [self.dark] as the reader returned it. *)
Definition get_base_dark (p : Readout) : M Read_fits unit :=
  dark <- get ;;
  mx <- lift (amax (data dark)) ;;
  mn <- lift (amin (data dark)) ;;
  let darkrange := (1 * mx - 1 * mn)%Q in
  if Qlt_bool 65535 darkrange then raise ValueError
  else
    (if Qlt_bool mn 0 then put (set_data (add_scalar 32768 (data dark)) dark)
     else ret tt) ;;;
    if negb (Py.mem (READPATT (header dark)) rapids) then
      if negb (String.eqb (Py.upper (readpatt p)) (READPATT (header dark)))
      then raise ValueError
      else ret tt
    else ret tt.

End DarkPrep.

Import DarkPrep.

(** ** Specification predicates and sample inputs *)

(** [ext] extends [orig], of [n] integrations, to [req] integrations by
    cycling through [orig]: the first [n] are [orig] itself, and
    integration [n + j] is integration [j mod n] of [orig]. *)
Definition cyclic_extension {A : Type} (n req : nat) (orig ext : list A) : Prop :=
  length ext = req /\
  firstn n ext = orig /\
  forall j, n + j < req -> nth_error ext (n + j) = nth_error orig (j mod n).

(** The same rule on an attribute that may be [None]. *)
Definition cyclic_extension_opt {A : Type} (n req : nat) (orig ext : option (list A)) : Prop :=
  match orig, ext with
  | Some o, Some e => cyclic_extension n req o e
  | None, None => True
  | _, _ => False
  end.

(** The frames [start, start + n) of integration [integ]. *)
Definition frames_from (a : cube) (integ start n : nat) : list frame :=
  firstn n (skipn start (nth integ a [])).

(** Output group [g] of integration [integ] as the specification words it:
    the mean of [nframe] consecutive frames from [g * (nframe + nskip)] when
    [nframe > 1], that single frame otherwise. *)
Definition group_spec (p : Readout) (a : cube) (integ g : nat) : frame :=
  let start := g * (nframe p + nskip p) in
  if 1 <? nframe p then mean_axis0 (frames_from a integ start (nframe p))
  else nth start (nth integ a []) [].



(** Sample [(y, x)] of a frame. *)
Definition pixel (f : frame) (y x : nat) : Q := nth x (nth y f []) 0%Q.

(** The sum over the frames [fs] of their sample [(y, x)]. *)
Definition sample_sum (fs : list frame) (y x : nat) : Q :=
  fold_left Qplus (map (fun f => pixel f y x) fs) 0%Q.


(** A relation between two optional arrays that are both there or both
    [None]. *)
Definition opt_rel {A B : Type} (R : A -> B -> Prop) (a : option A) (b : option B) : Prop :=
  match a, b with
  | Some x, Some y => R x y
  | None, None => True
  | _, _ => False
  end.

(** [x] followed by [n] copies of itself and then by the first [e]
    elements of the result. *)
Definition extended_by {A : Type} (n e : nat) (x : list A) : list A :=
  (x ++ concat (repeat x n)) ++ firstn e (x ++ concat (repeat x n)).

(** Frame extension of one integration as the specification words it.
    Every full copy is the original block plus the last frame of the
    sequence as it stands; the partial block is
    [original[1:m+1] - original[0]] plus the last frame of the extended
    sequence. *)
Definition add_offset (off : frame) (fs : list frame) : list frame :=
  map (fun f => frame_op Qplus f off) fs.

Fixpoint full_copies_spec (n : nat) (orig cur : list frame) : list frame :=
  match n with
  | O => cur
  | S n' => full_copies_spec n' orig (cur ++ add_offset (last cur []) orig)
  end.

Definition extension_spec (need : nat) (orig : list frame) : list frame :=
  let F := length orig in
  let full := full_copies_spec (need / F - 1) orig orig in
  full ++ map (fun f => frame_op Qplus (frame_op Qminus f (nth 0 orig [])) (last full []))
              (firstn (need mod F) (skipn 1 orig)).

Module Sample.

Definition hdr (patt : string) : Header := mkHeader patt 1 0 1 1 "NRCA1" "NIRCAM".

Definition cfg (patt : string) (nf ns ng ni : nat) : Readout :=
  mkReadout patt nf ns ng ni 4%Z.

(** One integration of single-pixel frames with the given samples. *)
Definition ramp (l : list Q) : list frame := map (fun v => [[v]]) l.

Definition table : list ReadPattern :=
  [mkReadPattern "RAPID" 1 0 10; mkReadPattern "BRIGHT1" 1 1 10;
   mkReadPattern "BRIGHT2" 2 0 10; mkReadPattern "DEEP8" 8 12 20]%string.

(** A signed raw dark: one integration, samples -32768 and 2. *)
Definition signed_dark : Read_fits :=
  mkReadFits [ramp [(-32768)%Q; 2%Q]] None None (hdr "RAPID").

(** One integration of one frame, asked for three frames. *)
Definition one_frame_dark : Read_fits :=
  mkReadFits [ramp [1%Q]] None None (hdr "RAPID").

(** One integration of two frames. *)
Definition two_frame_dark : Read_fits :=
  mkReadFits [ramp [1; 2]%Q] None None (hdr "RAPID").

(** Two integrations of three frames. *)
Definition two_by_three_dark : Read_fits :=
  mkReadFits [ramp [1; 2; 4]%Q; ramp [10; 20; 40]%Q] None None (hdr "RAPID").

(** Two integrations of two frames with [sbAndRefpix] and a zero-frame. *)
Definition two_by_two_dark : Read_fits :=
  mkReadFits [ramp [1; 2]%Q; ramp [10; 20]%Q]
             (Some [ramp [3; 4]%Q; ramp [30; 40]%Q])
             (Some [[[1%Q]]; [[10%Q]]]) (hdr "RAPID").

(** Two integrations of ten frames, 1, 2, 4, ... and 1, 3, 9, ... *)
Definition rapid_dark : Read_fits :=
  mkReadFits [ramp [1; 2; 4; 8; 16; 32; 64; 128; 256; 512]%Q;
              ramp [1; 3; 9; 27; 81; 243; 729; 2187; 6561; 19683]%Q]
             None None (hdr "RAPID").

End Sample.

(** ** Further specification functions, the stages of [prepare], more inputs *)

(** [ext] has [req] elements and element [i] is element [i mod n] of
    [orig]. *)
Definition cycles_of {A : Type} (n req : nat) (orig ext : list A) : Prop :=
  length ext = req /\
  forall i, i < req -> nth_error ext i = nth_error orig (i mod n).

Definition cycles_of_opt {A : Type} (n req : nat) (orig ext : option (list A)) : Prop :=
  match orig, ext with
  | Some o, Some e => cycles_of n req o e
  | None, None => True
  | _, _ => False
  end.

(** One integration after [n] passes of the loop over full copies of
    [data_volume_check]: each pass appends the sequence as it stands, raised
    by its last frame. *)
Fixpoint doubled (n : nat) (cur : list frame) : list frame :=
  match n with
  | O => cur
  | S n' => doubled n' (cur ++ add_offset (last cur []) cur)
  end.

(** Rows [y0, y0 + h) and columns [x0, x0 + w) of a frame. *)
Definition window (y0 h x0 w : nat) (f : frame) : frame :=
  map (fun row => firstn w (skipn x0 row)) (firstn h (skipn y0 f)).

(** The three in-memory stages of [prepare] on [self.dark], in its order:
    [self.data_volume_check(self.dark)], [self.darkints()],
    [self.dark, sbzeroframe = self.reorder_dark(self.dark)]. *)
Definition prepare_reshape (p : Readout) (tbl : list ReadPattern)
  : M Read_fits (option cube3) :=
  data_volume_check p ;;; darkints p ;;; reorder_dark p tbl.

Module Cases.

(** Three integrations of four single-pixel frames, with [sbAndRefpix]
    and a zero-frame. *)
Definition three_by_four : Read_fits :=
  mkReadFits [Sample.ramp [1; 2; 3; 4]%Q; Sample.ramp [10; 20; 30; 40]%Q;
              Sample.ramp [100; 200; 300; 400]%Q]
             (Some [Sample.ramp [5; 6; 7; 8]%Q; Sample.ramp [50; 60; 70; 80]%Q;
                    Sample.ramp [500; 600; 700; 800]%Q])
             (Some [[[1%Q]]; [[10%Q]]; [[100%Q]]]) (Sample.hdr "RAPID").

End Cases.

(** One integration as [data_volume_check] extends it: the loop over full
    copies runs [need / F - 1] times, then the partial block is appended. *)
Definition extension_code (need : nat) (orig : list frame) : list frame :=
  let F := length orig in
  let full := doubled (need / F - 1) orig in
  full ++ map (fun f => frame_op Qplus (frame_op Qminus f (nth 0 orig [])) (last full []))
              (firstn (need mod F) (skipn 1 orig)).

Module Frames.

(** One integration of one frame of two rows by four columns, with the
    same frame as zero-frame. *)
Definition wide : Read_fits :=
  mkReadFits [[[[1; 2; 3; 4]; [5; 6; 7; 8]]]]%Q None
             (Some [[[1; 2; 3; 4]; [5; 6; 7; 8]]]%Q) (Sample.hdr "RAPID").

(** A definition table as a file may have it, in lower case. *)
Definition lower_table : list ReadPattern :=
  [mkReadPattern "rapid" 1 0 10; mkReadPattern "deep8" 8 12 20;
   mkReadPattern "Deep8" 4 4 20]%string.

End Frames.

(** An array of shape (nint, ngroup, ...) whose integration [i] holds the
    groups of integration [i mod n] of [a]. *)
Definition averaged_cyclic (p : Readout) (n : nat) (a out : cube) : Prop :=
  length out = nint p /\
  forall integ, integ < nint p ->
    length (nth integ out []) = ngroup p /\
    forall g, g < ngroup p ->
      nth g (nth integ out []) [] = group_spec p a (integ mod n) g.

Definition averaged_cyclic_opt (p : Readout) (n : nat) (a out : option cube) : Prop :=
  match a, out with
  | Some x, Some y => averaged_cyclic p n x y
  | None, None => True
  | _, _ => False
  end.

(** One integration as [data_volume_check] leaves it: cut to the frames
    needed when it has them, extended when it has not. *)
Definition volume_checked (need : nat) (r : list frame) : list frame :=
  if need <=? length r then firstn need r else extension_code need r.

(** ** The linearized-dark path of [prepare] *)

(** What [darkints] leaves of an array of [n] integrations when [req] are
    asked for: cut to the first [req], or cycled up to [req]. *)
Definition cut_or_cycled {A : Type} (n req : nat) (x : list A) : list A :=
  if req <=? n then firstn req x
  else extended_by ((req - n) / n) ((req - n) mod n) x.

(** The array of shape (nint, ngroup, y, x) made of the groups of [a]. *)
Definition regrouped (p : Readout) (a : cube) : cube :=
  map (fun integ => map (fun g => group_spec p a integ g) (seq 0 (ngroup p)))
      (seq 0 (nint p)).

(** [a[:, 0, :, :]] of an array that has a frame 0. *)
Definition first_frames (a : cube) : cube3 := map (fun r => nth 0 r []) a.

(** What the rest of [prepare] reads of [self.linDark] and
    [self.zeroModel] once both are cropped. *)
Record Cropped : Type := mkCropped {
  lin_data : ndarray;
  lin_sbAndRefpix : option ndarray;
  lin_header : Header;
  zero_data : option ndarray;
  zero_sbAndRefpix : option ndarray
}.

(** Lines 690-771 of [prepare] when a linearized dark was read
    ([runStep['linearized_darkfile']] holds, so the pipeline branch of
    lines 707-756 is skipped, and [self.linDark] and [self.dark] are one
    object): the three stages, the zero-frame model built from
    [self.dark.zeroframe] and [sbzeroframe], the crop of the dark and - when
    its [data] is not [None] - of the zero-frame model.  The value is the
    pair of objects as they stand after line 771; what follows in
    [prepare] (the FITS file, [prepDark]) is not part of it.  [blank] is the
    [zeroframe] attribute of a fresh [Read_fits()]. *)
Definition prepare_linearized_crop (p : Readout) (tbl : list ReadPattern) (b : Bounds)
           (blank : option ndarray) (dark0 : Read_fits) : result Cropped :=
  match prepare_reshape p tbl dark0 with
  | (_, Raise e) => Raise e
  | (dark, Ok sbzeroframe) =>
      match crop_dark p b (model_of dark) with
      | (_, Raise e) => Raise e
      | (linDark, Ok _) =>
          match zeroframe dark with
          | None =>
              Ok (mkCropped (m_data linDark) (m_sbAndRefpix linDark) (header dark)
                            None (option_map Arr3 sbzeroframe))
          | Some zf =>
              match crop_dark p b (mkModel (Arr3 zf) (option_map Arr3 sbzeroframe) blank) with
              | (_, Raise e) => Raise e
              | (zeroModel, Ok _) =>
                  Ok (mkCropped (m_data linDark) (m_sbAndRefpix linDark) (header dark)
                                (Some (m_data zeroModel)) (m_sbAndRefpix zeroModel))
              end
          end
      end
  end.

(** [out] has shape (nint, ngroup, h, w); its sample [(y, x)] of group [g]
    of integration [i] is the arithmetic mean of the samples
    [(y0 + y, x0 + x)] of the [nframe] frames from [g * (nframe + nskip)] of
    integration [i mod n] of [a]: [nframe] times the sample is their
    sum. *)
Definition cropped_groups (p : Readout) (n y0 h x0 w : nat) (a out : cube) : Prop :=
  rect4 (nint p) (ngroup p) h w out /\
  forall integ g, integ < nint p -> g < ngroup p ->
    let fs := frames_from a (integ mod n) (g * (nframe p + nskip p)) (nframe p) in
    length fs = nframe p /\
    forall y x, y < h -> x < w ->
      (pixel (nth g (nth integ out []) []) y x * inject_Z (Z.of_nat (nframe p)) ==
       sample_sum fs (y0 + y) (x0 + x))%Q.

(** [out] has shape (req, h, w), and its sample [(y, x)] of frame [i] is
    sample [(y0 + y, x0 + x)] of frame [i mod n] of [z]. *)
Definition cropped_frames (req n y0 h x0 w : nat) (z out : cube3) : Prop :=
  length out = req /\ Forall (rect2 h w) out /\
  forall i y x, i < req -> y < h -> x < w ->
    pixel (nth i out []) y x = pixel (nth (i mod n) z []) (y0 + y) (x0 + x).

Module Ramps.

(** Two integrations of four frames of two rows by four columns; the
    frame [k] of integration [i] holds [100 i + 10 k + (pixel number)]. *)
Definition frame_of (base : Z) : frame :=
  [[inject_Z base; inject_Z (base + 1); inject_Z (base + 2); inject_Z (base + 3)];
   [inject_Z (base + 4); inject_Z (base + 5); inject_Z (base + 6); inject_Z (base + 7)]].

Definition two_by_four : Read_fits :=
  mkReadFits [[frame_of 0; frame_of 10; frame_of 20; frame_of 30];
              [frame_of 100; frame_of 110; frame_of 120; frame_of 130]]
             None None (Sample.hdr "RAPID").

End Ramps.

(** * Properties *)

Unset Implicit Arguments.

Ltac run := unfold bind, get, put, ret, raise, lift; cbn [fst snd].

(** ** Subarray Cropper *)

Lemma quot4_exact (n : Z) : (Z.quot n 4 * 4 =? n)%Z = true <-> (4 | n)%Z.
Proof.
  rewrite Z.eqb_eq. split.
  - intros H. exists (Z.quot n 4). lia.
  - intros [k ->]. rewrite Z.quot_mul by lia. reflexivity.
Qed.

(** The outcome of [crop_dark] depends on the amplifier check alone. *)
Lemma crop_dark_outcome (p : Readout) (b : Bounds) (model : Model) :
  snd (crop_dark p b model) =
  if negb (namp p =? 4)%Z && negb (namp p =? 1)%Z then Raise ValueError
  else if (namp p =? 4)%Z then
         if (Z.quot (bx1 b - bx0 b + 1) 4 * 4 =? bx1 b - bx0 b + 1)%Z
         then Ok tt else Raise ValueError
       else Ok tt.
Proof.
  unfold crop_dark. run.
  destruct (negb (bx0 b =? 0)%Z || negb (bx1 b =? Z.of_nat (cols (m_data model)) - 1)%Z
            || negb (by0 b =? 0)%Z || negb (by1 b =? Z.of_nat (rows (m_data model)) - 1)%Z);
    cbn [fst snd];
    destruct (namp p =? 4)%Z, (namp p =? 1)%Z; cbn [negb andb fst snd]; try reflexivity;
    destruct (Z.quot (bx1 b - bx0 b + 1) 4 * 4 =? bx1 b - bx0 b + 1)%Z; reflexivity.
Qed.

(** C7. [crop_dark] raises its configuration error exactly when the
    amplifier count is neither 1 nor 4, or it is 4 and the fast-axis width
    [x_max - x_min + 1] is not a multiple of 4; otherwise it returns. *)
Theorem crop_dark_raises_iff (p : Readout) (b : Bounds) (model : Model) :
  let nfast := (bx1 b - bx0 b + 1)%Z in
  (snd (crop_dark p b model) = Raise ValueError <->
   (namp p <> 1%Z /\ namp p <> 4%Z) \/ (namp p = 4%Z /\ ~ (4 | nfast)%Z)) /\
  (snd (crop_dark p b model) = Ok tt <->
   namp p = 1%Z \/ (namp p = 4%Z /\ (4 | nfast)%Z)).
Proof.
  cbv zeta. rewrite crop_dark_outcome.
  pose proof (quot4_exact (bx1 b - bx0 b + 1)) as Hq.
  destruct (Z.eqb_spec (namp p) 4) as [E4 | N4];
    destruct (Z.eqb_spec (namp p) 1) as [E1 | N1]; cbn [negb andb];
    try destruct (Z.quot (bx1 b - bx0 b + 1) 4 * 4 =? bx1 b - bx0 b + 1)%Z;
    try (assert (Hd : (4 | bx1 b - bx0 b + 1)%Z) by (apply Hq; reflexivity));
    try (assert (Hn : ~ (4 | bx1 b - bx0 b + 1)%Z)
          by (intros H; apply Hq in H; discriminate));
    intuition (try discriminate; try lia).
Qed.

(** C8. With bounds equal to the full frame of [data], [crop_dark] leaves
    [data], [sbAndRefpix] and [zeroframe] as they were, whether or not the
    amplifier check then raises. *)
Theorem crop_dark_full_frame_identity (p : Readout) (model : Model) :
  let yd := Z.of_nat (rows (m_data model)) in
  let xd := Z.of_nat (cols (m_data model)) in
  fst (crop_dark p (0, 0, xd - 1, yd - 1)%Z model) = model.
Proof.
  cbv zeta. unfold crop_dark. run. unfold bx0, bx1, by0, by1. cbn [fst snd].
  rewrite !Z.eqb_refl. cbn [negb orb fst snd].
  destruct (namp p =? 4)%Z, (namp p =? 1)%Z; cbn [negb andb fst snd]; try reflexivity;
    match goal with |- context [negb ?c] => destruct c end; reflexivity.
Qed.

(** ** Loading a raw dark *)

Lemma Qlt_bool_iff (a b : Q) : Qlt_bool a b = true <-> (a < b)%Q.
Proof.
  unfold Qlt_bool. rewrite negb_true_iff. split.
  - intros H. apply Qnot_le_lt. intros Hle.
    apply Qle_bool_iff in Hle. congruence.
  - intros H. destruct (Qle_bool b a) eqn:E; [ | reflexivity].
    apply Qle_bool_iff in E. exfalso. apply (Qlt_not_le _ _ H E).
Qed.

Lemma Qlt_bool_false_iff (a b : Q) : Qlt_bool a b = false <-> (b <= a)%Q.
Proof.
  split.
  - intros H. apply Qnot_lt_le. intros Hlt. apply Qlt_bool_iff in Hlt. congruence.
  - intros H. destruct (Qlt_bool a b) eqn:E; [ | reflexivity].
    apply Qlt_bool_iff in E. exfalso. apply (Qlt_not_le _ _ E H).
Qed.

Lemma darkrange_eq (mx mn : Q) : (1 * mx - 1 * mn == mx - mn)%Q.
Proof. ring. Qed.

(** C10. For a raw dark with maximum [mx] and minimum [mn]: a range above
    65535 is refused with the dark untouched; otherwise, when [mn] is
    negative the array comes out with its shape and every sample [s]
    replaced by [s + 32768], and when it is not the data stay as they are.
    The shift is in place before the readout pattern is looked at, so it
    holds in the state whatever that check decides. *)
Theorem get_base_dark_unsigned_shift (p : Readout) (dark : Read_fits) (mx mn : Q) :
  amax (data dark) = Ok mx ->
  amin (data dark) = Ok mn ->
  ((65535 < mx - mn)%Q -> get_base_dark p dark = (dark, Raise ValueError)) /\
  ((mx - mn <= 65535)%Q -> (mn < 0)%Q ->
     data (fst (get_base_dark p dark)) =
       map (map (map (map (fun s => (s + 32768)%Q)))) (data dark)) /\
  ((mx - mn <= 65535)%Q -> (0 <= mn)%Q ->
     data (fst (get_base_dark p dark)) = data dark).
Proof.
  intros Hmx Hmn. unfold get_base_dark. run. rewrite Hmx, Hmn. cbn [fst snd].
  repeat split.
  - intros Hr. rewrite <- darkrange_eq in Hr. apply Qlt_bool_iff in Hr.
    rewrite Hr. reflexivity.
  - intros Hr Hneg. rewrite <- darkrange_eq in Hr. apply Qlt_bool_false_iff in Hr.
    rewrite Hr. apply Qlt_bool_iff in Hneg. rewrite Hneg. cbn [fst snd].
    destruct (negb (Py.mem (READPATT (header dark)) rapids));
      [destruct (negb (String.eqb (Py.upper (readpatt p)) (READPATT (header dark)))) | ];
      reflexivity.
  - intros Hr Hpos. rewrite <- darkrange_eq in Hr. apply Qlt_bool_false_iff in Hr.
    rewrite Hr. apply Qlt_bool_false_iff in Hpos. rewrite Hpos. cbn [fst snd].
    destruct (negb (Py.mem (READPATT (header dark)) rapids));
      [destruct (negb (String.eqb (Py.upper (readpatt p)) (READPATT (header dark)))) | ];
      reflexivity.
Qed.

(** A signed dark with samples -32768 and 2 comes out as 0 and 32770. *)
Lemma get_base_dark_unsigned_shift_witness :
  data (fst (get_base_dark (Sample.cfg "RAPID" 1 0 2 1) Sample.signed_dark)) =
  [[[[0%Q]]; [[32770%Q]]]].
Proof.
  refine (eq_trans (proj1 (proj2 (get_base_dark_unsigned_shift (Sample.cfg "RAPID" 1 0 2 1)
                                    Sample.signed_dark 2 (-32768) eq_refl eq_refl)) _ _)
                   eq_refl).
  - vm_compute. discriminate.
  - vm_compute. reflexivity.
Defined.

(** The check that [reorder_dark] repeats: a raw dark that passes the range
    check, is not RAPID-family and is asked for another pattern is already
    refused here. *)
Lemma get_base_dark_rejects_other_pattern (p : Readout) (dark : Read_fits) (mx mn : Q) :
  amax (data dark) = Ok mx ->
  amin (data dark) = Ok mn ->
  (mx - mn <= 65535)%Q ->
  Py.mem (READPATT (header dark)) rapids = false ->
  Py.upper (readpatt p) <> READPATT (header dark) ->
  snd (get_base_dark p dark) = Raise ValueError.
Proof.
  intros Hmx Hmn Hr Hrapid Hne. unfold get_base_dark. run. rewrite Hmx, Hmn. cbn [fst snd].
  rewrite <- darkrange_eq in Hr. apply Qlt_bool_false_iff in Hr. rewrite Hr.
  rewrite Hrapid. apply String.eqb_neq in Hne. rewrite Hne.
  destruct (Qlt_bool mn 0); reflexivity.
Qed.

(** ** Readout-Pattern Translator *)

Lemma mem_names_filter (tbl : list ReadPattern) (patt : string) :
  Py.mem patt (map name tbl) = false <->
  filter (fun r => String.eqb (name r) patt) tbl = [].
Proof.
  unfold Py.mem. induction tbl as [ | r tbl IH]; cbn [map existsb filter].
  - tauto.
  - rewrite (String.eqb_sym patt (name r)).
    destruct (String.eqb (name r) patt); cbn [orb].
    + split; discriminate.
    + exact IH.
Qed.

Lemma lookup_nskip_outcome (tbl : list ReadPattern) (patt : string) :
  (Py.mem patt (map name tbl) = true /\ exists n, lookup_nskip tbl patt = Ok n) \/
  (Py.mem patt (map name tbl) = false /\ lookup_nskip tbl patt = Raise IndexError).
Proof.
  unfold lookup_nskip.
  destruct (Py.mem patt (map name tbl)) eqn:E.
  - left. split; [reflexivity | ].
    destruct (filter (fun r => String.eqb (name r) patt) tbl) eqn:F.
    + apply mem_names_filter in F. congruence.
    + eexists; reflexivity.
  - right. split; [reflexivity | ].
    apply mem_names_filter in E. rewrite E. reflexivity.
Qed.

(** C5. A dark whose pattern is not RAPID-family, asked for a pattern of
    another name, makes [reorder_dark] raise with the dark exactly as it was
    on entry: the ValueError of the last branch when the dark's pattern is in
    the definition table, the IndexError of the table lookup when it is
    not. *)
Theorem reorder_dark_rejects_other_pattern
        (p : Readout) (tbl : list ReadPattern) (dark : Read_fits) :
  Py.mem (READPATT (header dark)) rapids = false ->
  readpatt p <> READPATT (header dark) ->
  reorder_dark p tbl dark =
  (dark, Raise (if Py.mem (READPATT (header dark)) (map name tbl)
                then ValueError else IndexError)).
Proof.
  intros Hrapid Hne. unfold reorder_dark. run.
  destruct (lookup_nskip_outcome tbl (READPATT (header dark))) as [[Hm [n Hn]] | [Hm Hn]];
    rewrite Hm, Hn; cbn [fst snd]; [ | reflexivity].
  unfold save_zeroframe. rewrite Hrapid. cbn [andb negb].
  apply String.eqb_neq in Hne. rewrite Hne.
  destruct (is_none (zeroframe dark)); run; reflexivity.
Qed.

(** A DEEP8 dark asked for BRIGHT1 is refused and left untouched. *)
Lemma reorder_dark_rejects_other_pattern_witness :
  reorder_dark (Sample.cfg "BRIGHT1" 1 1 2 1) Sample.table
               (mkReadFits [Sample.ramp [1; 2; 3; 4]%Q] None None (Sample.hdr "DEEP8")) =
  (mkReadFits [Sample.ramp [1; 2; 3; 4]%Q] None None (Sample.hdr "DEEP8"), Raise ValueError).
Proof.
  apply (reorder_dark_rejects_other_pattern (Sample.cfg "BRIGHT1" 1 1 2 1) Sample.table
           (mkReadFits [Sample.ramp [1; 2; 3; 4]%Q] None None (Sample.hdr "DEEP8"))).
  - reflexivity.
  - discriminate.
Defined.

(** ** Integration extension *)

Section Cycling.

Context {A : Type}.

Lemma length_concat_repeat (d : list A) (n : nat) :
  length (concat (repeat d n)) = n * length d.
Proof.
  induction n as [ | n IH]; cbn [repeat concat]; [reflexivity | ].
  rewrite length_app, IH. reflexivity.
Qed.

Lemma nth_error_concat_repeat (d : list A) (n j : nat) :
  j < n * length d ->
  nth_error (concat (repeat d n)) j = nth_error d (j mod length d).
Proof.
  revert j. induction n as [ | n IH]; intros j Hj; [lia | ].
  cbn [repeat concat].
  destruct (Nat.lt_ge_cases j (length d)) as [Hlt | Hge].
  - rewrite nth_error_app1 by exact Hlt. rewrite Nat.mod_small by exact Hlt. reflexivity.
  - rewrite nth_error_app2 by exact Hge. rewrite IH by lia.
    replace j with ((j - length d) + 1 * length d) at 2 by lia.
    rewrite Nat.Div0.mod_add. reflexivity.
Qed.

Lemma firstn_app_exact (d l : list A) : firstn (length d) (d ++ l) = d.
Proof.
  rewrite firstn_app, Nat.sub_diag, firstn_all. cbn [firstn]. apply app_nil_r.
Qed.

Lemma firstn_app_short (d l : list A) (e : nat) :
  e <= length d -> firstn e (d ++ l) = firstn e d.
Proof.
  intros He. rewrite firstn_app. replace (e - length d) with 0 by lia.
  cbn [firstn]. apply app_nil_r.
Qed.

(** Full copies followed by a partial one cycle through the original. *)
Lemma cyclic_extension_copies (d : list A) (n e : nat) :
  e < length d ->
  cyclic_extension (length d) (length d + n * length d + e) d
                   ((d ++ concat (repeat d n)) ++ firstn e (d ++ concat (repeat d n))).
Proof.
  intros He. rewrite firstn_app_short by lia. rewrite <- app_assoc.
  repeat split.
  - rewrite !length_app, length_concat_repeat, length_firstn. lia.
  - apply firstn_app_exact.
  - intros j Hj. rewrite nth_error_app2 by lia.
    replace (length d + j - length d) with j by lia.
    destruct (Nat.lt_ge_cases j (n * length d)) as [Hlt | Hge].
    + rewrite nth_error_app1 by (rewrite length_concat_repeat; exact Hlt).
      apply nth_error_concat_repeat. exact Hlt.
    + rewrite nth_error_app2 by (rewrite length_concat_repeat; exact Hge).
      rewrite length_concat_repeat.
      replace j with ((j - n * length d) + n * length d) at 2 by lia.
      rewrite Nat.Div0.mod_add, Nat.mod_small by lia.
      rewrite nth_error_firstn.
      destruct (Nat.ltb_spec (j - n * length d) e); [reflexivity | lia].
Qed.

End Cycling.

(** What [data], [sbAndRefpix] and [zeroframe] become under [n] full
    copies and a partial copy of [e] integrations. *)
Lemma for_range_stack_copy (n : nat) (d : cube) (sb : option cube) (z : option cube3)
      (obj : Read_fits) :
  for_range n (stack_copy d sb z) obj =
  (mkReadFits
     (data obj ++ concat (repeat d n))
     (match sbAndRefpix obj, sb with
      | Some s, Some c => Some (s ++ concat (repeat c n))
      | other, _ => other
      end)
     (match zeroframe obj, z with
      | Some s, Some c => Some (s ++ concat (repeat c n))
      | other, _ => other
      end)
     (header obj), Ok tt).
Proof.
  revert obj. induction n as [ | n IH]; intros obj.
  - cbn [for_range repeat concat]. unfold ret. rewrite app_nil_r.
    destruct obj as [dd [s | ] [zz | ] h]; cbn; destruct sb, z;
      rewrite ?app_nil_r; reflexivity.
  - cbn [for_range]. unfold stack_copy at 1. run. rewrite IH. cbn [data sbAndRefpix zeroframe header].
    unfold vstack. cbn [repeat concat]. rewrite <- app_assoc.
    destruct (sbAndRefpix obj), sb, (zeroframe obj), z; rewrite <- ?app_assoc; reflexivity.
Qed.

Lemma copies_of_nat (req n : nat) :
  0 < n -> n <= req ->
  Z.quot (Z.of_nat req - Z.of_nat n) (Z.of_nat n) = Z.of_nat ((req - n) / n) /\
  Z.modulo (Z.of_nat req - Z.of_nat n) (Z.of_nat n) = Z.of_nat ((req - n) mod n).
Proof.
  intros Hn Hle. rewrite <- Nat2Z.inj_sub by exact Hle. split.
  - rewrite Z.quot_div_nonneg by lia. symmetry. apply Nat2Z.inj_div.
  - symmetry. apply Nat2Z.inj_mod.
Qed.

Lemma integration_copy_result (req : nat) (obj : Read_fits) :
  let n := length (data obj) in
  0 < n -> n <= req ->
  integration_copy req n obj =
  (mkReadFits
     (extended_by ((req - n) / n) ((req - n) mod n) (data obj))
     (option_map (extended_by ((req - n) / n) ((req - n) mod n)) (sbAndRefpix obj))
     (option_map (extended_by ((req - n) / n) ((req - n) mod n)) (zeroframe obj))
     (set_NINTS req (header obj)), Ok tt).
Proof.
  cbv zeta. intros Hn Hle. unfold integration_copy.
  destruct (Nat.eqb_spec (length (data obj)) 0) as [E | _]; [lia | ].
  destruct (copies_of_nat req _ Hn Hle) as [Hq Hm]. rewrite Hq, Hm.
  set (k := (req - length (data obj)) / length (data obj)).
  set (e := (req - length (data obj)) mod length (data obj)).
  rewrite !Nat2Z.id. unfold extended_by.
  assert (Hloop :
    (if (0 <? Z.of_nat k)%Z
     then obj0 <- get ;; for_range k (stack_copy (data obj0) (sbAndRefpix obj0) (zeroframe obj0))
     else ret tt) obj =
    (mkReadFits (data obj ++ concat (repeat (data obj) k))
                (option_map (fun s => s ++ concat (repeat s k)) (sbAndRefpix obj))
                (option_map (fun s => s ++ concat (repeat s k)) (zeroframe obj))
                (header obj), Ok tt)).
  { destruct (Z.ltb_spec 0 (Z.of_nat k)) as [Hk | Hk].
    - run. rewrite for_range_stack_copy.
      destruct (sbAndRefpix obj), (zeroframe obj); reflexivity.
    - assert (k = 0) as -> by lia. unfold ret. cbn [repeat concat].
      destruct obj as [dd [s | ] [zz | ] h]; cbn; rewrite ?app_nil_r; reflexivity. }
  unfold bind at 1. rewrite Hloop.
  destruct (Z.ltb_spec 0 (Z.of_nat e)) as [He | He].
  - unfold stack_extras, vstack, Py.islice. run.
    cbn [data sbAndRefpix zeroframe header]. rewrite !Nat.sub_0_r. cbn [skipn].
    destruct (sbAndRefpix obj), (zeroframe obj); reflexivity.
  - assert (e = 0) as -> by lia. run. cbn [data sbAndRefpix zeroframe header firstn].
    destruct (sbAndRefpix obj), (zeroframe obj); cbn [option_map];
      rewrite ?app_nil_r; reflexivity.
Qed.

(** C6. When more integrations are asked for than the dark with [n >= 1]
    integrations has, [darkints] returns with exactly [nint] integrations:
    the first [n] are the original ones and integration [n + j] is
    integration [j mod n] of the original, samples unchanged.  The same holds
    of [sbAndRefpix] and [zeroframe] when present (they have the
    integrations of [data]), and the header's NINTS becomes [nint]. *)
Theorem darkints_extends_by_cycling (p : Readout) (dark : Read_fits) :
  let n := length (data dark) in
  0 < n -> n < nint p ->
  (forall sb, sbAndRefpix dark = Some sb -> length sb = n) ->
  (forall z, zeroframe dark = Some z -> length z = n) ->
  snd (darkints p dark) = Ok tt /\
  cyclic_extension n (nint p) (data dark) (data (fst (darkints p dark))) /\
  cyclic_extension_opt n (nint p) (sbAndRefpix dark) (sbAndRefpix (fst (darkints p dark))) /\
  cyclic_extension_opt n (nint p) (zeroframe dark) (zeroframe (fst (darkints p dark))) /\
  NINTS (header (fst (darkints p dark))) = nint p.
Proof.
  cbv zeta. intros Hn Hlt Hsb Hz.
  assert (Hres : darkints p dark = integration_copy (nint p) (length (data dark)) dark).
  { unfold darkints. run.
    destruct (Nat.leb_spec (nint p) (length (data dark))); [lia | reflexivity]. }
  rewrite Hres, integration_copy_result by lia.
  cbn [fst snd data sbAndRefpix zeroframe header set_NINTS NINTS].
  set (n := length (data dark)) in *.
  set (k := (nint p - n) / n). set (e := (nint p - n) mod n).
  assert (He : e < n) by (apply Nat.mod_upper_bound; lia).
  assert (Hreq : nint p = n + k * n + e).
  { pose proof (Nat.div_mod_eq (nint p - n) n) as H. fold k e in H. lia. }
  assert (Hcyc : forall (A : Type) (x : list A),
             length x = n -> cyclic_extension n (nint p) x (extended_by k e x)).
  { intros A x Hx. rewrite Hreq, <- Hx. apply cyclic_extension_copies. lia. }
  split; [reflexivity | ]. split; [apply Hcyc; reflexivity | ].
  split; [ | split; [ | reflexivity]].
  - destruct (sbAndRefpix dark) as [sb | ] eqn:E; cbn [option_map cyclic_extension_opt]; [ | exact I].
    apply Hcyc. apply Hsb. reflexivity.
  - destruct (zeroframe dark) as [z | ] eqn:E; cbn [option_map cyclic_extension_opt]; [ | exact I].
    apply Hcyc. apply Hz. reflexivity.
Qed.

(** Scenario 2 in small: two integrations extended to five. *)
Lemma darkints_extends_by_cycling_witness :
  cyclic_extension 2 5 (data Sample.two_by_two_dark)
    (data (fst (darkints (Sample.cfg "RAPID" 1 0 2 5) Sample.two_by_two_dark))) /\
  cyclic_extension_opt 2 5 (zeroframe Sample.two_by_two_dark)
    (zeroframe (fst (darkints (Sample.cfg "RAPID" 1 0 2 5) Sample.two_by_two_dark))).
Proof.
  pose proof (darkints_extends_by_cycling (Sample.cfg "RAPID" 1 0 2 5) Sample.two_by_two_dark)
    as H.
  cbn [Sample.two_by_two_dark data length Sample.cfg nint] in H.
  destruct H as (_ & Hd & _ & Hz & _).
  - lia.
  - lia.
  - intros sb E. injection E as <-. reflexivity.
  - intros z E. injection E as <-. reflexivity.
  - split; [exact Hd | exact Hz].
Defined.

(** ** The branches of [reorder_dark] *)

Lemma frame_at_0 {A : Type} (a : list (list (list A))) :
  0 < dim1 a -> frame_at a 0 = Ok (map (fun r => nth 0 r []) a).
Proof.
  intros H. unfold frame_at. destruct (Nat.ltb_spec 0 (dim1 a)); [reflexivity | lia].
Qed.

Lemma set_zeroframe_same (dark : Read_fits) : set_zeroframe (zeroframe dark) dark = dark.
Proof. destruct dark; reflexivity. Qed.

(** [reorder_dark] once the table lookup and the reads of frame 0 are known
    to succeed: the zeroth frame that is kept, the [sbzero] that is
    returned, and the three branches. *)
Lemma reorder_dark_unfold (p : Readout) (tbl : list ReadPattern) (dark : Read_fits) :
  let darkpatt := READPATT (header dark) in
  let zf := if Py.mem darkpatt rapids
            then match zeroframe dark with
                 | None => Some (map (fun r => nth 0 r []) (data dark))
                 | Some z => Some z
                 end
            else zeroframe dark in
  let sbzero := if Py.mem darkpatt rapids
                then option_map (map (fun r => nth 0 r [])) (sbAndRefpix dark)
                else None in
  let hdr := mkHeader (readpatt p) (nframe p) (nskip p) (ngroup p) (nint p)
                      (DETECTOR (header dark)) (INSTRUME (header dark)) in
  Py.mem darkpatt (map name tbl) = true ->
  (Py.mem darkpatt rapids = true -> 0 < dim1 (data dark)) ->
  (Py.mem darkpatt rapids = true -> forall sb, sbAndRefpix dark = Some sb -> 0 < dim1 sb) ->
  reorder_dark p tbl dark =
  if Py.mem darkpatt rapids && negb (Py.mem (readpatt p) rapids) then
    match average p (data dark) (sbAndRefpix dark) (dim2 (data dark)) (dim3 (data dark)) with
    | Ok res =>
        (mkReadFits (outdark_of res)
                    (option_map (fun _ => outsb_of (dim2 (data dark)) (dim3 (data dark)) res)
                                (sbAndRefpix dark))
                    zf hdr, Ok sbzero)
    | Raise e => (set_zeroframe zf dark, Raise e)
    end
  else if String.eqb (readpatt p) darkpatt then
    (mkReadFits (slice_frames 0 (ngroup p) (data dark))
                (option_map (slice_frames 0 (ngroup p)) (sbAndRefpix dark))
                zf hdr, Ok sbzero)
  else (set_zeroframe zf dark, Raise ValueError).
Proof.
  cbv zeta. intros Htbl Hd Hsb. unfold reorder_dark. run.
  destruct (lookup_nskip_outcome tbl (READPATT (header dark))) as [[_ [n Hn]] | [Hm _]];
    [ | congruence].
  rewrite Hn. cbn [fst snd]. unfold save_zeroframe, sbzero_of.
  destruct (Py.mem (READPATT (header dark)) rapids) eqn:Hr; cbn [andb negb].
  - specialize (Hd eq_refl). specialize (Hsb eq_refl).
    destruct dark as [d sb zf h].
    cbn [data sbAndRefpix zeroframe header set_zeroframe] in *.
    destruct zf as [z | ]; cbn [is_none negb]; run;
      rewrite ?(frame_at_0 _ Hd); cbn [fst snd];
      (destruct sb as [s | ]; run;
       [rewrite (frame_at_0 _ (Hsb _ eq_refl)) | ]; cbn [fst snd option_map];
       (destruct (negb (Py.mem (readpatt p) rapids)); run;
        [destruct (average _ _ _ _ _); reflexivity
        | destruct (String.eqb (readpatt p) (READPATT h)); reflexivity])).
  - destruct dark as [d sb zf h].
    cbn [data sbAndRefpix zeroframe header set_zeroframe] in *.
    destruct (is_none zf); run;
      (destruct (String.eqb (readpatt p) (READPATT h));
       [destruct sb; reflexivity | reflexivity]).
Qed.

Lemma slice_frames_0 (n : nat) (a : cube) : slice_frames 0 n a = map (firstn n) a.
Proof.
  unfold slice_frames, Py.islice. apply map_ext. intros r.
  rewrite Nat.sub_0_r. reflexivity.
Qed.

Lemma readpattern_check_ok (p0 p : Readout) (tbl0 tbl : list ReadPattern) :
  readpattern_check (p0, tbl0) = ((p, tbl), Ok tt) ->
  readpatt p = Py.upper (readpatt p0) /\
  ngroup p = ngroup p0 /\
  nint p = nint p0 /\
  tbl = map upper_name tbl0 /\
  Py.mem (readpatt p) (map name tbl) = true.
Proof.
  unfold readpattern_check. run. cbn [set_readpatt readpatt].
  destruct (Py.mem (Py.upper (readpatt p0)) (map name (map upper_name tbl0))) eqn:Hm;
    [ | discriminate].
  destruct (filter _ (map upper_name tbl0)) as [ | r rest]; [discriminate | ].
  intros H. injection H as Hp Ht. subst p tbl. cbn. repeat split; try reflexivity. exact Hm.
Qed.

(** C4, as the code has it.  The request is upper-cased by
    [readpattern_check]; the header's name is compared as stored.  When the
    header's name is the upper-cased request and the cube has a frame 0 to
    read, [reorder_dark] returns, and [data] (and [sbAndRefpix] when
    present) are the input's first [ngroup] frames, [input[:, 0:ngroup]]. *)
Theorem reorder_dark_same_pattern_crops
        (p0 p : Readout) (tbl0 tbl : list ReadPattern) (dark : Read_fits) :
  readpattern_check (p0, tbl0) = ((p, tbl), Ok tt) ->
  READPATT (header dark) = Py.upper (readpatt p0) ->
  0 < dim1 (data dark) ->
  (forall sb, sbAndRefpix dark = Some sb -> 0 < dim1 sb) ->
  (exists sbzero, snd (reorder_dark p tbl dark) = Ok sbzero) /\
  data (fst (reorder_dark p tbl dark)) = map (firstn (ngroup p0)) (data dark) /\
  sbAndRefpix (fst (reorder_dark p tbl dark)) =
    option_map (map (firstn (ngroup p0))) (sbAndRefpix dark).
Proof.
  intros Hchk Hpatt Hd Hsb.
  destruct (readpattern_check_ok _ _ _ _ Hchk) as (Hp & Hg & _ & _ & Hm).
  rewrite <- Hp in Hpatt.
  rewrite reorder_dark_unfold; [ | rewrite Hpatt; exact Hm | intros _; exact Hd | intros _; exact Hsb].
  rewrite Hpatt, andb_negb_r, String.eqb_refl. cbn [fst snd data sbAndRefpix].
  rewrite slice_frames_0, Hg. split; [eexists; reflexivity | ]. split; [reflexivity | ].
  destruct (sbAndRefpix dark); cbn [option_map]; [rewrite slice_frames_0 | ]; reflexivity.
Qed.

(** A DEEP8 dark asked for "deep8" keeps its first two frames. *)
Lemma reorder_dark_same_pattern_crops_witness :
  data (fst (reorder_dark (Sample.cfg "DEEP8" 8 12 2 1) Sample.table
                          (mkReadFits [Sample.ramp [1; 2; 3; 4]%Q] None None (Sample.hdr "DEEP8")))) =
  map (firstn 2) [Sample.ramp [1; 2; 3; 4]%Q].
Proof.
  refine (proj1 (proj2 (reorder_dark_same_pattern_crops
            (Sample.cfg "deep8" 1 0 2 1) (Sample.cfg "DEEP8" 8 12 2 1)
            Sample.table Sample.table
            (mkReadFits [Sample.ramp [1; 2; 3; 4]%Q] None None (Sample.hdr "DEEP8"))
            eq_refl eq_refl _ _))).
  - cbn. lia.
  - discriminate.
Defined.

(** C4, as stated, fails: names that agree up to case do not select the
    crop branch unless the header's name is itself upper case.  A dark
    whose header reads "deep8", asked for "deep8", passes
    [readpattern_check] and is then refused by [reorder_dark], untouched;
    and [reorder_dark] alone, given the request "deep8" for a "DEEP8" dark,
    raises the error of its last branch. *)
Lemma reorder_dark_case_insensitive_counterexample :
  let p0 := Sample.cfg "deep8" 1 0 2 1 in
  let lower := mkReadFits [Sample.ramp [1; 2; 3; 4]%Q] None None (Sample.hdr "deep8") in
  let upper := mkReadFits [Sample.ramp [1; 2; 3; 4]%Q] None None (Sample.hdr "DEEP8") in
  let checked := readpattern_check (p0, Sample.table) in
  (snd checked = Ok tt /\
   Py.upper (READPATT (header lower)) = Py.upper (readpatt p0) /\
   reorder_dark (fst (fst checked)) (snd (fst checked)) lower = (lower, Raise IndexError)) /\
  (Py.upper (READPATT (header upper)) = Py.upper (readpatt p0) /\
   reorder_dark p0 Sample.table upper = (upper, Raise ValueError)).
Proof. vm_compute. repeat split. Qed.

(** C9. For a RAPID-family dark that carries no zero-frame (its pattern
    being in the definition table, and frame 0 existing), [reorder_dark]
    leaves [data[:, 0, :, :]] of the input in [zeroframe], whatever happens
    afterwards; whenever it returns, the value returned is
    [sbAndRefpix[:, 0, :, :]] of the input, or [None] without [sbAndRefpix];
    and it does return when the requested pattern is the dark's own. *)
Theorem reorder_dark_saves_zeroframe
        (p : Readout) (tbl : list ReadPattern) (dark : Read_fits) :
  Py.mem (READPATT (header dark)) rapids = true ->
  zeroframe dark = None ->
  Py.mem (READPATT (header dark)) (map name tbl) = true ->
  0 < dim1 (data dark) ->
  (forall sb, sbAndRefpix dark = Some sb -> 0 < dim1 sb) ->
  zeroframe (fst (reorder_dark p tbl dark)) =
    Some (map (fun r => nth 0 r []) (data dark)) /\
  (forall sbzero, snd (reorder_dark p tbl dark) = Ok sbzero ->
     sbzero = option_map (map (fun r => nth 0 r [])) (sbAndRefpix dark)) /\
  (readpatt p = READPATT (header dark) ->
     snd (reorder_dark p tbl dark) =
       Ok (option_map (map (fun r => nth 0 r [])) (sbAndRefpix dark))).
Proof.
  intros Hr Hz Htbl Hd Hsb.
  rewrite reorder_dark_unfold; [ | exact Htbl | intros _; exact Hd | intros _; exact Hsb].
  rewrite Hr, Hz. cbn [andb].
  destruct (negb (Py.mem (readpatt p) rapids)) eqn:Hreq.
  - destruct (average _ _ _ _ _) as [res | e]; cbn [fst snd zeroframe set_zeroframe].
    + split; [reflexivity | ]. split; [intros s H; congruence | ].
      intros _. reflexivity.
    + split; [reflexivity | ]. split; [intros s H; discriminate | ].
      intros Heq. rewrite Heq, Hr in Hreq. discriminate.
  - destruct (String.eqb_spec (readpatt p) (READPATT (header dark))) as [Heq | Hne];
      cbn [fst snd zeroframe set_zeroframe].
    + split; [reflexivity | ]. split; [intros s H; congruence | ]. intros _. reflexivity.
    + split; [reflexivity | ]. split; [intros s H; discriminate | ]. intros Heq. contradiction.
Qed.

(** A RAPID dark with [sbAndRefpix]: frame 0 of both is kept. *)
Lemma reorder_dark_saves_zeroframe_witness :
  zeroframe (fst (reorder_dark (Sample.cfg "BRIGHT1" 1 1 2 1) Sample.table
                    (mkReadFits [Sample.ramp [1; 2; 3; 4]%Q] (Some [Sample.ramp [5; 6; 7; 8]%Q])
                                None (Sample.hdr "RAPID")))) =
    Some [[[1%Q]]] /\
  snd (reorder_dark (Sample.cfg "RAPID" 1 0 2 1) Sample.table
                    (mkReadFits [Sample.ramp [1; 2; 3; 4]%Q] (Some [Sample.ramp [5; 6; 7; 8]%Q])
                                None (Sample.hdr "RAPID"))) =
    Ok (Some [[[5%Q]]]).
Proof.
  split.
  - refine (proj1 (reorder_dark_saves_zeroframe (Sample.cfg "BRIGHT1" 1 1 2 1) Sample.table
              (mkReadFits [Sample.ramp [1; 2; 3; 4]%Q] (Some [Sample.ramp [5; 6; 7; 8]%Q])
                          None (Sample.hdr "RAPID"))
              eq_refl eq_refl eq_refl _ _)).
    + cbn. lia.
    + intros sb H. injection H as <-. cbn. lia.
  - refine (proj2 (proj2 (reorder_dark_saves_zeroframe (Sample.cfg "RAPID" 1 0 2 1) Sample.table
              (mkReadFits [Sample.ramp [1; 2; 3; 4]%Q] (Some [Sample.ramp [5; 6; 7; 8]%Q])
                          None (Sample.hdr "RAPID"))
              eq_refl eq_refl eq_refl _ _)) eq_refl).
    + cbn. lia.
    + intros sb H. injection H as <-. cbn. lia.
Defined.

(** ** Group averaging *)

Lemma Qplus_0_l_eq (x : Q) : (0 + x)%Q = x.
Proof. destruct x as [n d]. unfold Qplus. cbn. rewrite Z.mul_1_r. reflexivity. Qed.

Lemma zip_with_zeros_row (row : list Q) :
  zip_with Qplus (repeat 0%Q (length row)) row = row.
Proof.
  unfold zip_with. induction row as [ | x row IH]; cbn; [reflexivity | ].
  rewrite Qplus_0_l_eq. f_equal. exact IH.
Qed.

(** Adding an image to zeros of its own shape gives the image back. *)
Lemma frame_op_zeros (Y X : nat) (f : frame) :
  rect2 Y X f -> frame_op Qplus (zeros Y X) f = f.
Proof.
  intros [Hlen Hrows]. subst Y. unfold frame_op, zeros.
  induction Hrows as [ | row f Hrow _ IH]; [reflexivity | ].
  cbn [length repeat]. unfold zip_with at 1. cbn [combine map fst snd].
  fold (zip_with (zip_with Qplus) (repeat (repeat 0%Q X) (length f)) f).
  rewrite IH. subst X. rewrite zip_with_zeros_row. reflexivity.
Qed.

Lemma mean_axis0_rect (Y X : nat) (f0 : frame) (fs : list frame) :
  rect2 Y X f0 -> rect2 Y X (mean_axis0 (f0 :: fs)).
Proof.
  intros [Hlen Hrows]. unfold mean_axis0. cbn [hd]. split.
  - rewrite length_map, length_seq. exact Hlen.
  - apply Forall_forall. intros row Hin. apply in_map_iff in Hin.
    destruct Hin as [y [<- Hy]]. rewrite length_map, length_seq.
    destruct f0 as [ | r0 f0]; [apply in_seq in Hy; cbn in Hy; lia | ].
    cbn [hd]. inversion Hrows; assumption.
Qed.

(** Frames of a rectangular non-empty cube have the shape read off it. *)
Lemma rect4_frame_dims (I F Y X : nat) (a : cube) (f : frame) :
  rect4 I F Y X a -> 0 < I -> 0 < F -> rect2 Y X f -> rect2 (dim2 a) (dim3 a) f.
Proof.
  intros [Hlen Hall] HI HF [Hf Hrows]. unfold dim2, dim3.
  destruct a as [ | r0 a]; [cbn in Hlen; lia | ].
  apply Forall_inv in Hall. destruct Hall as [Hr0 Hfr]. cbn [hd].
  destruct r0 as [ | f0 r0]; [cbn in Hr0; lia | ].
  apply Forall_inv in Hfr. destruct Hfr as [Hf0 Hrows0]. cbn [hd].
  split; [congruence | ].
  destruct f as [ | row f]; [constructor | ].
  destruct f0 as [ | row0 f0]; [cbn in Hf0, Hf; lia | ].
  cbn [hd]. apply Forall_inv in Hrows0. rewrite Hrows0. exact Hrows.
Qed.

Lemma rect4_nth (I F Y X : nat) (a : cube) (integ : nat) :
  rect4 I F Y X a -> integ < I ->
  nth_error a integ = Some (nth integ a []) /\
  length (nth integ a []) = F /\
  Forall (rect2 Y X) (nth integ a []).
Proof.
  intros [Hlen Hall] Hi. subst I.
  assert (Hin : In (nth integ a []) a) by (apply nth_In; exact Hi).
  rewrite Forall_forall in Hall. destruct (Hall _ Hin) as [HF Hfr].
  split; [ | split; assumption]. apply nth_error_nth'. exact Hi.
Qed.

Lemma skipn_nth_error {A : Type} (r : list A) (k : nat) (x : A) :
  nth_error r k = Some x -> skipn k r = x :: skipn (S k) r.
Proof.
  revert k. induction r as [ | y r IH]; intros [ | k] H; cbn in H; try discriminate.
  - injection H as ->. reflexivity.
  - cbn [skipn]. rewrite (IH k H). reflexivity.
Qed.

Lemma map_result_nth_error_seq {A : Type} (r : list A) (start n : nat) :
  start + n <= length r ->
  map_result (fun k => match nth_error r k with
                       | Some f => Ok f
                       | None => Raise IndexError
                       end) (seq start n) =
  Ok (firstn n (skipn start r)).
Proof.
  revert start. induction n as [ | n IH]; intros start H; cbn [seq map_result];
    [reflexivity | ].
  destruct (nth_error r start) as [x | ] eqn:E.
  - cbn [rbind]. rewrite IH by lia. cbn [rbind].
    rewrite (skipn_nth_error r start x E). reflexivity.
  - apply nth_error_None in E. lia.
Qed.

Lemma map_add_seq (s n : nat) : map (fun k => k + s) (seq 0 n) = seq s n.
Proof.
  revert s. induction n as [ | n IH]; intros s; [reflexivity | ].
  cbn [seq map]. f_equal. rewrite <- seq_shift, map_map.
  rewrite <- (IH (S s)). apply map_ext. intros k. lia.
Qed.

Lemma take_frames_ok (I F Y X : nat) (a : cube) (integ start n : nat) :
  rect4 I F Y X a -> integ < I -> start + n <= F ->
  take_frames a integ (map (fun k => k + start) (seq 0 n)) = Ok (frames_from a integ start n).
Proof.
  intros Ha Hi Hn. destruct (rect4_nth _ _ _ _ _ _ Ha Hi) as (Hnth & HF & _).
  unfold take_frames, frames_from. rewrite Hnth, map_add_seq.
  apply map_result_nth_error_seq. lia.
Qed.

Lemma take_frame_ok (I F Y X : nat) (a : cube) (integ k : nat) :
  rect4 I F Y X a -> integ < I -> k < F ->
  take_frame a integ k = Ok (nth k (nth integ a []) []).
Proof.
  intros Ha Hi Hk. destruct (rect4_nth _ _ _ _ _ _ Ha Hi) as (Hnth & HF & _).
  unfold take_frame. rewrite Hnth. cbv beta iota.
  rewrite (nth_error_nth' (nth integ a []) [] (n := k)) by lia. reflexivity.
Qed.

Lemma map_result_ok {A B : Type} (f : A -> result B) (h : A -> B) (l : list A) :
  (forall x, In x l -> f x = Ok (h x)) -> map_result f l = Ok (map h l).
Proof.
  induction l as [ | x l IH]; intros H; cbn [map_result map]; [reflexivity | ].
  rewrite (H x (or_introl eq_refl)). cbn [rbind].
  rewrite IH by (intros y Hy; apply H; right; exact Hy). reflexivity.
Qed.

(** The loop over groups visits [frames + g * framesPerGroup] at group [g]. *)
Lemma group_loop_ok {B : Type} (n fpg : nat) (frames : list nat)
      (body : list nat -> result B) (h : nat -> B) :
  (forall g, g < n -> body (map (fun k => k + g * fpg) frames) = Ok (h g)) ->
  group_loop n fpg frames body = Ok (map h (seq 0 n)).
Proof.
  revert frames h. induction n as [ | n IH]; intros frames h H; [reflexivity | ].
  cbn [group_loop].
  assert (H0 : body frames = Ok (h 0)).
  { rewrite <- (H 0) by lia. f_equal. rewrite <- (map_id frames) at 1.
    apply map_ext. intros k. lia. }
  rewrite H0. cbn [rbind].
  rewrite (IH (map (fun k => k + fpg) frames) (fun g => h (S g))).
  - cbn [rbind seq map]. rewrite <- seq_shift, map_map. reflexivity.
  - intros g Hg. rewrite <- (H (S g)) by lia. f_equal. rewrite map_map.
    apply map_ext. intros k. lia.
Qed.

Lemma nth_map_seq {B : Type} (h : nat -> B) (n i : nat) (d : B) :
  i < n -> nth i (map h (seq 0 n)) d = h i.
Proof.
  intros Hi. rewrite (nth_indep _ d (h 0)) by (rewrite length_map, length_seq; exact Hi).
  rewrite map_nth, seq_nth by exact Hi. reflexivity.
Qed.

(** [mean_axis0] is the arithmetic mean, pixel by pixel. *)
Lemma mean_axis0_pixel (fs : list (list (list Q))) (y x : nat) :
  y < length (hd [] fs) -> x < length (hd [] (hd [] fs)) ->
  nth x (nth y (mean_axis0 fs) []) 0%Q =
  pixel_mean (map (fun f => nth x (nth y f []) 0%Q) fs).
Proof.
  intros Hy Hx. unfold mean_axis0.
  rewrite (nth_map_seq _ _ _ _ Hy), (nth_map_seq _ _ _ _ Hx). reflexivity.
Qed.

Lemma pixel_mean_sum (l : list Q) :
  l <> [] -> (pixel_mean l * inject_Z (Z.of_nat (length l)) == fold_left Qplus l 0)%Q.
Proof.
  intros Hl. unfold pixel_mean. rewrite Qmult_comm. apply Qmult_div_r.
  destruct l as [ | v l]; [congruence | ].
  cbn [length]. unfold Qeq. cbn. lia.
Qed.

Lemma Forall_firstn_skipn {A : Type} (P : A -> Prop) (l : list A) (start n : nat) :
  Forall P l -> Forall P (firstn n (skipn start l)).
Proof.
  intros H.
  assert (Hs : Forall P (skipn start l)).
  { rewrite <- (firstn_skipn start l) in H. apply Forall_app in H. tauto. }
  rewrite <- (firstn_skipn n (skipn start l)) in Hs. apply Forall_app in Hs. tauto.
Qed.

Lemma mean_frames_rect (I F Y X : nat) (a : cube) (integ start n yd xd : nat) :
  rect4 I F Y X a -> integ < I -> start + n <= F -> 0 < n ->
  (forall f, rect2 Y X f -> rect2 yd xd f) ->
  rect2 yd xd (mean_axis0 (frames_from a integ start n)).
Proof.
  intros Ha Hi Hn Hpos Hdims.
  destruct (rect4_nth _ _ _ _ _ _ Ha Hi) as (_ & HF & Hfr).
  unfold frames_from.
  pose proof (Forall_firstn_skipn _ _ start n Hfr) as Hall.
  assert (Hlen : length (firstn n (skipn start (nth integ a []))) = n).
  { rewrite length_firstn, length_skipn. lia. }
  destruct (firstn n (skipn start (nth integ a []))) as [ | f0 fs];
    [cbn in Hlen; lia | ].
  apply mean_axis0_rect. apply Hdims. apply Forall_inv in Hall. exact Hall.
Qed.

Lemma average_step_ok (p : Readout) (I F Y X : nat) (d : cube) (sb : option cube)
      (integ g : nat) :
  rect4 I F Y X d ->
  (forall s, sb = Some s -> rect4 I F Y X s) ->
  0 < I -> 0 < F -> integ < I -> g < ngroup p ->
  ngroup p * (nframe p + nskip p) <= F ->
  1 <= nframe p ->
  average_step p d sb (dim2 d) (dim3 d) integ
               (map (fun k => k + g * (nframe p + nskip p)) (seq 0 (nframe p))) =
  Ok (group_spec p d integ g, option_map (fun s => group_spec p s integ g) sb).
Proof.
  intros Hd Hsb HI HF Hi Hg Hfit Hnf.
  assert (Hstart : g * (nframe p + nskip p) + nframe p <= F) by nia.
  assert (Hdims : forall f, rect2 Y X f -> rect2 (dim2 d) (dim3 d) f)
    by (intros f; apply (rect4_frame_dims I F Y X); assumption).
  unfold average_step, group_spec.
  destruct (Nat.ltb_spec 1 (nframe p)) as [Hmany | Hone].
  - rewrite (take_frames_ok I F Y X) by assumption. cbn [rbind].
    rewrite (frame_op_zeros (dim2 d) (dim3 d))
      by (apply (mean_frames_rect I F Y X); assumption || lia).
    destruct sb as [s | ]; [ | reflexivity].
    specialize (Hsb s eq_refl).
    rewrite (take_frames_ok I F Y X) by assumption. cbn [rbind option_map].
    rewrite (frame_op_zeros (dim2 d) (dim3 d))
      by (apply (mean_frames_rect I F Y X); assumption || lia).
    reflexivity.
  - assert (E1 : nframe p = 1) by lia. rewrite E1 in *. cbn [seq map Nat.add].
    assert (Hframe : forall a, rect4 I F Y X a ->
               rect2 (dim2 d) (dim3 d) (nth (g * (1 + nskip p)) (nth integ a []) [])).
    { intros a Ha. destruct (rect4_nth _ _ _ _ _ _ Ha Hi) as (_ & HFa & Hfr).
      apply Hdims. rewrite Forall_nth in Hfr. apply Hfr. lia. }
    rewrite (take_frame_ok I F Y X) by (assumption || lia). cbn [rbind].
    rewrite (frame_op_zeros (dim2 d) (dim3 d)) by (apply Hframe; exact Hd).
    destruct sb as [s | ]; [ | reflexivity].
    specialize (Hsb s eq_refl).
    rewrite (take_frame_ok I F Y X) by (assumption || lia). cbn [rbind option_map].
    rewrite (frame_op_zeros (dim2 d) (dim3 d)) by (apply Hframe; exact Hsb).
    reflexivity.
Qed.

Lemma average_ok (p : Readout) (I F Y X : nat) (d : cube) (sb : option cube) :
  rect4 I F Y X d ->
  (forall s, sb = Some s -> rect4 I F Y X s) ->
  0 < I -> 0 < F -> nint p <= I ->
  ngroup p * (nframe p + nskip p) <= F ->
  1 <= nframe p ->
  average p d sb (dim2 d) (dim3 d) =
  Ok (map (fun integ =>
             map (fun g => (group_spec p d integ g,
                            option_map (fun s => group_spec p s integ g) sb))
                 (seq 0 (ngroup p)))
          (seq 0 (nint p))).
Proof.
  intros Hd Hsb HI HF Hni Hfit Hnf. unfold average.
  apply map_result_ok. intros integ Hin. apply in_seq in Hin.
  apply group_loop_ok. intros g Hg.
  apply (average_step_ok p I F Y X); assumption || lia.
Qed.

Lemma skipn_nth_cons {A : Type} (s : nat) (l : list A) (d : A) :
  s < length l -> skipn s l = nth s l d :: skipn (S s) l.
Proof.
  revert l. induction s as [ | s IH]; intros [ | x l] H; cbn [length] in H; try lia.
  - reflexivity.
  - cbn [skipn nth]. rewrite (IH l) by lia. reflexivity.
Qed.

(** The frames of a group that fits in the integration start with the
    frame at the group's first index. *)
Lemma frames_from_cons (a : list (list (list (list Q)))) (I F Y X j start n : nat) :
  rect4 I F Y X a -> j < I -> start + n <= F -> 1 <= n ->
  rect2 Y X (nth start (nth j a []) []) /\
  frames_from a j start n =
    nth start (nth j a []) [] :: firstn (n - 1) (skipn (S start) (nth j a [])).
Proof.
  intros Ha Hj Hfit Hn. destruct (rect4_nth I F Y X a j Ha Hj) as [_ [Hlen Hfr]].
  split.
  - rewrite Forall_forall in Hfr. apply Hfr. apply nth_In. lia.
  - unfold frames_from. rewrite (skipn_nth_cons start (nth j a []) []) by lia.
    destruct n as [ | n]; [lia | ]. cbn [firstn]. rewrite Nat.sub_1_r. reflexivity.
Qed.

Lemma group_spec_rect (p : Readout) (a : list (list (list (list Q)))) (I F Y X j g : nat) :
  rect4 I F Y X a -> j < I ->
  g * (nframe p + nskip p) + nframe p <= F -> 1 <= nframe p ->
  rect2 Y X (group_spec p a j g).
Proof.
  intros Ha Hj Hfit Hnf.
  destruct (frames_from_cons a I F Y X j (g * (nframe p + nskip p)) (nframe p)
              Ha Hj Hfit Hnf) as [Hf0 Hfs].
  unfold group_spec. destruct (1 <? nframe p); [ | exact Hf0].
  rewrite Hfs. apply mean_axis0_rect. exact Hf0.
Qed.

(** On the samples, a group is the arithmetic mean of its frames. *)
Lemma group_spec_mean (p : Readout) (a : list (list (list (list Q))))
      (I F Y X j g : nat) :
  rect4 I F Y X a -> j < I ->
  g * (nframe p + nskip p) + nframe p <= F -> 1 <= nframe p ->
  length (frames_from a j (g * (nframe p + nskip p)) (nframe p)) = nframe p /\
  rect2 Y X (group_spec p a j g) /\
  (forall y x, y < Y -> x < X ->
     (pixel (group_spec p a j g) y x * inject_Z (Z.of_nat (nframe p)) ==
      sample_sum (frames_from a j (g * (nframe p + nskip p)) (nframe p)) y x)%Q) /\
  (nframe p = 1 ->
   group_spec p a j g = nth (g * (nframe p + nskip p)) (nth j a []) []).
Proof.
  intros Ha Hj Hfit Hnf.
  destruct (frames_from_cons a I F Y X j (g * (nframe p + nskip p)) (nframe p)
              Ha Hj Hfit Hnf) as [[Hlen Hrows] Hfs].
  destruct (rect4_nth I F Y X a j Ha Hj) as [_ [HF _]].
  assert (Hn : length (frames_from a j (g * (nframe p + nskip p)) (nframe p)) = nframe p).
  { unfold frames_from. rewrite length_firstn, length_skipn. lia. }
  split; [exact Hn | ].
  split; [apply (group_spec_rect p a I F Y X); assumption | ].
  split.
  - intros y x Hy Hx. unfold sample_sum, group_spec.
    destruct (Nat.ltb_spec 1 (nframe p)) as [Hgt | Hle].
    + set (fs := frames_from a j (g * (nframe p + nskip p)) (nframe p)) in *.
      assert (Hne : map (fun f => pixel f y x) fs <> []) by (rewrite Hfs; discriminate).
      pose proof (pixel_mean_sum (map (fun f => pixel f y x) fs) Hne) as Hs.
      rewrite length_map, Hn in Hs.
      unfold pixel at 1. rewrite mean_axis0_pixel.
      * exact Hs.
      * rewrite Hfs. cbn [hd]. lia.
      * rewrite Hfs. cbn [hd].
        destruct (nth (g * (nframe p + nskip p)) (nth j a []) []) as [ | row f];
          [cbn [length] in Hlen; lia | ].
        cbn [hd]. apply Forall_inv in Hrows. lia.
    + assert (H1 : nframe p = 1) by lia.
      rewrite Hfs, H1. cbn [Nat.sub firstn map fold_left Z.of_nat Pos.of_succ_nat].
      change (inject_Z 1) with 1%Q. ring.
  - intros H1. unfold group_spec. rewrite H1. reflexivity.
Qed.




(** The same request, evaluated: groups are the means of frames (0, 1),
    (3, 4) and (6, 7) of each integration, and frame 0 is kept aside. *)
Example reorder_dark_scenario_1 :
  reorder_dark (Sample.cfg "BRIGHT2" 2 1 3 2) Sample.table Sample.rapid_dark =
  (mkReadFits [[[[3 # 2]]; [[24 # 2]]; [[192 # 2]]];
               [[[4 # 2]]; [[108 # 2]]; [[2916 # 2]]]]%Q
              None (Some [[[1%Q]]; [[1%Q]]])
              (mkHeader "BRIGHT2" 2 1 3 2 "NRCA1" "NIRCAM"), Ok None).
Proof. vm_compute. reflexivity. Qed.

(** ** Frame extension *)

(** With a single integration the broadcast is the intended one: the
    3-D operand is applied to every frame. *)
Lemma broadcast43_one (op : Q -> Q -> Q) (x : list frame) (b : frame) :
  broadcast43 op [x] [b] = Ok [map (fun f => frame_op op f b) x].
Proof.
  unfold broadcast43, dim1. cbn [hd length].
  destruct (Nat.eqb_spec (length x) 1) as [E | N]; [ | reflexivity].
  destruct x as [ | f [ | g x]]; cbn in E; try lia. reflexivity.
Qed.

Lemma last_frame_one {A : Type} (r : list (list A)) :
  0 < length r -> last_frame [r] = Ok [last r []].
Proof.
  intros H. unfold last_frame, dim1. cbn [hd map].
  destruct (Nat.ltb_spec 0 (length r)); [reflexivity | lia].
Qed.

Lemma append_offset_one (r extra : list frame) :
  0 < length r ->
  append_offset [r] [extra] = Ok [r ++ add_offset (last r []) extra].
Proof.
  intros H. unfold append_offset. rewrite (last_frame_one r H). cbn [rbind].
  rewrite broadcast43_one. reflexivity.
Qed.

Lemma append_partial_one (r : list frame) (md : nat) :
  0 < length r ->
  append_partial [r] md =
  Ok [r ++ map (fun f => frame_op Qplus (frame_op Qminus f (nth 0 r [])) (last r []))
               (firstn md (skipn 1 r))].
Proof.
  intros H. unfold append_partial. rewrite (frame_at_0 [r]) by exact H. cbn [rbind map].
  unfold slice_frames, Py.islice. cbn [map]. rewrite broadcast43_one. cbn [rbind].
  rewrite (append_offset_one r _ H). unfold add_offset. rewrite map_map.
  replace (md + 1 - 1) with md by lia. reflexivity.
Qed.

Lemma length_full_copies_spec (n : nat) (orig cur : list frame) :
  length (full_copies_spec n orig cur) = length cur + n * length orig.
Proof.
  revert cur. induction n as [ | n IH]; intros cur; cbn [full_copies_spec]; [lia | ].
  rewrite IH. unfold add_offset. rewrite length_app, length_map. lia.
Qed.

(** The specified extension has exactly the frames asked for. *)
Lemma length_extension_spec (need : nat) (orig : list frame) :
  0 < length orig -> length orig <= need ->
  length (extension_spec need orig) = need.
Proof.
  intros Hpos Hle. unfold extension_spec.
  rewrite length_app, length_map, length_firstn, length_skipn, length_full_copies_spec.
  pose proof (Nat.div_mod_eq need (length orig)) as Hdm.
  pose proof (Nat.mod_upper_bound need (length orig)) as Hm.
  assert (Hk : 1 <= need / length orig) by (apply Nat.div_le_lower_bound; lia).
  nia.
Qed.

(** The partial copy, on one integration, of a sequence that starts with
    the original frames. *)
Lemma partial_copy_one (md : nat) (orig cur : list frame) (sb : option (list frame * list frame))
      (zf : option cube3) (h : Header) :
  0 < length orig -> md < length orig ->
  (forall s, sb = Some s -> length (fst s) = length orig) ->
  partial_copy md (mkReadFits [orig ++ cur] (option_map (fun s => [fst s ++ snd s]) sb) zf h) =
  (mkReadFits
     [(orig ++ cur) ++
        map (fun f => frame_op Qplus (frame_op Qminus f (nth 0 orig [])) (last (orig ++ cur) []))
            (firstn md (skipn 1 orig))]
     (option_map (fun s =>
        [(fst s ++ snd s) ++
           map (fun f => frame_op Qplus (frame_op Qminus f (nth 0 (fst s) []))
                                  (last (fst s ++ snd s) []))
               (firstn md (skipn 1 (fst s)))]) sb)
     zf h, Ok tt).
Proof.
  intros Hpos Hmd Hsb.
  assert (Hrule : forall o c : list frame, length o = length orig ->
            append_partial [o ++ c] md =
            Ok [(o ++ c) ++
                  map (fun f => frame_op Qplus (frame_op Qminus f (nth 0 o []))
                                         (last (o ++ c) []))
                      (firstn md (skipn 1 o))]).
  { intros o c Ho. rewrite append_partial_one by (rewrite length_app; lia).
    rewrite app_nth1 by lia.
    destruct o as [ | f o]; [cbn in Ho; lia | ].
    cbn [skipn app]. rewrite firstn_app_short by (cbn in Ho; lia). reflexivity. }
  unfold partial_copy. run. cbn [data sbAndRefpix]. rewrite (Hrule orig cur eq_refl).
  cbn [fst snd]. destruct sb as [[s c] | ]; cbn [option_map sbAndRefpix fst snd]; [ | reflexivity].
  rewrite (Hrule s c (Hsb _ eq_refl)). reflexivity.
Qed.

Lemma full_copy_one (r : list frame) (sb : option (list frame)) (zf : option cube3) (h : Header) :
  0 < length r ->
  (forall s, sb = Some s -> length s = length r) ->
  full_copy (mkReadFits [r] (option_map (fun s => [s]) sb) zf h) =
  (mkReadFits [r ++ add_offset (last r []) r]
              (option_map (fun s => [s ++ add_offset (last s []) s]) sb) zf h, Ok tt).
Proof.
  intros Hpos Hsb. unfold full_copy. run. cbn [data sbAndRefpix].
  rewrite (append_offset_one r r Hpos). cbn [fst snd].
  destruct sb as [s | ]; cbn [option_map sbAndRefpix]; [ | reflexivity].
  rewrite (append_offset_one s s) by (rewrite (Hsb s eq_refl); exact Hpos). reflexivity.
Qed.

(** Where the code and the specified extension agree: a single
    integration that needs fewer than three times its frames.  The frame
    axis then has the length the header records. *)
Lemma data_volume_check_one_integration
      (p : Readout) (r : list frame) (sb : option (list frame)) (zf : option cube3) (h : Header) :
  let need := ngroup p * (nskip p + nframe p) in
  0 < length r -> length r < need -> need < 3 * length r ->
  (forall s, sb = Some s -> length s = length r) ->
  data_volume_check p (mkReadFits [r] (option_map (fun s => [s]) sb) zf h) =
  (mkReadFits [extension_spec need r]
              (option_map (fun s => [extension_spec need s]) sb)
              zf (set_NGROUPS need h), Ok tt).
Proof.
  cbv zeta. intros Hpos Hlt Hlt3 Hsb.
  set (need := ngroup p * (nskip p + nframe p)) in *.
  unfold data_volume_check. fold need. run. cbn [data].
  change (dim1 [r]) with (length r).
  destruct (Nat.ltb_spec (length r) need) as [_ | ]; [ | lia].
  destruct (Nat.eqb_spec (length r) 0) as [ | _]; [lia | ].
  pose proof (Nat.div_mod_eq need (length r)) as Hdm.
  pose proof (Nat.mod_upper_bound need (length r)) as Hm.
  assert (Hk : need / length r = 1 \/ need / length r = 2) by nia.
  assert (Hext : forall s, length s = length r ->
            extension_spec need s =
            match need / length r with
            | 1 => s ++ map (fun f => frame_op Qplus (frame_op Qminus f (nth 0 s [])) (last s []))
                            (firstn (need mod length r) (skipn 1 s))
            | _ => (s ++ add_offset (last s []) s) ++
                   map (fun f => frame_op Qplus (frame_op Qminus f (nth 0 s []))
                                          (last (s ++ add_offset (last s []) s) []))
                       (firstn (need mod length r) (skipn 1 s))
            end).
  { intros s Hs. unfold extension_spec. rewrite Hs.
    destruct Hk as [-> | ->]; reflexivity. }
  destruct Hk as [Hk | Hk]; rewrite Hk in *; cbn [Nat.sub for_range]; run.
  - pose proof (partial_copy_one (need mod length r) r [] (option_map (fun s => (s, [])) sb) zf h)
      as Hp.
    rewrite app_nil_r in Hp.
    replace (option_map (fun s => [fst s ++ snd s]) (option_map (fun s => (s, [])) sb))
      with (option_map (fun s : list frame => [s]) sb) in Hp
      by (destruct sb; cbn; rewrite ?app_nil_r; reflexivity).
    rewrite Hp; [ | lia | lia | ].
    + run. cbn [header]. rewrite (Hext r eq_refl). f_equal. f_equal.
      destruct sb as [s | ]; cbn; [ | reflexivity].
      rewrite (Hext s (Hsb s eq_refl)), app_nil_r. reflexivity.
    + intros s E. destruct sb as [s' | ]; [ | discriminate].
      injection E as <-. cbn. apply Hsb. reflexivity.
  - rewrite (full_copy_one r sb zf h Hpos Hsb).
    pose proof (partial_copy_one (need mod length r) r (add_offset (last r []) r)
                  (option_map (fun s => (s, add_offset (last s []) s)) sb) zf h) as Hp.
    replace (option_map (fun s => [fst s ++ snd s])
                        (option_map (fun s => (s, add_offset (last s []) s)) sb))
      with (option_map (fun s : list frame => [s ++ add_offset (last s []) s]) sb) in Hp
      by (destruct sb; reflexivity).
    rewrite Hp; [ | lia | lia | ].
    + run. cbn [header]. rewrite (Hext r eq_refl). f_equal. f_equal.
      destruct sb as [s | ]; cbn; [ | reflexivity].
      rewrite (Hext s (Hsb s eq_refl)). reflexivity.
    + intros s E. destruct sb as [s' | ]; [ | discriminate].
      injection E as <-. cbn. apply Hsb. reflexivity.
Qed.

(** For such an input the frame axis has the length the header records. *)
Lemma data_volume_check_one_integration_frames
      (p : Readout) (r : list (list (list Q))) (zf : option (list (list (list Q)))) (h : Header) :
  let need := ngroup p * (nskip p + nframe p) in
  let out := fst (data_volume_check p (mkReadFits [r] None zf h)) in
  0 < length r -> length r < need -> need < 3 * length r ->
  dim1 (data out) = need /\ NGROUPS (header out) = need.
Proof.
  cbv zeta. intros Hpos Hlt Hlt3.
  pose proof (data_volume_check_one_integration p r None zf h Hpos Hlt Hlt3) as H.
  cbn [option_map] in H. rewrite H by (intros s E; discriminate).
  cbn [fst data header set_NGROUPS NGROUPS]. unfold dim1. cbn [hd].
  split; [apply length_extension_spec; lia | reflexivity].
Qed.

(** C1 fails on the code.  One integration of one frame, asked for three
    frames ([ngroup = 3], [nframe = 1], [nskip = 0]): [data_volume_check]
    returns with four frames on the frame axis while it writes 3 to NGROUPS.
    Each pass of the loop over full copies duplicates the array as it
    stands, so two passes turn 1 frame into 4.  With several integrations
    the broadcast of the last frame goes wrong as well: two integrations of
    two frames asked for five end with six. *)
Theorem data_volume_check_frames_exceed_header :
  (snd (data_volume_check (Sample.cfg "RAPID" 1 0 3 1) Sample.one_frame_dark) = Ok tt /\
   dim1 (data (fst (data_volume_check (Sample.cfg "RAPID" 1 0 3 1) Sample.one_frame_dark))) = 4 /\
   NGROUPS (header (fst (data_volume_check (Sample.cfg "RAPID" 1 0 3 1)
                                           Sample.one_frame_dark))) = 3) /\
  (snd (data_volume_check (Sample.cfg "RAPID" 1 0 5 1) Sample.two_by_two_dark) = Ok tt /\
   dim1 (data (fst (data_volume_check (Sample.cfg "RAPID" 1 0 5 1) Sample.two_by_two_dark))) = 6 /\
   NGROUPS (header (fst (data_volume_check (Sample.cfg "RAPID" 1 0 5 1)
                                           Sample.two_by_two_dark))) = 5).
Proof. vm_compute. repeat split. Qed.

(** C2 fails on the code.  One integration with frames 1, 2 asked for six
    frames (k = 3, m = 0): the specified extension is 1, 2, 3, 4, 5, 6, two
    appended copies; the code appends three and returns 1, ..., 8.  Two
    integrations of three frames asked for six (k = 2, m = 0): adding the
    last frame, of shape (2, y, x), to the copy, of shape (2, 3, y, x),
    raises, and nothing is appended. *)
Theorem data_volume_check_extension_differs :
  (data_volume_check (Sample.cfg "RAPID" 1 0 6 1) Sample.two_frame_dark =
     (mkReadFits [Sample.ramp [1; 2; 3; 4; 5; 6; 7; 8]%Q] None None
                 (set_NGROUPS 6 (Sample.hdr "RAPID")), Ok tt) /\
   map (extension_spec 6) (data Sample.two_frame_dark) =
     [Sample.ramp [1; 2; 3; 4; 5; 6]%Q]) /\
  (data_volume_check (Sample.cfg "RAPID" 1 0 6 1) Sample.two_by_three_dark =
     (Sample.two_by_three_dark, Raise ValueError) /\
   map (extension_spec 6) (data Sample.two_by_three_dark) =
     [Sample.ramp [1; 2; 4; 5; 6; 8]%Q; Sample.ramp [10; 20; 40; 50; 60; 80]%Q]).
Proof. vm_compute. repeat split. Qed.

(** * Further properties of the reshaping code *)

(** ** [data_volume_check] with enough frames *)

Lemma rect4_dim1 (I F Y X : nat) (a : list (list (list (list Q)))) :
  rect4 I F Y X a -> 0 < I -> dim1 a = F.
Proof.
  intros [Hlen Hall] HI. unfold dim1. destruct a as [ | r a]; [cbn in Hlen; lia | ].
  apply Forall_inv in Hall. cbn [hd]. tauto.
Qed.

Lemma rect4_firstn_frames (I F Y X n : nat) (a : list (list (list (list Q)))) :
  rect4 I F Y X a -> n <= F -> rect4 I n Y X (map (firstn n) a).
Proof.
  intros [Hlen Hall] Hn. split; [rewrite length_map; exact Hlen | ].
  apply Forall_map. eapply Forall_impl; [ | exact Hall].
  intros r [Hr Hfr]. split.
  - rewrite length_firstn. lia.
  - rewrite <- (firstn_skipn n r) in Hfr. apply Forall_app in Hfr. tauto.
Qed.

Lemma map_firstn_all {A : Type} (n : nat) (a : list (list A)) :
  Forall (fun r => length r = n) a -> map (firstn n) a = a.
Proof.
  induction 1 as [ | r a Hr _ IH]; cbn [map]; [reflexivity | ].
  rewrite IH, <- Hr, firstn_all. reflexivity.
Qed.

Lemma rect4_lengths (I F Y X : nat) (a : list (list (list (list Q)))) :
  rect4 I F Y X a -> Forall (fun r => length r = F) a.
Proof. intros [_ Hall]. eapply Forall_impl; [ | exact Hall]. intros r [H _]. exact H. Qed.

(** X1. When the dark has at least the [ngroup * (nskip + nframe)] frames
    that are needed, [data_volume_check] returns, keeps exactly the first
    that many frames of every integration of [data] and [sbAndRefpix],
    writes that number to NGROUPS and touches nothing else; the frame axis
    then has the length the header records. *)
Theorem data_volume_check_enough_frames
        (p : Readout) (dark : Read_fits) (I F Y X : nat) :
  let need := ngroup p * (nskip p + nframe p) in
  rect4 I F Y X (data dark) ->
  (forall sb, sbAndRefpix dark = Some sb -> rect4 I F Y X sb) ->
  0 < I -> need <= F ->
  data_volume_check p dark =
    (mkReadFits (map (firstn need) (data dark))
                (option_map (map (firstn need)) (sbAndRefpix dark))
                (zeroframe dark) (set_NGROUPS need (header dark)), Ok tt) /\
  rect4 I need Y X (data (fst (data_volume_check p dark))) /\
  dim1 (data (fst (data_volume_check p dark))) =
    NGROUPS (header (fst (data_volume_check p dark))).
Proof.
  cbv zeta. intros Hd Hsb HI Hle.
  set (need := ngroup p * (nskip p + nframe p)) in *.
  assert (Heq : data_volume_check p dark =
    (mkReadFits (map (firstn need) (data dark))
                (option_map (map (firstn need)) (sbAndRefpix dark))
                (zeroframe dark) (set_NGROUPS need (header dark)), Ok tt)).
  { unfold data_volume_check. fold need. run. rewrite (rect4_dim1 _ _ _ _ _ Hd HI).
    destruct (Nat.ltb_spec F need) as [ | _]; [lia | ].
    destruct (Nat.ltb_spec need F) as [Hlt | Hge].
    - unfold truncate_frames. run. cbn [data sbAndRefpix zeroframe header set_header set_data
                                         set_sbAndRefpix].
      rewrite slice_frames_0. destruct (sbAndRefpix dark); cbn [option_map];
        rewrite ?slice_frames_0; reflexivity.
    - assert (need = F) as -> by lia. run. unfold set_header.
      rewrite (map_firstn_all F (data dark)) by (apply (rect4_lengths I F Y X); exact Hd).
      destruct (sbAndRefpix dark) as [sb | ] eqn:E; cbn [option_map]; [ | reflexivity].
      rewrite (map_firstn_all F sb)
        by (apply (rect4_lengths I F Y X); apply Hsb; reflexivity).
      reflexivity. }
  rewrite Heq. cbn [fst data header set_NGROUPS NGROUPS].
  pose proof (rect4_firstn_frames I F Y X need (data dark) Hd Hle) as Hr.
  split; [reflexivity | ]. split; [exact Hr | ].
  apply (rect4_dim1 I need Y X); assumption.
Qed.

(** Four frames, two needed: the first two of each integration remain. *)
Lemma data_volume_check_enough_frames_witness :
  data_volume_check (Sample.cfg "RAPID" 1 0 2 3) Cases.three_by_four =
  (mkReadFits (map (firstn 2) (data Cases.three_by_four))
              (option_map (map (firstn 2)) (sbAndRefpix Cases.three_by_four))
              (zeroframe Cases.three_by_four)
              (set_NGROUPS 2 (header Cases.three_by_four)), Ok tt).
Proof.
  refine (proj1 (data_volume_check_enough_frames (Sample.cfg "RAPID" 1 0 2 3)
                   Cases.three_by_four 3 4 1 1 _ _ _ _)).
  - split; [reflexivity | repeat constructor].
  - intros sb E. injection E as <-. split; [reflexivity | repeat constructor].
  - lia.
  - cbn. lia.
Defined.

(** ** [darkints] on any request *)

Lemma cycles_of_firstn {A : Type} (l : list A) (req : nat) :
  req <= length l -> cycles_of (length l) req l (firstn req l).
Proof.
  intros Hle. split.
  - rewrite length_firstn. lia.
  - intros i Hi. rewrite nth_error_firstn.
    destruct (Nat.ltb_spec i req); [ | lia].
    rewrite Nat.mod_small by lia. reflexivity.
Qed.

Lemma cyclic_extension_cycles {A : Type} (n req : nat) (orig ext : list A) :
  0 < n -> cyclic_extension n req orig ext -> cycles_of n req orig ext.
Proof.
  intros Hn (Hlen & Hfirst & Hrest). split; [exact Hlen | ].
  intros i Hi. destruct (Nat.lt_ge_cases i n) as [Hlt | Hge].
  - rewrite Nat.mod_small by exact Hlt. rewrite <- Hfirst.
    rewrite nth_error_firstn. destruct (Nat.ltb_spec i n); [reflexivity | lia].
  - replace i with (n + (i - n)) at 1 by lia. rewrite Hrest by lia.
    replace i with ((i - n) + 1 * n) at 2 by lia.
    rewrite Nat.Div0.mod_add. reflexivity.
Qed.

Lemma islice_0 {A : Type} (n : nat) (l : list A) : Py.islice 0 n l = firstn n l.
Proof. unfold Py.islice. rewrite Nat.sub_0_r. reflexivity. Qed.

(** What [darkints] leaves in the object, in both of its branches. *)
Lemma darkints_result (p : Readout) (dark : Read_fits) :
  let n := length (data dark) in
  0 < n ->
  darkints p dark =
  if nint p <=? n then
    (mkReadFits (firstn (nint p) (data dark))
                (option_map (firstn (nint p)) (sbAndRefpix dark))
                (option_map (firstn (nint p)) (zeroframe dark))
                (header dark), Ok tt)
  else
    (mkReadFits
       (extended_by ((nint p - n) / n) ((nint p - n) mod n) (data dark))
       (option_map (extended_by ((nint p - n) / n) ((nint p - n) mod n)) (sbAndRefpix dark))
       (option_map (extended_by ((nint p - n) / n) ((nint p - n) mod n)) (zeroframe dark))
       (set_NINTS (nint p) (header dark)), Ok tt).
Proof.
  cbv zeta. intros Hn. unfold darkints. run.
  destruct (Nat.leb_spec (nint p) (length (data dark))) as [Hle | Hgt].
  - rewrite islice_0. destruct (sbAndRefpix dark), (zeroframe dark); cbn [option_map];
      rewrite ?islice_0; reflexivity.
  - apply integration_copy_result; lia.
Qed.

Lemma cycles_of_extended {A : Type} (n req : nat) (x : list A) :
  0 < n -> n < req -> length x = n ->
  cycles_of n req x (extended_by ((req - n) / n) ((req - n) mod n) x).
Proof.
  intros Hn Hlt Hx. subst n. apply cyclic_extension_cycles; [exact Hn | ].
  set (k := (req - length x) / length x). set (e := (req - length x) mod length x).
  assert (He : e < length x) by (apply Nat.mod_upper_bound; lia).
  assert (Hreq : req = length x + k * length x + e).
  { pose proof (Nat.div_mod_eq (req - length x) (length x)) as Hdm. fold k e in Hdm. lia. }
  pose proof (cyclic_extension_copies x k e He) as H. rewrite <- Hreq in H. exact H.
Qed.

(** X2. Whatever number of integrations is asked for, [darkints] on a dark
    with [n >= 1] integrations returns with exactly [nint] of them, and
    integration [i] of the result is integration [i mod n] of the input,
    for [data], [sbAndRefpix] and [zeroframe] alike.  The header's NINTS is
    written only when integrations are added: when the dark is cut down
    (or already has [nint] integrations) the header is left as it was. *)
Theorem darkints_exact_count (p : Readout) (dark : Read_fits) :
  let n := length (data dark) in
  0 < n ->
  (forall sb, sbAndRefpix dark = Some sb -> length sb = n) ->
  (forall z, zeroframe dark = Some z -> length z = n) ->
  snd (darkints p dark) = Ok tt /\
  cycles_of n (nint p) (data dark) (data (fst (darkints p dark))) /\
  cycles_of_opt n (nint p) (sbAndRefpix dark) (sbAndRefpix (fst (darkints p dark))) /\
  cycles_of_opt n (nint p) (zeroframe dark) (zeroframe (fst (darkints p dark))) /\
  header (fst (darkints p dark)) =
    if nint p <=? n then header dark else set_NINTS (nint p) (header dark).
Proof.
  cbv zeta. intros Hn Hsb Hz. rewrite (darkints_result p dark Hn).
  set (n := length (data dark)) in *.
  assert (Hcyc : forall (A : Type) (x : list A), length x = n ->
            cycles_of n (nint p) x
              (if nint p <=? n then firstn (nint p) x
               else extended_by ((nint p - n) / n) ((nint p - n) mod n) x)).
  { intros A x Hx. destruct (Nat.leb_spec (nint p) n) as [Hle | Hgt].
    - rewrite <- Hx. apply cycles_of_firstn. lia.
    - apply cycles_of_extended; assumption. }
  pose proof (Hcyc _ (data dark) eq_refl) as Hdata.
  assert (Hs : cycles_of_opt n (nint p) (sbAndRefpix dark)
                 (option_map (fun x => if nint p <=? n then firstn (nint p) x
                     else extended_by ((nint p - n) / n) ((nint p - n) mod n) x)
                    (sbAndRefpix dark))).
  { destruct (sbAndRefpix dark) as [sb | ]; cbn; [ | exact I].
    apply Hcyc. apply Hsb. reflexivity. }
  assert (Hzf : cycles_of_opt n (nint p) (zeroframe dark)
                 (option_map (fun x => if nint p <=? n then firstn (nint p) x
                     else extended_by ((nint p - n) / n) ((nint p - n) mod n) x)
                    (zeroframe dark))).
  { destruct (zeroframe dark) as [z | ]; cbn; [ | exact I].
    apply Hcyc. apply Hz. reflexivity. }
  destruct (nint p <=? n); cbn [fst snd data sbAndRefpix zeroframe header];
    repeat (split; [first [reflexivity | assumption] | ]); reflexivity.
Qed.

(** Three integrations cut down to two: the header keeps its NINTS. *)
Lemma darkints_exact_count_witness :
  cycles_of 3 2 (data Cases.three_by_four)
            (data (fst (darkints (Sample.cfg "RAPID" 1 0 2 2) Cases.three_by_four))) /\
  header (fst (darkints (Sample.cfg "RAPID" 1 0 2 2) Cases.three_by_four)) =
    header Cases.three_by_four.
Proof.
  pose proof (darkints_exact_count (Sample.cfg "RAPID" 1 0 2 2) Cases.three_by_four) as H.
  cbn [Cases.three_by_four data length Sample.cfg nint] in H.
  destruct H as (_ & Hd & _ & _ & Hh).
  - lia.
  - intros sb E. injection E as <-. reflexivity.
  - intros z E. injection E as <-. reflexivity.
  - split; [exact Hd | exact Hh].
Defined.

(** ** [data_volume_check] when frames are missing *)

Lemma length_doubled (n : nat) (r : list (list (list Q))) :
  length (doubled n r) = 2 ^ n * length r.
Proof.
  revert r. induction n as [ | n IH]; intros r; cbn [doubled Nat.pow]; [lia | ].
  rewrite IH. unfold add_offset. rewrite length_app, length_map. lia.
Qed.

Lemma firstn_doubled (n : nat) (r : list (list (list Q))) :
  firstn (length r) (doubled n r) = r.
Proof.
  revert r. induction n as [ | n IH]; intros r; cbn [doubled]; [apply firstn_all | ].
  pose proof (IH (r ++ add_offset (last r []) r)) as H.
  apply (f_equal (firstn (length r))) in H.
  rewrite firstn_firstn, firstn_app_exact in H.
  rewrite length_app in H. replace (Nat.min (length r) (length r + _)) with (length r) in H by lia.
  exact H.
Qed.

Lemma for_range_full_copy_one (n : nat) (r : list (list (list Q)))
      (sb : option (list (list (list Q)))) (zf : option (list (list (list Q)))) (h : Header) :
  0 < length r ->
  (forall s, sb = Some s -> length s = length r) ->
  for_range n full_copy (mkReadFits [r] (option_map (fun s => [s]) sb) zf h) =
  (mkReadFits [doubled n r] (option_map (fun s => [doubled n s]) sb) zf h, Ok tt).
Proof.
  revert r sb. induction n as [ | n IH]; intros r sb Hpos Hsb; cbn [for_range doubled].
  - unfold ret. destruct sb; reflexivity.
  - run. rewrite (full_copy_one r sb zf h Hpos Hsb).
    pose proof (IH (r ++ add_offset (last r []) r)
                   (option_map (fun s => s ++ add_offset (last s []) s) sb)) as H.
    replace (option_map (fun s => [s]) (option_map (fun s => s ++ add_offset (last s []) s) sb))
      with (option_map (fun s : list (list (list Q)) => [s ++ add_offset (last s []) s]) sb) in H
      by (destruct sb; reflexivity).
    rewrite H.
    + destruct sb; reflexivity.
    + rewrite length_app. lia.
    + intros s E. destruct sb as [s' | ]; [ | discriminate]. injection E as <-.
      unfold add_offset. rewrite !length_app, !length_map, (Hsb s' eq_refl). reflexivity.
Qed.

Lemma pow2_exceeds (k : nat) : 3 <= k -> k < 2 ^ (k - 1).
Proof.
  induction 1 as [ | k Hk IH]; [cbn; lia | ].
  replace (S k - 1) with (S (k - 1)) by lia. cbn [Nat.pow]. lia.
Qed.

Lemma length_extension_code (need : nat) (orig : list (list (list Q))) :
  0 < length orig ->
  length (extension_code need orig) =
  length orig * 2 ^ (need / length orig - 1) + need mod length orig.
Proof.
  intros Hpos. unfold extension_code.
  rewrite length_app, length_map, length_firstn, length_skipn, length_doubled.
  pose proof (Nat.mod_upper_bound need (length orig)) as Hm. lia.
Qed.

(** One integration short of frames: what [data_volume_check] leaves. *)
Lemma data_volume_check_one_integration_code
      (p : Readout) (r : list (list (list Q))) (sb : option (list (list (list Q))))
      (zf : option (list (list (list Q)))) (h : Header) :
  0 < length r -> length r < ngroup p * (nskip p + nframe p) ->
  (forall s, sb = Some s -> length s = length r) ->
  data_volume_check p (mkReadFits [r] (option_map (fun s => [s]) sb) zf h) =
    (mkReadFits [extension_code (ngroup p * (nskip p + nframe p)) r]
                (option_map (fun s => [extension_code (ngroup p * (nskip p + nframe p)) s]) sb)
                zf (set_NGROUPS (ngroup p * (nskip p + nframe p)) h), Ok tt).
Proof.
  intros Hpos Hlt Hsb.
  set (need := ngroup p * (nskip p + nframe p)) in *.
  pose proof (Nat.div_mod_eq need (length r)) as Hdm.
  pose proof (Nat.mod_upper_bound need (length r)) as Hm.
  unfold data_volume_check. fold need. run. cbn [data].
  change (dim1 [r]) with (length r).
  destruct (Nat.ltb_spec (length r) need) as [_ | ]; [ | lia].
  destruct (Nat.eqb_spec (length r) 0) as [ | _]; [lia | ].
  rewrite (for_range_full_copy_one _ r sb zf h Hpos Hsb).
  set (n := need / length r - 1).
  assert (Hdec : forall s, length s = length r ->
            doubled n s = s ++ skipn (length s) (doubled n s)).
  { intros s Hs. rewrite <- (firstn_doubled n s) at 2. symmetry. apply firstn_skipn. }
  pose proof (partial_copy_one (need mod length r) r (skipn (length r) (doubled n r))
                (option_map (fun s => (s, skipn (length s) (doubled n s))) sb) zf h) as Hp.
  rewrite <- (Hdec r eq_refl) in Hp.
  replace (option_map (fun s => [fst s ++ snd s])
             (option_map (fun s => (s, skipn (length s) (doubled n s))) sb))
    with (option_map (fun s : list (list (list Q)) => [doubled n s]) sb) in Hp
    by (destruct sb as [s | ]; cbn; [rewrite <- (Hdec s (Hsb s eq_refl)) | ]; reflexivity).
  rewrite Hp; [ | lia | lia | ].
  + run. cbn [header]. unfold extension_code. fold n. f_equal. f_equal.
    destruct sb as [s | ]; cbn; [ | reflexivity].
    rewrite <- (Hdec s (Hsb s eq_refl)), (Hsb s eq_refl). fold n. reflexivity.
  + intros s E. destruct sb as [s' | ]; [ | discriminate].
    injection E as <-. cbn. apply Hsb. reflexivity.
Qed.

(** X3. One integration of [F >= 1] frames that needs more: the loop over
    full copies doubles the sequence at each pass.  [data_volume_check]
    returns, [data] and [sbAndRefpix] become [extension_code], which starts
    with the original frames and has [F * 2 ^ (need / F - 1) + need mod F]
    frames; that is the number written to NGROUPS exactly when fewer than
    [3 * F] frames are needed. *)
Theorem data_volume_check_one_integration_doubles
        (p : Readout) (r : list (list (list Q))) (sb : option (list (list (list Q))))
        (zf : option (list (list (list Q)))) (h : Header) :
  let need := ngroup p * (nskip p + nframe p) in
  0 < length r -> length r < need ->
  (forall s, sb = Some s -> length s = length r) ->
  data_volume_check p (mkReadFits [r] (option_map (fun s => [s]) sb) zf h) =
    (mkReadFits [extension_code need r]
                (option_map (fun s => [extension_code need s]) sb)
                zf (set_NGROUPS need h), Ok tt) /\
  firstn (length r) (extension_code need r) = r /\
  length (extension_code need r) = length r * 2 ^ (need / length r - 1) + need mod length r /\
  (length (extension_code need r) = need <-> need < 3 * length r).
Proof.
  cbv zeta. intros Hpos Hlt Hsb.
  set (need := ngroup p * (nskip p + nframe p)) in *.
  pose proof (Nat.div_mod_eq need (length r)) as Hdm.
  pose proof (Nat.mod_upper_bound need (length r)) as Hm.
  assert (Hk : 1 <= need / length r) by (apply Nat.div_le_lower_bound; lia).
  split; [ | split; [ | split]].
  - apply data_volume_check_one_integration_code; assumption.
  - unfold extension_code.
    assert (Hp2 : 0 < 2 ^ (need / length r - 1))
      by (apply Nat.neq_0_lt_0, Nat.pow_nonzero; lia).
    rewrite firstn_app_short by (rewrite length_doubled; nia).
    apply firstn_doubled.
  - apply length_extension_code. exact Hpos.
  - rewrite (length_extension_code need r Hpos).
    assert (Hm' : need mod length r < length r) by (apply Hm; lia).
    split.
    + intros H. destruct (Nat.lt_ge_cases (need / length r) 3) as [H3 | H3].
      * assert (Hc : need / length r = 1 \/ need / length r = 2) by lia.
        destruct Hc as [Hc | Hc]; rewrite Hc in Hdm; lia.
      * pose proof (pow2_exceeds _ H3) as Hpow.
        assert (length r * (need / length r) < length r * 2 ^ (need / length r - 1))
          by (apply Nat.mul_lt_mono_pos_l; assumption).
        lia.
    + intros H.
      assert (Hc : need / length r = 1 \/ need / length r = 2).
      { destruct (Nat.lt_ge_cases (need / length r) 3) as [H3 | H3]; [lia | ].
        assert (length r * 3 <= length r * (need / length r))
          by (apply Nat.mul_le_mono_l; exact H3).
        lia. }
      destruct Hc as [Hc | Hc]; rewrite Hc in *; cbn [Nat.sub Nat.pow]; lia.
Qed.

(** Two frames, seven needed: 2 * 2 ^ 2 + 1 = 9 frames come back. *)
Lemma data_volume_check_one_integration_doubles_witness :
  length (extension_code 7 (Sample.ramp [1; 2]%Q)) = 2 * 2 ^ (7 / 2 - 1) + 7 mod 2.
Proof.
  refine (proj1 (proj2 (proj2 (data_volume_check_one_integration_doubles
            (Sample.cfg "RAPID" 1 0 7 1) (Sample.ramp [1; 2]%Q) None None
            (Sample.hdr "RAPID") _ _ _)))).
  - cbn. lia.
  - cbn. lia.
  - discriminate.
Defined.

Lemma dim1_map {A B : Type} (f : list A -> list B) (a : list (list A)) :
  a <> [] -> dim1 (map f a) = length (f (hd [] a)).
Proof. destruct a; [congruence | reflexivity]. Qed.

(** X4. Several integrations: the last frame, of shape (I, y, x), is added
    to an array of shape (I, F, y, x), which numpy aligns on the wrong
    axis.  With [I >= 2] integrations of [F] frames, [F] neither 1 nor [I],
    [data_volume_check] raises ValueError and leaves the object as it was
    (NGROUPS is not written) as soon as a full copy is needed, and also
    when only a partial block of neither 1 nor [I] frames is. *)
Theorem data_volume_check_broadcast_error
        (p : Readout) (dark : Read_fits) (I F : nat) :
  let need := ngroup p * (nskip p + nframe p) in
  length (data dark) = I -> dim1 (data dark) = F ->
  2 <= I -> 0 < F -> F <> 1 -> F <> I -> F < need ->
  (2 * F <= need \/ (need mod F <> 1 /\ need mod F <> I)) ->
  data_volume_check p dark = (dark, Raise ValueError).
Proof.
  cbv zeta. intros HI HF H2 Hpos H1 HFI Hlt Hcase.
  set (need := ngroup p * (nskip p + nframe p)) in *.
  assert (Hne : data dark <> []) by (intros E; rewrite E in HI; cbn in HI; lia).
  unfold data_volume_check. fold need. run. rewrite HF.
  destruct (Nat.ltb_spec F need) as [_ | ]; [ | lia].
  destruct (Nat.eqb_spec F 0) as [ | _]; [lia | ].
  pose proof (Nat.div_mod_eq need F) as Hdm.
  pose proof (Nat.mod_upper_bound need F) as Hm.
  destruct (Nat.le_gt_cases (2 * F) need) as [H2F | H2F].
  - assert (Hk : 2 <= need / F) by (apply Nat.div_le_lower_bound; lia).
    destruct (need / F - 1) as [ | n] eqn:En; [lia | ].
    cbn [for_range]. run. unfold full_copy at 1. run.
    unfold append_offset, last_frame. rewrite HF.
    destruct (Nat.ltb_spec 0 F) as [_ | ]; [ | lia]. cbn [rbind].
    unfold broadcast43. rewrite HF, length_map, HI.
    destruct (Nat.eqb_spec F I) as [ | _]; [lia | ].
    destruct (Nat.eqb_spec I 1) as [ | _]; [lia | ].
    destruct (Nat.eqb_spec F 1) as [ | _]; [lia | ].
    reflexivity.
  - destruct Hcase as [ | [Hm1 HmI]]; [lia | ].
    assert (Hk : need / F = 1) by nia. rewrite Hk. cbn [Nat.sub for_range]. run.
    unfold partial_copy. run. unfold append_partial, frame_at. rewrite HF.
    destruct (Nat.ltb_spec 0 F) as [_ | ]; [ | lia]. cbn [rbind].
    unfold broadcast43, slice_frames. rewrite (dim1_map _ _ Hne), length_map, HI.
    unfold Py.islice. rewrite length_firstn, length_skipn. fold (dim1 (data dark)).
    rewrite HF. replace (Nat.min (need mod F + 1 - 1) (F - 1)) with (need mod F) by lia.
    destruct (Nat.eqb_spec (need mod F) I) as [ | _]; [lia | ].
    destruct (Nat.eqb_spec I 1) as [ | _]; [lia | ].
    destruct (Nat.eqb_spec (need mod F) 1) as [ | _]; [lia | ].
    reflexivity.
Qed.

(** Two integrations of three frames asked for six frames. *)
Lemma data_volume_check_broadcast_error_witness :
  data_volume_check (Sample.cfg "RAPID" 1 0 6 1) Sample.two_by_three_dark =
  (Sample.two_by_three_dark, Raise ValueError).
Proof.
  refine (data_volume_check_broadcast_error (Sample.cfg "RAPID" 1 0 6 1)
            Sample.two_by_three_dark 2 3 eq_refl eq_refl _ _ _ _ _ _).
  - lia.
  - lia.
  - lia.
  - lia.
  - cbn. lia.
  - left. cbn. lia.
Defined.

(** ** [reorder_dark] on any input *)

Lemma map_result_length {A B : Type} (f : A -> result B) (l : list A) (ys : list B) :
  map_result f l = Ok ys -> length ys = length l.
Proof.
  revert ys. induction l as [ | x l IH]; intros ys H; cbn [map_result] in H.
  - injection H as <-. reflexivity.
  - destruct (f x) as [y | e]; cbn [rbind] in H; [ | discriminate].
    destruct (map_result f l) as [zs | e]; cbn [rbind] in H; [ | discriminate].
    injection H as <-. cbn [length]. rewrite (IH zs eq_refl). reflexivity.
Qed.

Lemma map_result_Forall {A B : Type} (f : A -> result B) (P : B -> Prop)
      (l : list A) (ys : list B) :
  (forall x y, f x = Ok y -> P y) -> map_result f l = Ok ys -> Forall P ys.
Proof.
  intros HP. revert ys. induction l as [ | x l IH]; intros ys H; cbn [map_result] in H.
  - injection H as <-. constructor.
  - destruct (f x) as [y | e] eqn:E; cbn [rbind] in H; [ | discriminate].
    destruct (map_result f l) as [zs | e]; cbn [rbind] in H; [ | discriminate].
    injection H as <-. constructor; [apply (HP x); exact E | apply IH; reflexivity].
Qed.

Lemma group_loop_length {B : Type} (n fpg : nat) (frames : list nat)
      (body : list nat -> result B) (ys : list B) :
  group_loop n fpg frames body = Ok ys -> length ys = n.
Proof.
  revert frames ys. induction n as [ | n IH]; intros frames ys H; cbn [group_loop] in H.
  - injection H as <-. reflexivity.
  - destruct (body frames) as [y | e]; cbn [rbind] in H; [ | discriminate].
    destruct (group_loop n fpg _ body) as [zs | e] eqn:E; cbn [rbind] in H; [ | discriminate].
    injection H as <-. cbn [length]. rewrite (IH _ zs E). reflexivity.
Qed.

(** Whenever the averaging loops complete, the result has [nint] rows of
    [ngroup] images. *)
Lemma average_shape (p : Readout) (d : list (list (list (list Q))))
      (sb : option (list (list (list (list Q))))) (yd xd : nat)
      (res : list (list (list (list Q) * option (list (list Q))))) :
  average p d sb yd xd = Ok res ->
  length res = nint p /\ Forall (fun row => length row = ngroup p) res.
Proof.
  unfold average. intros H. split.
  - rewrite (map_result_length _ _ _ H), length_seq. reflexivity.
  - eapply map_result_Forall; [ | exact H].
    intros integ row Hrow. cbv beta in Hrow. apply (group_loop_length _ _ _ _ _ Hrow).
Qed.

Ltac reorder_error_case :=
  cbn [fst snd data sbAndRefpix zeroframe header]; try discriminate;
  intros _; repeat split;
  first [left; reflexivity | right; repeat split; reflexivity].

(** X5. However [reorder_dark] fails - unknown pattern, no frame 0 to read,
    a frame index out of range, a pattern it cannot convert - [data],
    [sbAndRefpix] and the header are those of the input.  The only thing
    that may have changed is [zeroframe], set to [data[:, 0, :, :]] for a
    RAPID-family dark that had none. *)
Theorem reorder_dark_error_keeps_arrays
        (p : Readout) (tbl : list ReadPattern) (dark : Read_fits) (e : exn) :
  snd (reorder_dark p tbl dark) = Raise e ->
  data (fst (reorder_dark p tbl dark)) = data dark /\
  sbAndRefpix (fst (reorder_dark p tbl dark)) = sbAndRefpix dark /\
  header (fst (reorder_dark p tbl dark)) = header dark /\
  (zeroframe (fst (reorder_dark p tbl dark)) = zeroframe dark \/
   (zeroframe dark = None /\ Py.mem (READPATT (header dark)) rapids = true /\
    zeroframe (fst (reorder_dark p tbl dark)) =
      Some (map (fun r => nth 0 r []) (data dark)))).
Proof.
  destruct dark as [d sb zf h]. unfold reorder_dark. run.
  cbn [data sbAndRefpix zeroframe header].
  destruct (lookup_nskip tbl (READPATT h)) as [n | e0]; cbn [fst snd];
    [ | intros _; repeat split; left; reflexivity].
  unfold save_zeroframe, sbzero_of, frame_at.
  cbn [data sbAndRefpix zeroframe header].
  destruct (Py.mem (READPATT h) rapids) eqn:Hr; cbn [andb negb].
  - destruct zf as [z | ]; cbn [is_none negb]; run.
    + destruct sb as [s | ]; run;
        [destruct (0 <? dim1 s); cbn [fst snd]; [ | reorder_error_case] | ];
        (destruct (negb (Py.mem (readpatt p) rapids)); run;
         [destruct (average _ _ _ _ _); reorder_error_case
         | destruct (String.eqb (readpatt p) (READPATT h)); reorder_error_case]).
    + destruct (0 <? dim1 d); cbn [fst snd]; [ | reorder_error_case].
      cbn [set_zeroframe data sbAndRefpix zeroframe header].
      destruct sb as [s | ]; run;
        [destruct (0 <? dim1 s); cbn [fst snd]; [ | reorder_error_case] | ];
        (destruct (negb (Py.mem (readpatt p) rapids)); run;
         [destruct (average _ _ _ _ _); reorder_error_case
         | destruct (String.eqb (readpatt p) (READPATT h)); reorder_error_case]).
  - destruct zf as [z | ]; cbn [is_none negb]; run;
      (destruct (String.eqb (readpatt p) (READPATT h)); reorder_error_case).
Qed.

(** A RAPID dark asked for NISRAPID is refused after its zero-frame was
    stored. *)
Lemma reorder_dark_error_keeps_arrays_witness :
  data (fst (reorder_dark (Sample.cfg "NISRAPID" 1 0 2 2) Sample.table Sample.rapid_dark)) =
    data Sample.rapid_dark /\
  header (fst (reorder_dark (Sample.cfg "NISRAPID" 1 0 2 2) Sample.table Sample.rapid_dark)) =
    header Sample.rapid_dark.
Proof.
  pose proof (reorder_dark_error_keeps_arrays (Sample.cfg "NISRAPID" 1 0 2 2) Sample.table
                Sample.rapid_dark ValueError eq_refl) as (Hd & _ & Hh & _).
  split; [exact Hd | exact Hh].
Defined.

Ltac reorder_cases :=
  repeat (run; cbn [fst snd data sbAndRefpix zeroframe header set_zeroframe option_map];
          match goal with
          | |- context [if (0 <? dim1 ?a) then _ else _] => destruct (0 <? dim1 a)
          | |- context [match ?o with Some _ => _ | None => _ end] => is_var o; destruct o
          | |- context [negb (Py.mem ?s rapids)] => destruct (negb (Py.mem s rapids))
          | |- context [average ?p ?d ?sb ?y ?x] => destruct (average p d sb y x)
          | |- context [String.eqb ?a ?b] => destruct (String.eqb a b)
          end);
  run; cbn [fst snd data sbAndRefpix zeroframe header set_zeroframe option_map].

(** X6. [reorder_dark] never replaces a zero-frame that was supplied, and
    for a dark that is not RAPID-family it never creates one and returns no
    [sbzero] - whether it returns or raises. *)
Theorem reorder_dark_zeroframe_kept
        (p : Readout) (tbl : list ReadPattern) (dark : Read_fits) :
  (forall z, zeroframe dark = Some z ->
     zeroframe (fst (reorder_dark p tbl dark)) = Some z) /\
  (Py.mem (READPATT (header dark)) rapids = false ->
     zeroframe (fst (reorder_dark p tbl dark)) = zeroframe dark /\
     forall sbzero, snd (reorder_dark p tbl dark) = Ok sbzero -> sbzero = None).
Proof.
  destruct dark as [d sb zf h]. unfold reorder_dark. run.
  cbn [data sbAndRefpix zeroframe header].
  destruct (lookup_nskip tbl (READPATT h)) as [n | e0]; cbn [fst snd zeroframe].
  2: { split; [intros z H; exact H | ]. intros _. split; [reflexivity | ].
       intros s H; discriminate. }
  unfold save_zeroframe, sbzero_of, frame_at.
  cbn [data sbAndRefpix zeroframe header].
  destruct (Py.mem (READPATT h) rapids) eqn:Hr; cbn [andb negb].
  - split; [ | intros H; discriminate].
    intros z Hz. subst zf. cbn [is_none negb]. run.
    reorder_cases; reflexivity.
  - split.
    + intros z Hz. subst zf. cbn [is_none negb]. run.
      reorder_cases; reflexivity.
    + intros _. destruct zf as [z | ]; cbn [is_none negb]; run;
        reorder_cases; (split; [reflexivity | intros s H; congruence]).
Qed.

Lemma outdark_shape (p : Readout) (res : list (list (list (list Q) * option (list (list Q))))) :
  length res = nint p /\ Forall (fun row => length row = ngroup p) res ->
  length (outdark_of res) = nint p /\
  Forall (fun r => length r = ngroup p) (outdark_of res).
Proof.
  intros [Hlen Hall]. unfold outdark_of. split; [rewrite length_map; exact Hlen | ].
  apply Forall_map. eapply Forall_impl; [ | exact Hall].
  intros row Hrow. cbv beta. rewrite length_map. exact Hrow.
Qed.

(** X7. Every normal return of [reorder_dark] leaves the header at the
    requested READPATT, NFRAMES, NSKIP, NGROUPS and NINTS, with DETECTOR and
    INSTRUME kept, and [sbAndRefpix] present exactly when it was.  When the
    averaging branch ran, [data] has exactly [nint] integrations of [ngroup]
    groups; otherwise the requested name is the dark's own and [data] is
    the input cut to its first [ngroup] frames, with the input's
    integrations, whatever NINTS now says. *)
Theorem reorder_dark_return_shape
        (p : Readout) (tbl : list ReadPattern) (dark : Read_fits)
        (sbzero : option (list (list (list Q)))) :
  snd (reorder_dark p tbl dark) = Ok sbzero ->
  header (fst (reorder_dark p tbl dark)) =
    mkHeader (readpatt p) (nframe p) (nskip p) (ngroup p) (nint p)
             (DETECTOR (header dark)) (INSTRUME (header dark)) /\
  (sbAndRefpix (fst (reorder_dark p tbl dark)) = None <-> sbAndRefpix dark = None) /\
  (if Py.mem (READPATT (header dark)) rapids && negb (Py.mem (readpatt p) rapids)
   then length (data (fst (reorder_dark p tbl dark))) = nint p /\
        Forall (fun r => length r = ngroup p) (data (fst (reorder_dark p tbl dark)))
   else readpatt p = READPATT (header dark) /\
        data (fst (reorder_dark p tbl dark)) = map (firstn (ngroup p)) (data dark)).
Proof.
  destruct dark as [d sb zf h]. unfold reorder_dark. run.
  cbn [data sbAndRefpix zeroframe header].
  destruct (lookup_nskip tbl (READPATT h)) as [n | e0]; cbn [fst snd]; [ | discriminate].
  unfold save_zeroframe, sbzero_of, frame_at.
  cbn [data sbAndRefpix zeroframe header].
  assert (HA : forall (sb0 : option (list (list (list (list Q))))) zf0 s0,
    snd (let (s', r) :=
           (res <- lift (average p d sb0 (dim2 d) (dim3 d)) ;;
            ret (outdark_of res, option_map (fun _ => outsb_of (dim2 d) (dim3 d) res) sb0))
             (mkReadFits d sb0 zf0 h) in
         match r with
         | Ok out =>
             (mkReadFits (fst out)
                         (match sbAndRefpix s' with Some _ => snd out | None => None end)
                         (zeroframe s')
                         (mkHeader (readpatt p) (nframe p) (nskip p) (ngroup p) (nint p)
                                   (DETECTOR (header s')) (INSTRUME (header s'))), Ok s0)
         | Raise e => (s', Raise e)
         end) = Ok sbzero ->
    let st := fst (let (s', r) :=
           (res <- lift (average p d sb0 (dim2 d) (dim3 d)) ;;
            ret (outdark_of res, option_map (fun _ => outsb_of (dim2 d) (dim3 d) res) sb0))
             (mkReadFits d sb0 zf0 h) in
         match r with
         | Ok out =>
             (mkReadFits (fst out)
                         (match sbAndRefpix s' with Some _ => snd out | None => None end)
                         (zeroframe s')
                         (mkHeader (readpatt p) (nframe p) (nskip p) (ngroup p) (nint p)
                                   (DETECTOR (header s')) (INSTRUME (header s'))), Ok s0)
         | Raise e => (s', Raise e)
         end) in
    header st = mkHeader (readpatt p) (nframe p) (nskip p) (ngroup p) (nint p)
                         (DETECTOR h) (INSTRUME h) /\
    (sbAndRefpix st = None <-> sb0 = None) /\
    length (data st) = nint p /\ Forall (fun r => length r = ngroup p) (data st)).
  { intros sb0 zf0 s0. run.
    destruct (average p d sb0 (dim2 d) (dim3 d)) as [res | e1] eqn:Hav;
      cbn [fst snd data sbAndRefpix zeroframe header]; [ | discriminate].
    intros _. split; [reflexivity | ].
    split; [destruct sb0; cbn; split; intros; congruence | ].
    apply outdark_shape. apply (average_shape _ _ _ _ _ _ Hav). }
  assert (HB : forall (sb0 : option (list (list (list (list Q))))) zf0 s0,
    snd (let (s', r) :=
           (if String.eqb (readpatt p) (READPATT h)
            then ret (slice_frames 0 (ngroup p) d,
                      option_map (slice_frames 0 (ngroup p)) sb0)
            else raise ValueError) (mkReadFits d sb0 zf0 h) in
         match r with
         | Ok out =>
             (mkReadFits (fst out)
                         (match sbAndRefpix s' with Some _ => snd out | None => None end)
                         (zeroframe s')
                         (mkHeader (readpatt p) (nframe p) (nskip p) (ngroup p) (nint p)
                                   (DETECTOR (header s')) (INSTRUME (header s'))), Ok s0)
         | Raise e => (s', Raise e)
         end) = Ok sbzero ->
    let st := fst (let (s', r) :=
           (if String.eqb (readpatt p) (READPATT h)
            then ret (slice_frames 0 (ngroup p) d,
                      option_map (slice_frames 0 (ngroup p)) sb0)
            else raise ValueError) (mkReadFits d sb0 zf0 h) in
         match r with
         | Ok out =>
             (mkReadFits (fst out)
                         (match sbAndRefpix s' with Some _ => snd out | None => None end)
                         (zeroframe s')
                         (mkHeader (readpatt p) (nframe p) (nskip p) (ngroup p) (nint p)
                                   (DETECTOR (header s')) (INSTRUME (header s'))), Ok s0)
         | Raise e => (s', Raise e)
         end) in
    header st = mkHeader (readpatt p) (nframe p) (nskip p) (ngroup p) (nint p)
                         (DETECTOR h) (INSTRUME h) /\
    (sbAndRefpix st = None <-> sb0 = None) /\
    readpatt p = READPATT h /\ data st = map (firstn (ngroup p)) d).
  { intros sb0 zf0 s0. run.
    destruct (String.eqb_spec (readpatt p) (READPATT h)) as [Heq | Hne];
      cbn [fst snd data sbAndRefpix zeroframe header]; [ | discriminate].
    intros _. split; [reflexivity | ].
    split; [destruct sb0; cbn; split; intros; congruence | ].
    split; [exact Heq | apply slice_frames_0]. }
  destruct (Py.mem (READPATT h) rapids) eqn:Hr; cbn [andb negb].
  - destruct zf as [z | ]; cbn [is_none negb]; run;
      [ | destruct (0 <? dim1 d); cbn [fst snd]; [ | discriminate];
          cbn [set_zeroframe data sbAndRefpix zeroframe header] ];
      (destruct sb as [s | ]; run;
       [destruct (0 <? dim1 s); cbn [fst snd]; [ | discriminate] | ];
       (destruct (negb (Py.mem (readpatt p) rapids)); [apply HA | apply HB])).
  - destruct zf as [z | ]; cbn [is_none negb]; run; apply HB.
Qed.

(** Scenario 1 again: the header carries the request. *)
Lemma reorder_dark_return_shape_witness :
  header (fst (reorder_dark (Sample.cfg "BRIGHT2" 2 1 3 2) Sample.table Sample.rapid_dark)) =
  mkHeader "BRIGHT2" 2 1 3 2 "NRCA1" "NIRCAM".
Proof.
  exact (proj1 (reorder_dark_return_shape (Sample.cfg "BRIGHT2" 2 1 3 2) Sample.table
                  Sample.rapid_dark None eq_refl)).
Defined.

(** X8. One RAPID-family pattern cannot be turned into another: a dark
    whose pattern is RAPID, NISRAPID or FGSRAPID, asked for a different
    name of that family, is refused with ValueError - after the zeroth
    frame was stored, so the object is no longer the one that came in when
    it carried no zero-frame. *)
Theorem reorder_dark_rejects_other_rapid
        (p : Readout) (tbl : list ReadPattern) (dark : Read_fits) :
  Py.mem (READPATT (header dark)) rapids = true ->
  Py.mem (readpatt p) rapids = true ->
  readpatt p <> READPATT (header dark) ->
  Py.mem (READPATT (header dark)) (map name tbl) = true ->
  0 < dim1 (data dark) ->
  (forall sb, sbAndRefpix dark = Some sb -> 0 < dim1 sb) ->
  reorder_dark p tbl dark =
  (set_zeroframe (match zeroframe dark with
                  | None => Some (map (fun r => nth 0 r []) (data dark))
                  | Some z => Some z
                  end) dark, Raise ValueError).
Proof.
  intros Hr Hreq Hne Htbl Hd Hsb.
  rewrite reorder_dark_unfold; [ | exact Htbl | intros _; exact Hd | intros _; exact Hsb].
  rewrite Hr, Hreq. cbn [andb negb].
  apply String.eqb_neq in Hne. rewrite Hne. reflexivity.
Qed.

Lemma reorder_dark_rejects_other_rapid_witness :
  reorder_dark (Sample.cfg "NISRAPID" 1 0 2 2) Sample.table Sample.rapid_dark =
  (set_zeroframe (Some [[[1%Q]]; [[1%Q]]]) Sample.rapid_dark, Raise ValueError).
Proof.
  refine (reorder_dark_rejects_other_rapid (Sample.cfg "NISRAPID" 1 0 2 2) Sample.table
            Sample.rapid_dark eq_refl eq_refl _ eq_refl _ _).
  - discriminate.
  - cbn. lia.
  - discriminate.
Defined.

(** ** Averaging without averaging *)

(** [reorder_dark] in its averaging branch, as an equation. *)
Lemma reorder_dark_average_result
      (p : Readout) (tbl : list ReadPattern) (dark : Read_fits) (I F Y X : nat) :
  Py.mem (READPATT (header dark)) rapids = true ->
  Py.mem (readpatt p) rapids = false ->
  Py.mem (READPATT (header dark)) (map name tbl) = true ->
  rect4 I F Y X (data dark) ->
  (forall sb, sbAndRefpix dark = Some sb -> rect4 I F Y X sb) ->
  0 < I -> 0 < F ->
  ngroup p * (nframe p + nskip p) <= F ->
  nint p <= I ->
  1 <= nframe p ->
  reorder_dark p tbl dark =
  (mkReadFits
     (map (fun integ => map (fun g => group_spec p (data dark) integ g) (seq 0 (ngroup p)))
          (seq 0 (nint p)))
     (option_map (fun s =>
        map (fun integ => map (fun g => group_spec p s integ g) (seq 0 (ngroup p)))
            (seq 0 (nint p))) (sbAndRefpix dark))
     (match zeroframe dark with
      | None => Some (map (fun r => nth 0 r []) (data dark))
      | Some z => Some z
      end)
     (mkHeader (readpatt p) (nframe p) (nskip p) (ngroup p) (nint p)
               (DETECTOR (header dark)) (INSTRUME (header dark))),
   Ok (option_map (map (fun r => nth 0 r [])) (sbAndRefpix dark))).
Proof.
  intros Hr Hreq Htbl Hd Hsb HI HF Hfit Hni Hnf.
  rewrite reorder_dark_unfold;
    [ | exact Htbl | intros _; rewrite (rect4_dim1 I F Y X); assumption
      | intros _ sb Hs; rewrite (rect4_dim1 I F Y X); [assumption | apply Hsb; exact Hs | assumption]].
  rewrite Hr, Hreq. cbn [andb negb].
  rewrite (average_ok p I F Y X) by assumption.
  unfold outdark_of, outsb_of. rewrite !map_map. f_equal. f_equal.
  - apply map_ext. intros integ. rewrite map_map. reflexivity.
  - destruct (sbAndRefpix dark) as [s | ]; cbn [option_map]; [ | reflexivity].
    f_equal. apply map_ext. intros integ. rewrite map_map. reflexivity.
Qed.




(** ** Cropping to a subarray *)

(** A slice with bounds that are not negative. *)
Lemma slice_nonneg {A : Type} (lo hi : nat) (l : list A) :
  Py.slice (Z.of_nat lo) (Z.of_nat hi) l = firstn (hi - lo) (skipn lo l).
Proof.
  unfold Py.slice, Py.bound.
  destruct (Z.ltb_spec (Z.of_nat lo) 0) as [ | _]; [lia | ].
  destruct (Z.ltb_spec (Z.of_nat hi) 0) as [ | _]; [lia | ].
  replace (Z.to_nat (Z.min (Z.max (Z.of_nat lo) 0) (Z.of_nat (length l))))
    with (Nat.min lo (length l)) by lia.
  replace (Z.to_nat (Z.min (Z.max (Z.of_nat hi) 0) (Z.of_nat (length l))))
    with (Nat.min hi (length l)) by lia.
  destruct (Nat.le_gt_cases (length l) lo) as [Hlo | Hlo].
  - rewrite (Nat.min_r lo (length l) Hlo). rewrite skipn_all, (skipn_all2 l Hlo), !firstn_nil.
    reflexivity.
  - rewrite (Nat.min_l lo) by lia.
    destruct (Nat.le_gt_cases hi (length l)) as [Hhi | Hhi].
    + rewrite Nat.min_l by exact Hhi. reflexivity.
    + rewrite (Nat.min_r hi (length l)) by lia.
      rewrite !firstn_all2 by (rewrite length_skipn; lia). reflexivity.
Qed.

Lemma slice2_window (y0 y1 x0 x1 : nat) (f : list (list Q)) :
  slice2 (Z.of_nat y0) (Z.of_nat y1 + 1) (Z.of_nat x0) (Z.of_nat x1 + 1) f =
  window y0 (y1 + 1 - y0) x0 (x1 + 1 - x0) f.
Proof.
  unfold slice2, window.
  replace (Z.of_nat y1 + 1)%Z with (Z.of_nat (y1 + 1)) by lia.
  replace (Z.of_nat x1 + 1)%Z with (Z.of_nat (x1 + 1)) by lia.
  rewrite slice_nonneg. apply map_ext. intros row. apply slice_nonneg.
Qed.

Lemma window_full (Y X : nat) (f : list (list Q)) :
  rect2 Y X f -> window 0 Y 0 X f = f.
Proof.
  intros [Hlen Hrows]. unfold window. cbn [skipn]. rewrite <- Hlen, firstn_all.
  rewrite <- (map_id f) at 2. apply map_ext_in. intros row Hin.
  rewrite Forall_forall in Hrows. rewrite <- (Hrows row Hin). apply firstn_all.
Qed.

Lemma nth_map_default {A B : Type} (g : A -> B) (l : list A) (n : nat) (d : A) (d' : B) :
  g d = d' -> nth n (map g l) d' = g (nth n l d).
Proof. intros <-. apply map_nth. Qed.

(** The pixels of a window are those of the frame, shifted by its corner. *)
Lemma window_pixel (y0 h x0 w y x : nat) (f : list (list Q)) :
  y < h -> x < w ->
  nth x (nth y (window y0 h x0 w f) []) 0%Q = nth (x0 + x) (nth (y0 + y) f []) 0%Q.
Proof.
  intros Hy Hx. unfold window.
  rewrite (nth_map_default _ _ _ [])
    by (rewrite skipn_nil, firstn_nil; reflexivity).
  rewrite nth_firstn, nth_skipn. destruct (Nat.ltb_spec x w); [ | lia].
  rewrite nth_firstn, nth_skipn. destruct (Nat.ltb_spec y h); [ | lia].
  reflexivity.
Qed.

Lemma window_rect (Y X y0 h x0 w : nat) (f : list (list Q)) :
  rect2 Y X f -> y0 + h <= Y -> x0 + w <= X -> rect2 h w (window y0 h x0 w f).
Proof.
  intros [Hlen Hrows] Hy Hx. unfold window. split.
  - rewrite length_map, length_firstn, length_skipn. lia.
  - apply Forall_map. apply Forall_firstn_skipn.
    eapply Forall_impl; [ | exact Hrows]. intros row Hrow. cbv beta in Hrow |- *.
    rewrite length_firstn, length_skipn. lia.
Qed.

Lemma rect4_dims (I F Y X : nat) (a : list (list (list (list Q)))) :
  rect4 I F Y X a -> 0 < I -> 0 < F -> 0 < Y -> dim2 a = Y /\ dim3 a = X.
Proof.
  intros [Hlen Hall] HI HF HY. unfold dim2, dim3.
  destruct a as [ | r a]; [cbn in Hlen; lia | ].
  apply Forall_inv in Hall. destruct Hall as [Hr Hfr]. cbn [hd].
  destruct r as [ | f r]; [cbn in Hr; lia | ].
  apply Forall_inv in Hfr. destruct Hfr as [Hf Hrows]. cbn [hd].
  destruct f as [ | row f]; [cbn in Hf; lia | ].
  apply Forall_inv in Hrows. cbn [hd]. split; assumption.
Qed.

Lemma map_window_full4 (I F Y X : nat) (a : list (list (list (list Q)))) :
  rect4 I F Y X a -> map (map (window 0 Y 0 X)) a = a.
Proof.
  intros [_ Hall]. rewrite <- (map_id a) at 2. apply map_ext_in. intros r Hin.
  rewrite Forall_forall in Hall. destruct (Hall r Hin) as [_ Hfr].
  rewrite <- (map_id r) at 2. apply map_ext_in. intros f Hf.
  rewrite Forall_forall in Hfr. apply window_full. apply Hfr. exact Hf.
Qed.

(** The object after [crop_dark] depends on the bounds alone. *)
Lemma crop_dark_state (p : Readout) (b : Bounds) (model : Model) :
  fst (crop_dark p b model) =
  if negb (bx0 b =? 0)%Z || negb (bx1 b =? Z.of_nat (cols (m_data model)) - 1)%Z
     || negb (by0 b =? 0)%Z || negb (by1 b =? Z.of_nat (rows (m_data model)) - 1)%Z
  then crop_arrays b model else model.
Proof.
  unfold crop_dark. run.
  destruct (negb (bx0 b =? 0)%Z || negb (bx1 b =? Z.of_nat (cols (m_data model)) - 1)%Z
            || negb (by0 b =? 0)%Z || negb (by1 b =? Z.of_nat (rows (m_data model)) - 1)%Z);
    cbn [fst snd];
    destruct (namp p =? 4)%Z, (namp p =? 1)%Z; cbn [negb andb fst snd]; try reflexivity;
    match goal with |- context [negb ?c] => destruct c end; reflexivity.
Qed.

(** The object after cropping a 4-D model to bounds inside its frames. *)
Lemma crop_dark_model4
      (p : Readout) (x0 y0 x1 y1 : nat) (o : Read_fits) (I F Y X : nat) :
  rect4 I F Y X (data o) ->
  (forall sb, sbAndRefpix o = Some sb -> rect4 I F Y X sb) ->
  (forall z, zeroframe o = Some z -> Forall (rect2 Y X) z) ->
  0 < I -> 0 < F ->
  x0 <= x1 -> x1 < X -> y0 <= y1 -> y1 < Y ->
  fst (crop_dark p (Z.of_nat x0, Z.of_nat y0, Z.of_nat x1, Z.of_nat y1) (model_of o)) =
    model_of (mkReadFits
                (map (map (window y0 (y1 + 1 - y0) x0 (x1 + 1 - x0))) (data o))
                (option_map (map (map (window y0 (y1 + 1 - y0) x0 (x1 + 1 - x0))))
                            (sbAndRefpix o))
                (option_map (map (window y0 (y1 + 1 - y0) x0 (x1 + 1 - x0))) (zeroframe o))
                (header o)).
Proof.
  intros Hd Hsb Hz HI HF Hx01 Hx1 Hy01 Hy1.
  rewrite crop_dark_state. unfold model_of at 1 2 3. cbn [m_data rows cols].
  destruct (rect4_dims I F Y X (data o) Hd HI HF ltac:(lia)) as [-> ->].
  unfold bx0, bx1, by0, by1. cbn [fst snd].
  match goal with |- (if ?c then _ else _) = _ => destruct c eqn:Hguard end.
  + unfold crop_arrays, model_of, bx0, bx1, by0, by1.
    cbn [fst snd m_data m_sbAndRefpix m_zeroframe data sbAndRefpix zeroframe].
    f_equal.
    * f_equal. apply map_ext. intros r. apply map_ext. intros f. apply slice2_window.
    * destruct (sbAndRefpix o); cbn [option_map try_update index4]; [ | reflexivity].
      do 2 f_equal. apply map_ext. intros r. apply map_ext. intros f. apply slice2_window.
    * destruct (zeroframe o); cbn [option_map try_update index3]; [ | reflexivity].
      do 2 f_equal. apply map_ext. intros f. apply slice2_window.
  + assert (x0 = 0 /\ x1 = X - 1 /\ y0 = 0 /\ y1 = Y - 1) as (-> & -> & -> & ->).
    { apply orb_false_iff in Hguard. destruct Hguard as [Hg Hg4].
      apply orb_false_iff in Hg. destruct Hg as [Hg Hg3].
      apply orb_false_iff in Hg. destruct Hg as [Hg1 Hg2].
      apply negb_false_iff, Z.eqb_eq in Hg1, Hg2, Hg3, Hg4. lia. }
    replace (Y - 1 + 1 - 0) with Y by lia. replace (X - 1 + 1 - 0) with X by lia.
    rewrite (map_window_full4 I F Y X (data o) Hd).
    assert (Hs : option_map (map (map (window 0 Y 0 X))) (sbAndRefpix o) = sbAndRefpix o).
    { destruct (sbAndRefpix o) as [sb | ] eqn:E; cbn [option_map]; [ | reflexivity].
      rewrite (map_window_full4 I F Y X sb (Hsb sb eq_refl)). reflexivity. }
    assert (Hzf : option_map (map (window 0 Y 0 X)) (zeroframe o) = zeroframe o).
    { destruct (zeroframe o) as [z | ] eqn:E; cbn [option_map]; [ | reflexivity].
      f_equal. rewrite <- (map_id z) at 2. apply map_ext_in. intros f Hf.
      specialize (Hz z eq_refl). rewrite Forall_forall in Hz.
      apply window_full. apply Hz. exact Hf. }
    rewrite Hs, Hzf. reflexivity.
Qed.

(** X10. Cropping a 4-D model to bounds inside its frames.  Whether the
    bounds are the full frame or not, [crop_dark] leaves in [data],
    [sbAndRefpix] and [zeroframe] the window of rows [y_min..y_max] and
    columns [x_min..x_max] of every frame: a frame of
    [(y_max - y_min + 1)] by [(x_max - x_min + 1)] pixels whose pixel
    [(y, x)] is pixel [(y_min + y, x_min + x)] of the input.  This holds in
    the object also when the amplifier check then raises. *)
Theorem crop_dark_window
        (p : Readout) (x0 y0 x1 y1 : nat) (o : Read_fits) (I F Y X : nat) :
  rect4 I F Y X (data o) ->
  (forall sb, sbAndRefpix o = Some sb -> rect4 I F Y X sb) ->
  (forall z, zeroframe o = Some z -> Forall (rect2 Y X) z) ->
  0 < I -> 0 < F ->
  x0 <= x1 -> x1 < X -> y0 <= y1 -> y1 < Y ->
  let h := y1 + 1 - y0 in
  let w := x1 + 1 - x0 in
  fst (crop_dark p (Z.of_nat x0, Z.of_nat y0, Z.of_nat x1, Z.of_nat y1) (model_of o)) =
    model_of (mkReadFits (map (map (window y0 h x0 w)) (data o))
                         (option_map (map (map (window y0 h x0 w))) (sbAndRefpix o))
                         (option_map (map (window y0 h x0 w)) (zeroframe o))
                         (header o)) /\
  rect4 I F h w (map (map (window y0 h x0 w)) (data o)) /\
  (forall f y x, y < h -> x < w ->
     nth x (nth y (window y0 h x0 w f) []) 0%Q = nth (x0 + x) (nth (y0 + y) f []) 0%Q).
Proof.
  cbv zeta. intros Hd Hsb Hz HI HF Hx01 Hx1 Hy01 Hy1.
  split; [ | split].
  - apply (crop_dark_model4 p x0 y0 x1 y1 o I F Y X); assumption.
  - destruct Hd as [Hlen Hall]. split; [rewrite length_map; exact Hlen | ].
    apply Forall_map. eapply Forall_impl; [ | exact Hall].
    intros r [Hr Hfr]. cbv beta. split; [rewrite length_map; exact Hr | ].
    apply Forall_map. eapply Forall_impl; [ | exact Hfr].
    intros f Hf. apply (window_rect Y X); [exact Hf | lia | lia].
  - intros f y x Hy Hx. apply window_pixel; assumption.
Qed.

(** Columns 1..2 of row 1 of a 2 x 4 frame. *)
Lemma crop_dark_window_witness :
  fst (crop_dark (Sample.cfg "RAPID" 1 0 1 1) (1, 1, 2, 1)%Z (model_of Frames.wide)) =
  model_of (mkReadFits [[[[6; 7]]]]%Q None (Some [[[6; 7]]]%Q) (Sample.hdr "RAPID")).
Proof.
  refine (proj1 (crop_dark_window (Sample.cfg "RAPID" 1 0 1 1) 1 1 2 1 Frames.wide 1 1 2 4
                   _ _ _ _ _ _ _ _ _)).
  - split; [reflexivity | repeat constructor].
  - discriminate.
  - intros z E. injection E as <-. repeat constructor.
  - lia.
  - lia.
  - lia.
  - lia.
  - lia.
  - lia.
Defined.

(** ** [readpattern_check] *)

Lemma upper_ascii_idempotent (c : ascii) :
  Py.upper_ascii (Py.upper_ascii c) = Py.upper_ascii c.
Proof.
  destruct c as [[ | ] [ | ] [ | ] [ | ] [ | ] [ | ] [ | ] [ | ]]; reflexivity.
Qed.

Lemma upper_idempotent (s : string) : Py.upper (Py.upper s) = Py.upper s.
Proof.
  induction s as [ | c s IH]; cbn [Py.upper]; [reflexivity | ].
  rewrite upper_ascii_idempotent, IH. reflexivity.
Qed.

Lemma mem_names_find (key : string) (tbl : list ReadPattern) :
  Py.mem key (map name tbl) = true <->
  exists r, find (fun r => String.eqb key (name r)) tbl = Some r.
Proof.
  unfold Py.mem. induction tbl as [ | r tbl IH]; cbn [map existsb find].
  - split; [discriminate | intros [r H]; discriminate].
  - destruct (String.eqb key (name r)); cbn [orb].
    + split; [intros _; exists r; reflexivity | reflexivity].
    + exact IH.
Qed.

Lemma filter_find {A : Type} (f : A -> bool) (l : list A) :
  find f l = match filter f l with x :: _ => Some x | [] => None end.
Proof.
  induction l as [ | x l IH]; cbn [find filter]; [reflexivity | ].
  destruct (f x); [reflexivity | exact IH].
Qed.

Lemma find_map {A B : Type} (f : B -> bool) (g : A -> B) (l : list A) :
  find f (map g l) = option_map g (find (fun x => f (g x)) l).
Proof.
  induction l as [ | x l IH]; cbn [find map]; [reflexivity | ].
  destruct (f (g x)); [reflexivity | exact IH].
Qed.

Lemma find_ext {A : Type} (f g : A -> bool) (l : list A) :
  (forall x, f x = g x) -> find f l = find g l.
Proof.
  intros H. induction l as [ | x l IH]; cbn [find]; [reflexivity | ].
  rewrite H, IH. reflexivity.
Qed.

(** The outcome of [readpattern_check], by the first row that matches. *)
Lemma readpattern_check_find (p : Readout) (tbl : list ReadPattern) :
  readpattern_check (p, tbl) =
  match find (fun r => String.eqb (Py.upper (readpatt p)) (Py.upper (name r))) tbl with
  | Some r =>
      ((mkReadout (Py.upper (readpatt p)) (rp_nframe r) (rp_nskip r)
                  (ngroup p) (nint p) (namp p),
        map upper_name tbl), Ok tt)
  | None =>
      ((set_readpatt (Py.upper (readpatt p)) p, map upper_name tbl), Raise ValueError)
  end.
Proof.
  unfold readpattern_check. run. cbn [set_readpatt readpatt].
  set (key := Py.upper (readpatt p)).
  pose proof (mem_names_find key (map upper_name tbl)) as Hmem.
  pose proof (filter_find (fun r => String.eqb key (name r)) (map upper_name tbl)) as Hff.
  rewrite find_map in Hff, Hmem.
  change (fun x => String.eqb key (name (upper_name x)))
    with (fun r => String.eqb key (Py.upper (name r))) in Hff, Hmem.
  destruct (find (fun r => String.eqb key (Py.upper (name r))) tbl) as [r | ] eqn:Hfind;
    cbn [option_map] in Hff, Hmem.
  - assert (Hm : Py.mem key (map name (map upper_name tbl)) = true)
      by (apply Hmem; eexists; reflexivity).
    rewrite Hm.
    destruct (filter (fun r0 => String.eqb key (name r0)) (map upper_name tbl)) as [ | r1 rest];
      [discriminate | ].
    injection Hff as <-. reflexivity.
  - destruct (Py.mem key (map name (map upper_name tbl))) eqn:Hm; [ | reflexivity].
    destruct (proj1 Hmem eq_refl) as [r Hr]. discriminate.
Qed.

(** X11. [readpattern_check] is a case-insensitive lookup of the request
    in the table as read: the first row whose name agrees with the request
    up to case gives [nframe] and [nskip].  Without such a row it raises
    ValueError - and both on success and on failure the request and every
    table name are left upper-cased. *)
Theorem readpattern_check_lookup (p : Readout) (tbl : list ReadPattern) :
  readpattern_check (p, tbl) =
  match find (fun r => String.eqb (Py.upper (readpatt p)) (Py.upper (name r))) tbl with
  | Some r =>
      ((mkReadout (Py.upper (readpatt p)) (rp_nframe r) (rp_nskip r)
                  (ngroup p) (nint p) (namp p),
        map upper_name tbl), Ok tt)
  | None =>
      ((set_readpatt (Py.upper (readpatt p)) p, map upper_name tbl), Raise ValueError)
  end.
Proof.
  exact (readpattern_check_find p tbl).
Qed.

(** X12. Running [readpattern_check] on what it produced changes nothing:
    after a success, the very same request, table, [nframe] and [nskip] come
    out again. *)
Theorem readpattern_check_idempotent
        (p p' : Readout) (tbl tbl' : list ReadPattern) :
  readpattern_check (p, tbl) = ((p', tbl'), Ok tt) ->
  readpattern_check (p', tbl') = ((p', tbl'), Ok tt).
Proof.
  rewrite (readpattern_check_find p tbl).
  destruct (find (fun r => String.eqb (Py.upper (readpatt p)) (Py.upper (name r))) tbl)
    as [r | ] eqn:Hfind; [ | discriminate].
  intros H. injection H as <- <-.
  rewrite readpattern_check_find. cbn [readpatt ngroup nint namp].
  rewrite find_map. cbn [upper_name name].
  rewrite upper_idempotent.
  rewrite (find_ext _ (fun r0 => String.eqb (Py.upper (readpatt p)) (Py.upper (name r0))))
    by (intros x; rewrite upper_idempotent; reflexivity).
  rewrite Hfind.
  cbn [option_map upper_name rp_nframe rp_nskip]. f_equal. f_equal.
  rewrite map_map. apply map_ext. intros x. unfold upper_name. cbn [name rp_nframe rp_nskip maxgroups].
  rewrite upper_idempotent. reflexivity.
Qed.

(** A lower-case table and a mixed-case request: the first of the two
    rows that spell DEEP8 is taken. *)
Lemma readpattern_check_idempotent_witness :
  readpattern_check (Sample.cfg "DEEP8" 8 12 3 2, map upper_name Frames.lower_table) =
  ((Sample.cfg "DEEP8" 8 12 3 2, map upper_name Frames.lower_table), Ok tt).
Proof.
  exact (readpattern_check_idempotent (Sample.cfg "dEEp8" 1 1 3 2) (Sample.cfg "DEEP8" 8 12 3 2)
           Frames.lower_table (map upper_name Frames.lower_table) eq_refl).
Defined.

(** ** The samples of a raw dark after [get_base_dark] *)

Lemma fold_left_Qmin_between (lo hi : Q) (t : list Q) (x : Q) :
  (lo <= x <= hi)%Q -> Forall (fun v => (lo <= v <= hi)%Q) t ->
  (lo <= fold_left Qmin t x <= hi)%Q.
Proof.
  intros Hx Ht. revert x Hx. induction Ht as [ | y t Hy _ IH]; intros x Hx; cbn [fold_left];
    [exact Hx | ].
  apply IH. split.
  - apply Q.min_glb; tauto.
  - apply Qle_trans with x; [apply Q.le_min_l | tauto].
Qed.

Lemma fold_left_Qmax_between (lo hi : Q) (t : list Q) (x : Q) :
  (lo <= x <= hi)%Q -> Forall (fun v => (lo <= v <= hi)%Q) t ->
  (lo <= fold_left Qmax t x <= hi)%Q.
Proof.
  intros Hx Ht. revert x Hx. induction Ht as [ | y t Hy _ IH]; intros x Hx; cbn [fold_left];
    [exact Hx | ].
  apply IH. split.
  - apply Qle_trans with x; [tauto | apply Q.le_max_l].
  - apply Q.max_lub; tauto.
Qed.

(** The minimum is below every sample. *)
Lemma fold_left_Qmin_lower (t : list Q) (x : Q) :
  (fold_left Qmin t x <= x)%Q /\ Forall (fun v => (fold_left Qmin t x <= v)%Q) t.
Proof.
  revert x. induction t as [ | y t IH]; intros x; cbn [fold_left].
  - split; [apply Qle_refl | constructor].
  - destruct (IH (Qmin x y)) as [Hm Hall]. split.
    + apply Qle_trans with (Qmin x y); [exact Hm | apply Q.le_min_l].
    + constructor; [ | exact Hall].
      apply Qle_trans with (Qmin x y); [exact Hm | apply Q.le_min_r].
Qed.

Lemma ravel_add_scalar (v : Q) (a : list (list (list (list Q)))) :
  ravel (add_scalar v a) = map (fun s => (s + v)%Q) (ravel a).
Proof. unfold ravel, add_scalar. rewrite !concat_map. reflexivity. Qed.

(** X13. A raw dark whose samples all lie in the signed 16-bit range
    [-32768, 32767] always passes the range check, and afterwards every
    sample lies in [0, 65535]: shifted by 32768 when some sample was
    negative, untouched when none was.  The call returns normally when the
    dark is RAPID-family or the upper-cased request is its pattern. *)
Theorem get_base_dark_int16 (p : Readout) (dark : Read_fits) :
  ravel (data dark) <> [] ->
  Forall (fun v => (-32768 <= v <= 32767)%Q) (ravel (data dark)) ->
  Forall (fun v => (0 <= v <= 65535)%Q) (ravel (data (fst (get_base_dark p dark)))) /\
  (Py.mem (READPATT (header dark)) rapids = true \/
   Py.upper (readpatt p) = READPATT (header dark) ->
   snd (get_base_dark p dark) = Ok tt).
Proof.
  intros Hne Hall. unfold get_base_dark, amax, amin. run.
  destruct (ravel (data dark)) as [ | x t] eqn:Hr; [congruence | ].
  cbn [fst snd]. inversion Hall as [ | ? ? Hx Ht]; subst.
  pose proof (fold_left_Qmin_between _ _ t x Hx Ht) as Hmn.
  pose proof (fold_left_Qmax_between _ _ t x Hx Ht) as Hmx.
  pose proof (fold_left_Qmin_lower t x) as [Hlx Hlt].
  set (mn := fold_left Qmin t x) in *. set (mx := fold_left Qmax t x) in *.
  assert (Hrange : Qlt_bool 65535 (1 * mx - 1 * mn) = false)
    by (apply Qlt_bool_false_iff; lra).
  rewrite Hrange.
  assert (Hstate : Forall (fun v => (0 <= v <= 65535)%Q)
            (ravel (data (fst ((if Qlt_bool mn 0
                                then put (set_data (add_scalar 32768 (data dark)) dark)
                                else ret tt) dark))))).
  { destruct (Qlt_bool mn 0) eqn:Hneg; cbn [fst put ret set_data data].
    - rewrite ravel_add_scalar, Hr. apply Forall_map.
      eapply Forall_impl; [ | exact Hall]. intros v Hv. cbv beta in Hv |- *. lra.
    - rewrite Hr. apply Qlt_bool_false_iff in Hneg.
      constructor; [lra | ].
      rewrite Forall_forall in Ht, Hlt. apply Forall_forall. intros v Hv.
      specialize (Ht v Hv). specialize (Hlt v Hv). cbv beta in Ht, Hlt. lra. }
  split.
  - destruct (Qlt_bool mn 0); cbn [fst snd put ret] in Hstate |- *;
      (destruct (negb (Py.mem (READPATT (header dark)) rapids));
       [destruct (negb (String.eqb (Py.upper (readpatt p)) (READPATT (header dark)))) | ];
       exact Hstate).
  - intros Hok.
    assert (Hpass : negb (Py.mem (READPATT (header dark)) rapids) &&
                    negb (String.eqb (Py.upper (readpatt p)) (READPATT (header dark))) = false).
    { destruct Hok as [Hk | Hk]; [rewrite Hk; reflexivity | ].
      rewrite Hk, String.eqb_refl. apply andb_false_r. }
    destruct (Qlt_bool mn 0); cbn [fst snd put ret];
      (destruct (negb (Py.mem (READPATT (header dark)) rapids)); [ | reflexivity];
       destruct (negb (String.eqb (Py.upper (readpatt p)) (READPATT (header dark))));
       [discriminate | reflexivity]).
Qed.

Lemma get_base_dark_int16_witness :
  Forall (fun v => (0 <= v <= 65535)%Q)
         (ravel (data (fst (get_base_dark (Sample.cfg "RAPID" 1 0 2 1) Sample.signed_dark)))).
Proof.
  refine (proj1 (get_base_dark_int16 (Sample.cfg "RAPID" 1 0 2 1) Sample.signed_dark _ _)).
  - discriminate.
  - repeat constructor; cbn; discriminate.
Defined.

(** ** The stages of [prepare] in sequence *)

Lemma data_volume_check_truncates (p : Readout) (dark : Read_fits) (I F Y X : nat) :
  rect4 I F Y X (data dark) ->
  (forall sb, sbAndRefpix dark = Some sb -> rect4 I F Y X sb) ->
  0 < I -> ngroup p * (nskip p + nframe p) <= F ->
  data_volume_check p dark =
    (mkReadFits (map (firstn (ngroup p * (nskip p + nframe p))) (data dark))
                (option_map (map (firstn (ngroup p * (nskip p + nframe p)))) (sbAndRefpix dark))
                (zeroframe dark)
                (set_NGROUPS (ngroup p * (nskip p + nframe p)) (header dark)), Ok tt).
Proof.
  intros Hd Hsb HI Hle. set (need := ngroup p * (nskip p + nframe p)) in *.
  unfold data_volume_check. fold need. run. rewrite (rect4_dim1 _ _ _ _ _ Hd HI).
  destruct (Nat.ltb_spec F need) as [ | _]; [lia | ].
  destruct (Nat.ltb_spec need F) as [Hlt | Hge].
  - unfold truncate_frames. run.
    cbn [data sbAndRefpix zeroframe header set_header set_data set_sbAndRefpix].
    rewrite slice_frames_0. destruct (sbAndRefpix dark); cbn [option_map];
      rewrite ?slice_frames_0; reflexivity.
  - assert (need = F) as -> by lia. run. unfold set_header.
    rewrite (map_firstn_all F (data dark)) by (apply (rect4_lengths I F Y X); exact Hd).
    destruct (sbAndRefpix dark) as [sb | ] eqn:E; cbn [option_map]; [ | reflexivity].
    rewrite (map_firstn_all F sb) by (apply (rect4_lengths I F Y X); apply Hsb; reflexivity).
    reflexivity.
Qed.

Lemma cycles_of_darkints {A : Type} (n req : nat) (x : list A) :
  0 < n -> length x = n ->
  cycles_of n req x
    (if req <=? n then firstn req x
     else extended_by ((req - n) / n) ((req - n) mod n) x).
Proof.
  intros Hn Hx. destruct (Nat.leb_spec req n) as [Hle | Hgt].
  - rewrite <- Hx. apply cycles_of_firstn. lia.
  - apply cycles_of_extended; assumption.
Qed.

Lemma cycles_of_Forall {A : Type} (P : A -> Prop) (n req : nat) (o e : list A) :
  0 < n -> length o = n -> cycles_of n req o e -> Forall P o -> Forall P e.
Proof.
  intros Hn Ho [Hlen Hnth] HP. rewrite Forall_forall in HP. apply Forall_forall.
  intros x Hin. apply In_nth_error in Hin. destruct Hin as [i Hi].
  assert (Hlt : i < req).
  { rewrite <- Hlen. apply nth_error_Some. congruence. }
  rewrite (Hnth i Hlt) in Hi. apply HP. apply (nth_error_In _ _ Hi).
Qed.

Lemma cycles_of_nth {A : Type} (n req : nat) (o e : list A) (d : A) (i : nat) :
  0 < n -> length o = n -> cycles_of n req o e -> i < req ->
  nth i e d = nth (i mod n) o d.
Proof.
  intros Hn Ho [Hlen Hnth] Hi.
  assert (Hm : i mod n < length o) by (rewrite Ho; apply Nat.mod_upper_bound; lia).
  apply nth_error_nth. rewrite (Hnth i Hi). apply nth_error_nth'. exact Hm.
Qed.

Lemma firstn_skipn_firstn {A : Type} (n start need : nat) (r : list A) :
  start + n <= need -> firstn n (skipn start (firstn need r)) = firstn n (skipn start r).
Proof.
  intros H. rewrite skipn_firstn_comm, firstn_firstn.
  replace (Nat.min n (need - start)) with n by lia. reflexivity.
Qed.

(** Groups read from a cube that was cut to the frames needed and then
    cycled along the integrations are the groups of the cube itself. *)
Lemma group_spec_cycled (p : Readout) (I F Y X need : nat)
      (a a2 : list (list (list (list Q)))) :
  rect4 I F Y X a -> 0 < I ->
  cycles_of I (nint p) (map (firstn need) a) a2 ->
  ngroup p * (nframe p + nskip p) <= need ->
  1 <= nframe p ->
  forall integ g, integ < nint p -> g < ngroup p ->
    group_spec p a2 integ g = group_spec p a (integ mod I) g.
Proof.
  intros Ha HI Hcyc Hfit Hnf integ g Hi Hg.
  assert (Hlen : length (map (firstn need) a) = I) by (rewrite length_map; apply Ha).
  assert (Hrow : nth integ a2 [] = firstn need (nth (integ mod I) a [])).
  { rewrite (cycles_of_nth I (nint p) (map (firstn need) a) a2 [] integ HI Hlen Hcyc Hi).
    apply nth_map_default. apply firstn_nil. }
  assert (Hstart : g * (nframe p + nskip p) + nframe p <= need) by nia.
  unfold group_spec, frames_from. rewrite Hrow.
  destruct (1 <? nframe p).
  - rewrite firstn_skipn_firstn by exact Hstart. reflexivity.
  - rewrite nth_firstn. destruct (Nat.ltb_spec (g * (nframe p + nskip p)) need); [ | lia].
    reflexivity.
Qed.

Lemma averaged_cyclic_map (p : Readout) (n : nat) (a a2 : list (list (list (list Q)))) :
  (forall integ g, integ < nint p -> g < ngroup p ->
     group_spec p a2 integ g = group_spec p a (integ mod n) g) ->
  averaged_cyclic p n a
    (map (fun integ => map (fun g => group_spec p a2 integ g) (seq 0 (ngroup p)))
         (seq 0 (nint p))).
Proof.
  intros H. split; [rewrite length_map, length_seq; reflexivity | ].
  intros integ Hi. rewrite (nth_map_seq _ _ _ _ Hi). split.
  - rewrite length_map, length_seq. reflexivity.
  - intros g Hg. rewrite (nth_map_seq _ _ _ _ Hg). apply H; assumption.
Qed.

(** X14. The three stages of [prepare] in a row, for a RAPID-family dark
    that has the frames needed ([I >= 1] integrations of
    [F >= ngroup * (nskip + nframe)] frames) and a request outside the
    family: whatever [nint >= 1] is asked for, the stages return, and group
    [g] of output integration [i] is the group computed from input
    integration [i mod I] - cutting the frames and cutting or cycling the
    integrations beforehand does not change a single average.  The header
    ends up with the request, and the frame and integration axes of [data]
    have the lengths NGROUPS and NINTS record. *)
Theorem prepare_reshape_averages
        (p : Readout) (tbl : list ReadPattern) (dark : Read_fits) (I F Y X : nat) :
  Py.mem (READPATT (header dark)) rapids = true ->
  Py.mem (readpatt p) rapids = false ->
  Py.mem (READPATT (header dark)) (map name tbl) = true ->
  rect4 I F Y X (data dark) ->
  (forall sb, sbAndRefpix dark = Some sb -> rect4 I F Y X sb) ->
  0 < I ->
  ngroup p * (nskip p + nframe p) <= F ->
  0 < ngroup p -> 0 < nint p -> 1 <= nframe p ->
  (exists sbzero, snd (prepare_reshape p tbl dark) = Ok sbzero) /\
  averaged_cyclic p I (data dark) (data (fst (prepare_reshape p tbl dark))) /\
  averaged_cyclic_opt p I (sbAndRefpix dark) (sbAndRefpix (fst (prepare_reshape p tbl dark))) /\
  header (fst (prepare_reshape p tbl dark)) =
    mkHeader (readpatt p) (nframe p) (nskip p) (ngroup p) (nint p)
             (DETECTOR (header dark)) (INSTRUME (header dark)) /\
  dim1 (data (fst (prepare_reshape p tbl dark))) =
    NGROUPS (header (fst (prepare_reshape p tbl dark))) /\
  length (data (fst (prepare_reshape p tbl dark))) =
    NINTS (header (fst (prepare_reshape p tbl dark))).
Proof.
  intros Hr Hreq Htbl Hd Hsb HI Hle Hng Hni Hnf.
  set (need := ngroup p * (nskip p + nframe p)) in *.
  assert (Hneed : 0 < need) by (unfold need; nia).
  unfold prepare_reshape. run.
  rewrite (data_volume_check_truncates p dark I F Y X Hd Hsb HI Hle). fold need.
  set (d1 := map (firstn need) (data dark)).
  assert (Hd1 : rect4 I need Y X d1) by (apply (rect4_firstn_frames I F Y X); assumption).
  assert (Hlen1 : length d1 = I) by apply Hd1.
  rewrite darkints_result by (cbn [data]; rewrite Hlen1; exact HI).
  cbn [data sbAndRefpix zeroframe header]. rewrite Hlen1.
  set (cyc := fun (A : Type) (x : list A) =>
                if nint p <=? I then firstn (nint p) x
                else extended_by ((nint p - I) / I) ((nint p - I) mod I) x).
  set (s2 := mkReadFits (cyc _ d1)
               (option_map (cyc _) (option_map (map (firstn need)) (sbAndRefpix dark)))
               (option_map (cyc _) (zeroframe dark))
               (if nint p <=? I then set_NGROUPS need (header dark)
                else set_NINTS (nint p) (set_NGROUPS need (header dark)))).
  assert (Hs2 : (if nint p <=? I
                 then (mkReadFits (firstn (nint p) d1)
                         (option_map (firstn (nint p))
                            (option_map (map (firstn need)) (sbAndRefpix dark)))
                         (option_map (firstn (nint p)) (zeroframe dark))
                         (set_NGROUPS need (header dark)), Ok tt)
                 else (mkReadFits
                         (extended_by ((nint p - I) / I) ((nint p - I) mod I) d1)
                         (option_map (extended_by ((nint p - I) / I) ((nint p - I) mod I))
                            (option_map (map (firstn need)) (sbAndRefpix dark)))
                         (option_map (extended_by ((nint p - I) / I) ((nint p - I) mod I))
                            (zeroframe dark))
                         (set_NINTS (nint p) (set_NGROUPS need (header dark))), Ok tt))
                = (s2, Ok tt)).
  { unfold s2, cyc. destruct (nint p <=? I); reflexivity. }
  rewrite Hs2. cbn [fst snd].
  assert (Hcyc : forall a, rect4 I F Y X a ->
            cycles_of I (nint p) (map (firstn need) a) (cyc _ (map (firstn need) a)) /\
            rect4 (nint p) need Y X (cyc _ (map (firstn need) a))).
  { intros a Ha.
    assert (Ha1 : rect4 I need Y X (map (firstn need) a))
      by (apply (rect4_firstn_frames I F Y X); assumption).
    assert (Hc : cycles_of I (nint p) (map (firstn need) a) (cyc _ (map (firstn need) a)))
      by (apply cycles_of_darkints; [exact HI | apply Ha1]).
    split; [exact Hc | ]. split; [apply Hc | ].
    apply (cycles_of_Forall _ I (nint p) (map (firstn need) a));
      [exact HI | apply Ha1 | exact Hc | apply Ha1]. }
  destruct (Hcyc (data dark) Hd) as [Hc2 Hr2]. fold d1 in Hc2, Hr2.
  assert (Hpatt : READPATT (header s2) = READPATT (header dark))
    by (unfold s2; cbn [header]; destruct (nint p <=? I); reflexivity).
  assert (Hdet : DETECTOR (header s2) = DETECTOR (header dark) /\
                 INSTRUME (header s2) = INSTRUME (header dark))
    by (unfold s2; cbn [header]; destruct (nint p <=? I); split; reflexivity).
  assert (Hsb2 : forall sb, sbAndRefpix s2 = Some sb -> rect4 (nint p) need Y X sb).
  { unfold s2. cbn [sbAndRefpix]. intros sb E.
    destruct (sbAndRefpix dark) as [s | ]; cbn [option_map] in E; [ | discriminate].
    injection E as <-. apply Hcyc. apply Hsb. reflexivity. }
  rewrite (reorder_dark_average_result p tbl s2 (nint p) need Y X);
    [ | rewrite Hpatt; exact Hr | exact Hreq | rewrite Hpatt; exact Htbl | exact Hr2
      | exact Hsb2 | exact Hni | exact Hneed | unfold need; lia | lia | exact Hnf].
  cbn [fst snd data sbAndRefpix header NGROUPS NINTS].
  destruct Hdet as [-> ->].
  split; [eexists; reflexivity | ].
  split; [ | split; [ | split; [reflexivity | split]]].
  - unfold s2. cbn [data]. apply averaged_cyclic_map.
    apply (group_spec_cycled p I F Y X need); assumption || (unfold need; lia).
  - unfold s2. cbn [sbAndRefpix].
    destruct (sbAndRefpix dark) as [s | ]; cbn [option_map averaged_cyclic_opt]; [ | exact Logic.I].
    apply averaged_cyclic_map.
    apply (group_spec_cycled p I F Y X need);
      [apply Hsb; reflexivity | assumption | apply Hcyc; apply Hsb; reflexivity
       | unfold need; lia | assumption].
  - unfold dim1. destruct (nint p) as [ | k]; [lia | ].
    cbn [seq map hd]. rewrite length_map, length_seq. reflexivity.
  - rewrite length_map, length_seq. reflexivity.
Qed.

(** Three integrations of four frames, BRIGHT1 groups, five integrations
    asked for: output integration 4 repeats input integration 1. *)
Lemma prepare_reshape_averages_witness :
  averaged_cyclic (Sample.cfg "BRIGHT1" 1 1 2 5) 3 (data Cases.three_by_four)
    (data (fst (prepare_reshape (Sample.cfg "BRIGHT1" 1 1 2 5) Sample.table
                                Cases.three_by_four))).
Proof.
  refine (proj1 (proj2 (prepare_reshape_averages (Sample.cfg "BRIGHT1" 1 1 2 5) Sample.table
            Cases.three_by_four 3 4 1 1 eq_refl eq_refl eq_refl _ _ _ _ _ _ _))).
  - split; [reflexivity | repeat constructor].
  - intros sb E. injection E as <-. split; [reflexivity | repeat constructor].
  - lia.
  - cbn. lia.
  - cbn. lia.
  - cbn. lia.
  - cbn. lia.
Defined.

(** ** The stages of [prepare] on a single integration *)

Lemma firstn_extension_code (need : nat) (r : list (list (list Q))) :
  0 < length r -> firstn (length r) (extension_code need r) = r.
Proof.
  intros Hpos. unfold extension_code.
  assert (Hp2 : 0 < 2 ^ (need / length r - 1))
    by (apply Nat.neq_0_lt_0, Nat.pow_nonzero; lia).
  rewrite firstn_app_short by (rewrite length_doubled; nia).
  apply firstn_doubled.
Qed.

Lemma length_volume_checked (need : nat) (r s : list (list (list Q))) :
  0 < length r -> length s = length r ->
  length (volume_checked need s) = length (volume_checked need r).
Proof.
  intros Hpos Hs. unfold volume_checked. rewrite Hs.
  destruct (Nat.leb_spec need (length r)) as [Hle | Hgt].
  - rewrite !length_firstn, Hs. reflexivity.
  - rewrite !length_extension_code by lia. rewrite Hs. reflexivity.
Qed.

Lemma volume_checked_enough (need : nat) (r : list (list (list Q))) :
  0 < length r -> need <= length (volume_checked need r).
Proof.
  intros Hpos. unfold volume_checked.
  destruct (Nat.leb_spec need (length r)) as [Hle | Hgt].
  - rewrite length_firstn. lia.
  - rewrite length_extension_code by exact Hpos.
    pose proof (Nat.div_mod_eq need (length r)) as Hdm.
    assert (Hk : 1 <= need / length r) by (apply Nat.div_le_lower_bound; lia).
    assert (Hq : need / length r <= 2 ^ (need / length r - 1)).
    { destruct (Nat.lt_ge_cases (need / length r) 3) as [H3 | H3].
      - assert (Hc : need / length r = 1 \/ need / length r = 2) by lia.
        destruct Hc as [-> | ->]; cbn; lia.
      - pose proof (pow2_exceeds _ H3). lia. }
    assert (length r * (need / length r) <= length r * 2 ^ (need / length r - 1))
      by (apply Nat.mul_le_mono_l; exact Hq).
    lia.
Qed.

(** [data_volume_check] on one integration, in all of its branches. *)
Lemma data_volume_check_one_integration_any
      (p : Readout) (r : list (list (list Q))) (sb : option (list (list (list Q))))
      (zf : option (list (list (list Q)))) (h : Header) :
  0 < length r ->
  (forall s, sb = Some s -> length s = length r) ->
  data_volume_check p (mkReadFits [r] (option_map (fun s => [s]) sb) zf h) =
    (mkReadFits [volume_checked (ngroup p * (nskip p + nframe p)) r]
                (option_map (fun s => [volume_checked (ngroup p * (nskip p + nframe p)) s]) sb)
                zf (set_NGROUPS (ngroup p * (nskip p + nframe p)) h), Ok tt).
Proof.
  intros Hpos Hsb. set (need := ngroup p * (nskip p + nframe p)).
  assert (Hvc : forall s, length s = length r ->
            volume_checked need s =
            if need <=? length r then firstn need s else extension_code need s).
  { intros s Hs. unfold volume_checked. rewrite Hs. reflexivity. }
  destruct (Nat.leb_spec need (length r)) as [Hle | Hgt].
  - unfold data_volume_check. fold need. run. cbn [data].
    change (dim1 [r]) with (length r).
    destruct (Nat.ltb_spec (length r) need) as [ | _]; [lia | ].
    rewrite (Hvc r eq_refl).
    destruct (Nat.leb_spec need (length r)) as [_ | ]; [ | lia].
    destruct (Nat.ltb_spec need (length r)) as [Hlt | Hge].
    + unfold truncate_frames. run.
      cbn [data sbAndRefpix zeroframe header set_header set_data set_sbAndRefpix].
      rewrite slice_frames_0. cbn [map].
      destruct sb as [s | ]; cbn [option_map]; [ | reflexivity].
      rewrite slice_frames_0, (Hvc s (Hsb s eq_refl)). cbn [map].
      destruct (Nat.leb_spec need (length r)); [reflexivity | lia].
    + assert (need = length r) as Hn by lia. run. unfold set_header.
      cbn [data sbAndRefpix zeroframe header].
      assert (Hall : forall x : list (list (list Q)), length x = length r -> firstn need x = x)
        by (intros x Hx; rewrite Hn, <- Hx; apply firstn_all).
      destruct sb as [s | ]; cbn [option_map].
      * rewrite (Hvc s (Hsb s eq_refl)).
        destruct (Nat.leb_spec need (length r)) as [_ | ]; [ | lia].
        rewrite (Hall r eq_refl), (Hall s (Hsb s eq_refl)). reflexivity.
      * rewrite (Hall r eq_refl). reflexivity.
  - rewrite (data_volume_check_one_integration_code p r sb zf h Hpos Hgt Hsb). fold need.
    rewrite (Hvc r eq_refl).
    destruct (Nat.leb_spec need (length r)) as [ | _]; [lia | ].
    destruct sb as [s | ]; cbn [option_map]; [ | reflexivity].
    rewrite (Hvc s (Hsb s eq_refl)).
    destruct (Nat.leb_spec need (length r)) as [ | _]; [lia | ]. reflexivity.
Qed.

Lemma concat_repeat_singleton {A : Type} (x : A) (k : nat) :
  concat (repeat [x] k) = repeat x k.
Proof. induction k as [ | k IH]; cbn; [reflexivity | rewrite IH; reflexivity]. Qed.

(** [darkints] on one integration makes [nint] copies of it. *)
Lemma darkints_one_integration {A : Type} (x : A) (n : nat) :
  (if n <=? 1 then firstn n [x]
   else extended_by ((n - 1) / 1) ((n - 1) mod 1) [x]) = repeat x n.
Proof.
  destruct (Nat.leb_spec n 1) as [Hle | Hgt].
  - destruct n as [ | [ | n]]; [reflexivity | reflexivity | lia].
  - rewrite Nat.div_1_r, Nat.mod_1_r. unfold extended_by. cbn [firstn].
    rewrite app_nil_r, concat_repeat_singleton.
    destruct n as [ | n]; [lia | ]. cbn. rewrite Nat.sub_0_r. reflexivity.
Qed.

(** The first two stages on a single integration. *)
Lemma volume_and_ints_one_integration
      (p : Readout) (r : list (list (list Q))) (sb : option (list (list (list Q))))
      (zf : option (list (list (list Q)))) (h : Header) :
  0 < length r ->
  (forall s, sb = Some s -> length s = length r) ->
  exists zf' h',
    (data_volume_check p ;;; darkints p) (mkReadFits [r] (option_map (fun s => [s]) sb) zf h) =
      (mkReadFits
         (repeat (volume_checked (ngroup p * (nskip p + nframe p)) r) (nint p))
         (option_map (fun s => repeat (volume_checked (ngroup p * (nskip p + nframe p)) s)
                                      (nint p)) sb)
         zf' h', Ok tt) /\
    READPATT h' = READPATT h /\ DETECTOR h' = DETECTOR h /\ INSTRUME h' = INSTRUME h /\
    (zf = None -> zf' = None).
Proof.
  intros Hpos Hsb. run.
  rewrite (data_volume_check_one_integration_any p r sb zf h Hpos Hsb).
  rewrite darkints_result by (cbn; lia).
  cbn [data sbAndRefpix zeroframe header length].
  set (need := ngroup p * (nskip p + nframe p)).
  pose proof (darkints_one_integration (volume_checked need r) (nint p)) as Hrep.
  destruct (nint p <=? 1) eqn:Hle.
  - eexists. eexists. split; [ | split; [ | split; [ | split]]].
    + rewrite Hrep. f_equal. f_equal.
      destruct sb as [s | ]; cbn [option_map]; [ | reflexivity].
      pose proof (darkints_one_integration (volume_checked need s) (nint p)) as Hs.
      rewrite Hle in Hs. rewrite Hs. reflexivity.
    + reflexivity.
    + reflexivity.
    + reflexivity.
    + intros ->. reflexivity.
  - eexists. eexists. split; [ | split; [ | split; [ | split]]].
    + rewrite Hrep. f_equal. f_equal.
      destruct sb as [s | ]; cbn [option_map]; [ | reflexivity].
      pose proof (darkints_one_integration (volume_checked need s) (nint p)) as Hs.
      rewrite Hle in Hs. rewrite Hs. reflexivity.
    + reflexivity.
    + reflexivity.
    + reflexivity.
    + intros ->. reflexivity.
Qed.

Lemma prepare_reshape_split (p : Readout) (tbl : list ReadPattern) (st : Read_fits) :
  prepare_reshape p tbl st =
  match (data_volume_check p ;;; darkints p) st with
  | (s, Ok _) => reorder_dark p tbl s
  | (s, Raise e) => (s, Raise e)
  end.
Proof.
  unfold prepare_reshape. run.
  destruct (data_volume_check p st) as [s1 [u | e]]; [ | reflexivity].
  destruct (darkints p s1) as [s2 [v | e]]; reflexivity.
Qed.

Lemma firstn_volume_checked (k need : nat) (r : list (list (list Q))) :
  0 < length r -> k <= length r -> k <= need ->
  firstn k (volume_checked need r) = firstn k r.
Proof.
  intros Hpos Hk Hkn. unfold volume_checked.
  destruct (Nat.leb_spec need (length r)) as [Hle | Hgt].
  - rewrite firstn_firstn. replace (Nat.min k need) with k by lia. reflexivity.
  - rewrite <- (firstn_extension_code need r Hpos) at 2.
    rewrite firstn_firstn. replace (Nat.min k (length r)) with k by lia. reflexivity.
Qed.

Lemma dim1_repeat {A : Type} (x : list A) (n : nat) : 0 < n -> dim1 (repeat x n) = length x.
Proof. intros Hn. destruct n; [lia | reflexivity]. Qed.

(** X15. A request for the dark's own pattern, on a dark of one
    integration with at least [ngroup] frames: the stages of [prepare]
    return and the output is [nint] copies of the first [ngroup] frames of
    the input, untouched.  Whatever [data_volume_check] appended because the
    dark had fewer than [ngroup * (nskip + nframe)] frames is cut away
    again. *)
Theorem prepare_reshape_same_pattern_one_integration
        (p : Readout) (tbl : list ReadPattern) (r : list (list (list Q)))
        (sb : option (list (list (list Q)))) (zf : option (list (list (list Q))))
        (h : Header) :
  readpatt p = READPATT h ->
  Py.mem (READPATT h) (map name tbl) = true ->
  0 < length r ->
  (forall s, sb = Some s -> length s = length r) ->
  ngroup p <= length r ->
  0 < ngroup p -> 0 < nint p -> 1 <= nskip p + nframe p ->
  let dark := mkReadFits [r] (option_map (fun s => [s]) sb) zf h in
  (exists sbzero, snd (prepare_reshape p tbl dark) = Ok sbzero) /\
  data (fst (prepare_reshape p tbl dark)) = repeat (firstn (ngroup p) r) (nint p) /\
  sbAndRefpix (fst (prepare_reshape p tbl dark)) =
    option_map (fun s => repeat (firstn (ngroup p) s) (nint p)) sb.
Proof.
  cbv zeta. intros Hpatt Htbl Hpos Hsb Hng Hng0 Hni Hfpg.
  set (need := ngroup p * (nskip p + nframe p)).
  assert (Hneed : ngroup p <= need) by (unfold need; nia).
  rewrite prepare_reshape_split.
  destruct (volume_and_ints_one_integration p r sb zf h Hpos Hsb)
    as (zf' & h' & Heq & Hp' & _ & _ & _).
  rewrite Heq. fold need.
  assert (Hlen : forall s, length s = length r -> 0 < length (volume_checked need s)).
  { intros s Hs. rewrite (length_volume_checked need r s Hpos Hs).
    pose proof (volume_checked_enough need r Hpos). lia. }
  rewrite reorder_dark_unfold; cbn [header data sbAndRefpix zeroframe].
  - rewrite Hp', <- Hpatt, andb_negb_r, String.eqb_refl. cbn [fst snd data sbAndRefpix].
    split; [eexists; reflexivity | ].
    assert (Hcut : forall s, length s = length r ->
              slice_frames 0 (ngroup p) (repeat (volume_checked need s) (nint p)) =
              repeat (firstn (ngroup p) s) (nint p)).
    { intros s Hs. rewrite slice_frames_0, map_repeat.
      rewrite firstn_volume_checked by lia. reflexivity. }
    split; [apply Hcut; reflexivity | ].
    destruct sb as [s | ]; cbn [option_map]; [ | reflexivity].
    rewrite (Hcut s (Hsb s eq_refl)). reflexivity.
  - rewrite Hp'. exact Htbl.
  - intros _. rewrite dim1_repeat by exact Hni. apply Hlen. reflexivity.
  - intros _ x E. destruct sb as [s | ]; cbn [option_map] in E; [ | discriminate].
    injection E as <-. rewrite dim1_repeat by exact Hni. apply Hlen. apply Hsb. reflexivity.
Qed.

(** A DEEP8 dark of four groups asked for two DEEP8 groups: 40 frames
    are needed, the dark is extended to 4 * 2 ^ 9 frames, and its first two
    groups come out. *)
Lemma prepare_reshape_same_pattern_one_integration_witness :
  data (fst (prepare_reshape (Sample.cfg "DEEP8" 8 12 2 3) Sample.table
               (mkReadFits [Sample.ramp [1; 2; 3; 4]%Q] None None (Sample.hdr "DEEP8")))) =
  repeat (firstn 2 (Sample.ramp [1; 2; 3; 4]%Q)) 3.
Proof.
  refine (proj1 (proj2 (prepare_reshape_same_pattern_one_integration
            (Sample.cfg "DEEP8" 8 12 2 3) Sample.table (Sample.ramp [1; 2; 3; 4]%Q)
            None None (Sample.hdr "DEEP8") eq_refl eq_refl _ _ _ _ _ _))).
  - cbn. lia.
  - discriminate.
  - cbn. lia.
  - cbn. lia.
  - cbn. lia.
  - cbn. lia.
Defined.

(** Rectangular frames stay rectangular under the extension. *)
Lemma zip_with_length {A B C : Type} (f : A -> B -> C) (l1 : list A) (l2 : list B) :
  length (zip_with f l1 l2) = Nat.min (length l1) (length l2).
Proof. unfold zip_with. rewrite length_map, length_combine. reflexivity. Qed.

Lemma frame_op_rect (op : Q -> Q -> Q) (Y X : nat) (f g : list (list Q)) :
  rect2 Y X f -> rect2 Y X g -> rect2 Y X (frame_op op f g).
Proof.
  intros [Hf Hfr] [Hg Hgr]. unfold frame_op. split.
  - rewrite zip_with_length. lia.
  - clear Hf Hg. revert g Hgr. induction Hfr as [ | row f Hrow _ IH]; intros g Hgr.
    + constructor.
    + destruct Hgr as [ | row' g Hrow' Hgr]; [constructor | ].
      unfold zip_with at 1. cbn [combine map fst snd]. constructor.
      * rewrite zip_with_length. lia.
      * apply IH. exact Hgr.
Qed.

Lemma Forall_last {A : Type} (P : A -> Prop) (l : list A) (d : A) :
  l <> [] -> Forall P l -> P (last l d).
Proof.
  intros Hne Hall. rewrite Forall_forall in Hall. apply Hall.
  destruct (exists_last Hne) as [l' [x ->]]. rewrite last_last.
  apply in_or_app. right. left. reflexivity.
Qed.

Lemma add_offset_rect (Y X : nat) (off : list (list Q)) (fs : list (list (list Q))) :
  rect2 Y X off -> Forall (rect2 Y X) fs -> Forall (rect2 Y X) (add_offset off fs).
Proof.
  intros Hoff Hfs. unfold add_offset. apply Forall_map.
  eapply Forall_impl; [ | exact Hfs]. intros f Hf. apply frame_op_rect; assumption.
Qed.

Lemma doubled_rect (Y X n : nat) (r : list (list (list Q))) :
  r <> [] -> Forall (rect2 Y X) r -> Forall (rect2 Y X) (doubled n r) /\ doubled n r <> [].
Proof.
  revert r. induction n as [ | n IH]; intros r Hne Hr; cbn [doubled]; [tauto | ].
  apply IH.
  - destruct r; [congruence | discriminate].
  - apply Forall_app. split; [exact Hr | ].
    apply add_offset_rect; [apply Forall_last; assumption | exact Hr].
Qed.

Lemma volume_checked_rect (Y X need : nat) (r : list (list (list Q))) :
  0 < length r -> Forall (rect2 Y X) r -> Forall (rect2 Y X) (volume_checked need r).
Proof.
  intros Hpos Hr.
  assert (Hne : r <> []) by (intros ->; cbn in Hpos; lia).
  unfold volume_checked. destruct (need <=? length r).
  - rewrite <- (firstn_skipn need r) in Hr. apply Forall_app in Hr. tauto.
  - unfold extension_code.
    destruct (doubled_rect Y X (need / length r - 1) r Hne Hr) as [Hfull Hfne].
    apply Forall_app. split; [exact Hfull | ].
    apply Forall_map. apply Forall_firstn_skipn.
    eapply Forall_impl; [ | exact Hr]. intros f Hf. cbv beta.
    apply frame_op_rect; [apply frame_op_rect; [exact Hf | ] | ].
    + rewrite Forall_nth in Hr. apply Hr. exact Hpos.
    + apply Forall_last; assumption.
Qed.

Lemma rect4_repeat (n F Y X : nat) (r : list (list (list Q))) :
  length r = F -> Forall (rect2 Y X) r -> rect4 n F Y X (repeat r n).
Proof.
  intros HF Hr. split; [apply repeat_length | ].
  apply Forall_forall. intros x Hin. apply repeat_spec in Hin. subst x. split; assumption.
Qed.

Lemma nth_repeat_lt {A : Type} (x d : A) (n i : nat) : i < n -> nth i (repeat x n) d = x.
Proof.
  revert i. induction n as [ | n IH]; intros i Hi; [lia | ].
  destruct i as [ | i]; cbn; [reflexivity | apply IH; lia].
Qed.

(** X16. The stages of [prepare] on a RAPID-family dark of one integration
    of [F >= 1] frames, asked for a pattern outside the family - with
    enough frames or not.  They return; every output integration holds the
    groups computed from the one integration as [data_volume_check] left
    it, [volume_checked]; and although that stage may leave far more frames
    than NGROUPS says, the final [data] has exactly [ngroup] frames in each
    of [nint] integrations, as the final header records. *)
Theorem prepare_reshape_one_integration
        (p : Readout) (tbl : list ReadPattern) (r : list (list (list Q)))
        (sb : option (list (list (list Q)))) (zf : option (list (list (list Q))))
        (h : Header) (Y X : nat) :
  Py.mem (READPATT h) rapids = true ->
  Py.mem (readpatt p) rapids = false ->
  Py.mem (READPATT h) (map name tbl) = true ->
  0 < length r -> Forall (rect2 Y X) r ->
  (forall s, sb = Some s -> length s = length r /\ Forall (rect2 Y X) s) ->
  0 < ngroup p -> 0 < nint p -> 1 <= nframe p ->
  let need := ngroup p * (nskip p + nframe p) in
  let dark := mkReadFits [r] (option_map (fun s => [s]) sb) zf h in
  (exists sbzero, snd (prepare_reshape p tbl dark) = Ok sbzero) /\
  averaged_cyclic p 1 [volume_checked need r] (data (fst (prepare_reshape p tbl dark))) /\
  averaged_cyclic_opt p 1 (option_map (fun s => [volume_checked need s]) sb)
                      (sbAndRefpix (fst (prepare_reshape p tbl dark))) /\
  dim1 (data (fst (prepare_reshape p tbl dark))) =
    NGROUPS (header (fst (prepare_reshape p tbl dark))) /\
  length (data (fst (prepare_reshape p tbl dark))) =
    NINTS (header (fst (prepare_reshape p tbl dark))).
Proof.
  cbv zeta. intros Hr Hreq Htbl Hpos Hrect Hsb Hng Hni Hnf.
  set (need := ngroup p * (nskip p + nframe p)).
  assert (Hneed : 0 < need) by (unfold need; nia).
  assert (Hsbl : forall s, sb = Some s -> length s = length r) by (intros s E; apply Hsb; exact E).
  rewrite prepare_reshape_split.
  destruct (volume_and_ints_one_integration p r sb zf h Hpos Hsbl)
    as (zf' & h' & Heq & Hp' & _ & _ & _).
  rewrite Heq. fold need.
  set (F' := length (volume_checked need r)).
  assert (HF' : need <= F') by (apply volume_checked_enough; exact Hpos).
  assert (Hrep : forall s, length s = length r -> Forall (rect2 Y X) s ->
            rect4 (nint p) F' Y X (repeat (volume_checked need s) (nint p))).
  { intros s Hs Hrs. apply rect4_repeat.
    - apply length_volume_checked; assumption.
    - apply volume_checked_rect; [lia | exact Hrs]. }
  rewrite (reorder_dark_average_result p tbl _ (nint p) F' Y X);
    cbn [header data sbAndRefpix zeroframe];
    [ | rewrite Hp'; exact Hr | exact Hreq | rewrite Hp'; exact Htbl
      | apply Hrep; [reflexivity | exact Hrect]
      | intros x E; destruct sb as [s | ]; cbn [option_map] in E; [ | discriminate];
        injection E as <-; apply Hrep; apply Hsb; reflexivity
      | exact Hni | lia | unfold need in HF'; lia | lia | exact Hnf].
  cbn [fst snd data sbAndRefpix header NGROUPS NINTS].
  assert (Hgs : forall s integ g, integ < nint p ->
            group_spec p (repeat (volume_checked need s) (nint p)) integ g =
            group_spec p [volume_checked need s] (integ mod 1) g).
  { intros s integ g Hi. unfold group_spec, frames_from.
    rewrite Nat.mod_1_r, (nth_repeat_lt _ _ _ _ Hi). reflexivity. }
  split; [eexists; reflexivity | ].
  split; [ | split; [ | split]].
  - apply averaged_cyclic_map. intros integ g Hi _. apply Hgs. exact Hi.
  - destruct sb as [s | ]; cbn [option_map averaged_cyclic_opt]; [ | exact I].
    apply averaged_cyclic_map. intros integ g Hi _. apply Hgs. exact Hi.
  - unfold dim1. destruct (nint p) as [ | k]; [lia | ].
    cbn [seq map hd]. rewrite length_map, length_seq. reflexivity.
  - rewrite length_map, length_seq. reflexivity.
Qed.

(** Two RAPID frames, BRIGHT1 with three groups (six frames needed),
    two integrations. *)
Lemma prepare_reshape_one_integration_witness :
  dim1 (data (fst (prepare_reshape (Sample.cfg "BRIGHT1" 1 1 3 2) Sample.table
                                   Sample.two_frame_dark))) =
  NGROUPS (header (fst (prepare_reshape (Sample.cfg "BRIGHT1" 1 1 3 2) Sample.table
                                        Sample.two_frame_dark))).
Proof.
  refine (proj1 (proj2 (proj2 (proj2 (prepare_reshape_one_integration
            (Sample.cfg "BRIGHT1" 1 1 3 2) Sample.table (Sample.ramp [1; 2]%Q)
            None None (Sample.hdr "RAPID") 1 1 eq_refl eq_refl eq_refl _ _ _ _ _ _))))).
  - cbn. lia.
  - repeat constructor.
  - discriminate.
  - cbn. lia.
  - cbn. lia.
  - cbn. lia.
Defined.

(** ** Cropping the zero-frame model *)

Lemma map_window_full3 (Y X : nat) (z : list (list (list Q))) :
  Forall (rect2 Y X) z -> map (window 0 Y 0 X) z = z.
Proof.
  intros Hz. rewrite <- (map_id z) at 2. apply map_ext_in. intros f Hf.
  rewrite Forall_forall in Hz. apply window_full. apply Hz. exact Hf.
Qed.

(** The object after cropping a 3-D model to bounds inside its frames. *)
Lemma crop_dark_model3
      (p : Readout) (x0 y0 x1 y1 : nat) (z : list (list (list Q)))
      (sb zf : option (list (list (list Q)))) (Y X : nat) :
  z <> [] ->
  Forall (rect2 Y X) z ->
  (forall s, sb = Some s -> Forall (rect2 Y X) s) ->
  (forall s, zf = Some s -> Forall (rect2 Y X) s) ->
  x0 <= x1 -> x1 < X -> y0 <= y1 -> y1 < Y ->
  fst (crop_dark p (Z.of_nat x0, Z.of_nat y0, Z.of_nat x1, Z.of_nat y1)
                 (mkModel (Arr3 z) (option_map Arr3 sb) (option_map Arr3 zf))) =
    mkModel (Arr3 (map (window y0 (y1 + 1 - y0) x0 (x1 + 1 - x0)) z))
            (option_map (fun s => Arr3 (map (window y0 (y1 + 1 - y0) x0 (x1 + 1 - x0)) s)) sb)
            (option_map (fun s => Arr3 (map (window y0 (y1 + 1 - y0) x0 (x1 + 1 - x0)) s)) zf).
Proof.
  intros Hne Hz Hsb Hzf Hx01 Hx1 Hy01 Hy1.
  rewrite crop_dark_state. cbn [m_data rows cols].
  assert (Hdims : dim1 z = Y /\ dim2 z = X).
  { unfold dim1, dim2. destruct z as [ | f z']; [congruence | ]. cbn [hd].
    apply Forall_inv in Hz. destruct Hz as [Hf Hrows].
    destruct f as [ | row f]; [cbn in Hf; lia | ].
    apply Forall_inv in Hrows. cbn [hd]. split; assumption. }
  destruct Hdims as [-> ->].
  unfold bx0, bx1, by0, by1. cbn [fst snd].
  match goal with |- (if ?c then _ else _) = _ => destruct c eqn:Hguard end.
  + unfold crop_arrays, bx0, bx1, by0, by1.
    cbn [fst snd m_data m_sbAndRefpix m_zeroframe].
    f_equal.
    * f_equal. apply map_ext. intros f. apply slice2_window.
    * destruct sb; cbn [option_map try_update index3]; [ | reflexivity].
      do 2 f_equal. apply map_ext. intros f. apply slice2_window.
    * destruct zf; cbn [option_map try_update index3]; [ | reflexivity].
      do 2 f_equal. apply map_ext. intros f. apply slice2_window.
  + assert (x0 = 0 /\ x1 = X - 1 /\ y0 = 0 /\ y1 = Y - 1) as (-> & -> & -> & ->).
    { apply orb_false_iff in Hguard. destruct Hguard as [Hg Hg4].
      apply orb_false_iff in Hg. destruct Hg as [Hg Hg3].
      apply orb_false_iff in Hg. destruct Hg as [Hg1 Hg2].
      apply negb_false_iff, Z.eqb_eq in Hg1, Hg2, Hg3, Hg4. lia. }
    replace (Y - 1 + 1 - 0) with Y by lia. replace (X - 1 + 1 - 0) with X by lia.
    rewrite (map_window_full3 Y X z Hz). f_equal.
    * destruct sb as [s | ]; cbn [option_map]; [ | reflexivity].
      rewrite (map_window_full3 Y X s (Hsb s eq_refl)). reflexivity.
    * destruct zf as [s | ]; cbn [option_map]; [ | reflexivity].
      rewrite (map_window_full3 Y X s (Hzf s eq_refl)). reflexivity.
Qed.

(** X17. The 3-D branch of [crop_dark], the one the zero-frame model of
    [prepare] goes through: for a model whose [data] is (integration, y, x)
    and bounds inside its frames, every frame of [data], [sbAndRefpix] and
    [zeroframe] is replaced by its window of rows [y_min..y_max] and columns
    [x_min..x_max]; an attribute that is [None] stays [None]. *)
Theorem crop_dark_window_3d
        (p : Readout) (x0 y0 x1 y1 : nat) (z : list (list (list Q)))
        (sb zf : option (list (list (list Q)))) (Y X : nat) :
  z <> [] ->
  Forall (rect2 Y X) z ->
  (forall s, sb = Some s -> Forall (rect2 Y X) s) ->
  (forall s, zf = Some s -> Forall (rect2 Y X) s) ->
  x0 <= x1 -> x1 < X -> y0 <= y1 -> y1 < Y ->
  let h := y1 + 1 - y0 in
  let w := x1 + 1 - x0 in
  fst (crop_dark p (Z.of_nat x0, Z.of_nat y0, Z.of_nat x1, Z.of_nat y1)
                 (mkModel (Arr3 z) (option_map Arr3 sb) (option_map Arr3 zf))) =
    mkModel (Arr3 (map (window y0 h x0 w) z))
            (option_map (fun s => Arr3 (map (window y0 h x0 w) s)) sb)
            (option_map (fun s => Arr3 (map (window y0 h x0 w) s)) zf) /\
  Forall (rect2 h w) (map (window y0 h x0 w) z).
Proof.
  cbv zeta. intros Hne Hz Hsb Hzf Hx01 Hx1 Hy01 Hy1. split.
  - apply (crop_dark_model3 p x0 y0 x1 y1 z sb zf Y X); assumption.
  - apply Forall_map. eapply Forall_impl; [ | exact Hz].
    intros f Hf. apply (window_rect Y X); [exact Hf | lia | lia].
Qed.

(** The zero-frame of the 2 x 4 sample, as a model of its own. *)
Lemma crop_dark_window_3d_witness :
  fst (crop_dark (Sample.cfg "RAPID" 1 0 1 1) (1, 1, 2, 1)%Z
                 (mkModel (Arr3 [[[1; 2; 3; 4]; [5; 6; 7; 8]]]%Q) None None)) =
  mkModel (Arr3 [[[6; 7]]]%Q) None None.
Proof.
  refine (proj1 (crop_dark_window_3d (Sample.cfg "RAPID" 1 0 1 1) 1 1 2 1
                   [[[1; 2; 3; 4]; [5; 6; 7; 8]]]%Q None None 2 4 _ _ _ _ _ _ _ _)).
  - discriminate.
  - repeat constructor.
  - discriminate.
  - discriminate.
  - lia.
  - lia.
  - lia.
  - lia.
Defined.

(** ** The linearized-dark path of [prepare], to the samples after the crop *)

Lemma darkints_cut_or_cycled (p : Readout) (dark : Read_fits) :
  0 < length (data dark) ->
  darkints p dark =
  (mkReadFits (cut_or_cycled (length (data dark)) (nint p) (data dark))
              (option_map (cut_or_cycled (length (data dark)) (nint p)) (sbAndRefpix dark))
              (option_map (cut_or_cycled (length (data dark)) (nint p)) (zeroframe dark))
              (if nint p <=? length (data dark) then header dark
               else set_NINTS (nint p) (header dark)), Ok tt).
Proof.
  intros Hn. rewrite darkints_result by exact Hn. unfold cut_or_cycled.
  destruct (nint p <=? length (data dark)); reflexivity.
Qed.

Lemma cut_or_cycled_cycles {A : Type} (n req : nat) (x : list A) :
  0 < n -> length x = n -> cycles_of n req x (cut_or_cycled n req x).
Proof. intros Hn Hx. unfold cut_or_cycled. apply cycles_of_darkints; assumption. Qed.

Lemma cut_or_cycled_rect (I F Y X need req : nat) (a : list (list (list (list Q)))) :
  rect4 I F Y X a -> 0 < I -> need <= F ->
  rect4 req need Y X (cut_or_cycled I req (map (firstn need) a)).
Proof.
  intros Ha HI Hle.
  assert (Ha1 : rect4 I need Y X (map (firstn need) a))
    by (apply (rect4_firstn_frames I F Y X); assumption).
  assert (Hc : cycles_of I req (map (firstn need) a) (cut_or_cycled I req (map (firstn need) a)))
    by (apply cut_or_cycled_cycles; [exact HI | apply Ha1]).
  split; [apply Hc | ].
  apply (cycles_of_Forall _ I req (map (firstn need) a));
    [exact HI | apply Ha1 | exact Hc | apply Ha1].
Qed.

(** The object and the value the three stages produce, for a RAPID-family
    dark with the frames needed and a request outside the family. *)
Lemma prepare_reshape_result
      (p : Readout) (tbl : list ReadPattern) (dark : Read_fits) (I F Y X : nat) :
  Py.mem (READPATT (header dark)) rapids = true ->
  Py.mem (readpatt p) rapids = false ->
  Py.mem (READPATT (header dark)) (map name tbl) = true ->
  rect4 I F Y X (data dark) ->
  (forall sb, sbAndRefpix dark = Some sb -> rect4 I F Y X sb) ->
  0 < I ->
  ngroup p * (nskip p + nframe p) <= F ->
  0 < ngroup p -> 0 < nint p -> 1 <= nframe p ->
  prepare_reshape p tbl dark =
  (mkReadFits
     (regrouped p (cut_or_cycled I (nint p)
                     (map (firstn (ngroup p * (nskip p + nframe p))) (data dark))))
     (option_map
        (fun s => regrouped p (cut_or_cycled I (nint p)
                     (map (firstn (ngroup p * (nskip p + nframe p))) s)))
        (sbAndRefpix dark))
     (Some match zeroframe dark with
           | None => first_frames (cut_or_cycled I (nint p)
                       (map (firstn (ngroup p * (nskip p + nframe p))) (data dark)))
           | Some z => cut_or_cycled I (nint p) z
           end)
     (mkHeader (readpatt p) (nframe p) (nskip p) (ngroup p) (nint p)
               (DETECTOR (header dark)) (INSTRUME (header dark))),
   Ok (option_map
         (fun s => first_frames (cut_or_cycled I (nint p)
                      (map (firstn (ngroup p * (nskip p + nframe p))) s)))
         (sbAndRefpix dark))).
Proof.
  intros Hr Hreq Htbl Hd Hsb HI Hle Hng Hni Hnf.
  set (need := ngroup p * (nskip p + nframe p)) in *.
  assert (Hneed : 0 < need) by (unfold need; nia).
  unfold prepare_reshape. run.
  rewrite (data_volume_check_truncates p dark I F Y X Hd Hsb HI Hle). fold need.
  assert (Hlen1 : length (map (firstn need) (data dark)) = I)
    by (rewrite length_map; apply Hd).
  rewrite darkints_cut_or_cycled by (cbn [data]; rewrite Hlen1; exact HI).
  cbn [data sbAndRefpix zeroframe header]. rewrite Hlen1.
  set (s2 := mkReadFits _ _ _ _).
  assert (Hpatt : READPATT (header s2) = READPATT (header dark))
    by (unfold s2; cbn [header]; destruct (nint p <=? I); reflexivity).
  assert (Hdet : DETECTOR (header s2) = DETECTOR (header dark) /\
                 INSTRUME (header s2) = INSTRUME (header dark))
    by (unfold s2; cbn [header]; destruct (nint p <=? I); split; reflexivity).
  assert (Hsb2 : forall sb, sbAndRefpix s2 = Some sb -> rect4 (nint p) need Y X sb).
  { unfold s2. cbn [sbAndRefpix]. intros sb E.
    destruct (sbAndRefpix dark) as [s | ]; cbn [option_map] in E; [ | discriminate].
    injection E as <-. apply (cut_or_cycled_rect I F Y X); [ | assumption | assumption].
    apply Hsb. reflexivity. }
  rewrite (reorder_dark_average_result p tbl s2 (nint p) need Y X);
    [ | rewrite Hpatt; exact Hr | exact Hreq | rewrite Hpatt; exact Htbl
      | apply (cut_or_cycled_rect I F Y X); assumption
      | exact Hsb2 | exact Hni | exact Hneed | unfold need; lia | lia | exact Hnf].
  destruct Hdet as [-> ->]. unfold s2. cbn [data sbAndRefpix zeroframe].
  unfold regrouped, first_frames.
  destruct (sbAndRefpix dark), (zeroframe dark); reflexivity.
Qed.

Lemma regrouped_rect (p : Readout) (a : list (list (list (list Q)))) (I F Y X : nat) :
  rect4 I F Y X a -> nint p <= I ->
  ngroup p * (nframe p + nskip p) <= F -> 1 <= nframe p ->
  rect4 (nint p) (ngroup p) Y X (regrouped p a).
Proof.
  intros Ha Hni Hfit Hnf. unfold regrouped. split; [rewrite length_map, length_seq; reflexivity | ].
  apply Forall_map, Forall_forall. intros integ Hin. apply in_seq in Hin. split.
  - rewrite length_map, length_seq. reflexivity.
  - apply Forall_map, Forall_forall. intros g Hg. apply in_seq in Hg.
    apply (group_spec_rect p a I F Y X); [exact Ha | lia | nia | exact Hnf].
Qed.

(** The arrays [data] and [sbAndRefpix] that [crop_dark] leaves do not
    depend on the [zeroframe] attribute of the model. *)
Lemma crop_dark_zeroframe_irrelevant
      (p : Readout) (b : Bounds) (d : ndarray) (s z z' : option ndarray) :
  m_data (fst (crop_dark p b (mkModel d s z))) =
    m_data (fst (crop_dark p b (mkModel d s z'))) /\
  m_sbAndRefpix (fst (crop_dark p b (mkModel d s z))) =
    m_sbAndRefpix (fst (crop_dark p b (mkModel d s z'))).
Proof.
  rewrite !crop_dark_state. cbn [m_data].
  destruct (negb (bx0 b =? 0)%Z || negb (bx1 b =? Z.of_nat (cols d) - 1)%Z
            || negb (by0 b =? 0)%Z || negb (by1 b =? Z.of_nat (rows d) - 1)%Z);
    [ | split; reflexivity].
  unfold crop_arrays. cbn [m_data m_sbAndRefpix m_zeroframe].
  destruct d; split; reflexivity.
Qed.

(** With an amplifier count of 1, or of 4 and a width divisible by 4,
    [crop_dark] returns. *)
Lemma crop_dark_returns (p : Readout) (x0 y0 x1 y1 : nat) (model : Model) :
  namp p = 1%Z \/ (namp p = 4%Z /\ (4 | Z.of_nat x1 - Z.of_nat x0 + 1)%Z) ->
  snd (crop_dark p (Z.of_nat x0, Z.of_nat y0, Z.of_nat x1, Z.of_nat y1) model) = Ok tt.
Proof.
  intros H. rewrite crop_dark_outcome. unfold bx0, bx1. cbn [fst snd].
  destruct H as [-> | [-> Hdiv]]; cbn [Z.eqb negb andb Pos.eqb]; [reflexivity | ].
  apply quot4_exact in Hdiv. rewrite Hdiv. reflexivity.
Qed.

Lemma cropped_groups_of (p : Readout) (I F Y X need x0 y0 x1 y1 : nat)
      (a : list (list (list (list Q)))) :
  rect4 I F Y X a -> 0 < I ->
  need = ngroup p * (nskip p + nframe p) -> need <= F ->
  1 <= nframe p ->
  x0 <= x1 -> x1 < X -> y0 <= y1 -> y1 < Y ->
  cropped_groups p I y0 (y1 + 1 - y0) x0 (x1 + 1 - x0) a
    (map (map (window y0 (y1 + 1 - y0) x0 (x1 + 1 - x0)))
         (regrouped p (cut_or_cycled I (nint p) (map (firstn need) a)))).
Proof.
  intros Ha HI Hneed Hle Hnf Hx01 Hx1 Hy01 Hy1.
  set (a2 := cut_or_cycled I (nint p) (map (firstn need) a)).
  assert (Ha2 : rect4 (nint p) need Y X a2)
    by (apply (cut_or_cycled_rect I F Y X); assumption).
  assert (Hcyc : cycles_of I (nint p) (map (firstn need) a) a2).
  { apply cut_or_cycled_cycles; [exact HI | rewrite length_map; apply Ha]. }
  assert (Hrg : rect4 (nint p) (ngroup p) Y X (regrouped p a2)).
  { apply (regrouped_rect p a2 (nint p) need Y X); [exact Ha2 | lia | lia | exact Hnf]. }
  split.
  - destruct Hrg as [Hlen Hall]. split; [rewrite length_map; exact Hlen | ].
    apply Forall_map. eapply Forall_impl; [ | exact Hall].
    intros r [Hr Hfr]. split; [rewrite length_map; exact Hr | ].
    apply Forall_map. eapply Forall_impl; [ | exact Hfr].
    intros f Hf. apply (window_rect Y X); [exact Hf | lia | lia].
  - intros integ g Hi Hg. cbv zeta.
    assert (Hmod : integ mod I < I) by (apply Nat.mod_upper_bound; lia).
    assert (Hfitg : g * (nframe p + nskip p) + nframe p <= F) by nia.
    destruct (group_spec_mean p a I F Y X (integ mod I) g Ha Hmod Hfitg Hnf)
      as [Hn [_ [Hsum _]]].
    split; [exact Hn | ].
    intros y x Hy Hx.
    rewrite (nth_map_default _ _ _ []) by reflexivity.
    unfold regrouped. rewrite (nth_map_seq _ _ _ _ Hi).
    rewrite (nth_map_default _ _ _ [])
      by (unfold window; rewrite skipn_nil, firstn_nil; reflexivity).
    rewrite (nth_map_seq _ _ _ _ Hg).
    unfold pixel at 1. rewrite window_pixel by assumption.
    fold (pixel (group_spec p a2 integ g) (y0 + y) (x0 + x)).
    rewrite (group_spec_cycled p I F Y X need a a2 Ha HI Hcyc) by (assumption || lia).
    apply Hsum; lia.
Qed.

Lemma cut_or_cycled_map {A B : Type} (f : A -> B) (n req : nat) (x : list A) :
  map f (cut_or_cycled n req x) = cut_or_cycled n req (map f x).
Proof.
  unfold cut_or_cycled, extended_by. destruct (req <=? n).
  - symmetry. apply firstn_map.
  - rewrite !map_app, <- firstn_map, !map_app, concat_map, map_repeat. reflexivity.
Qed.

(** Frame 0 of what the first two stages leave is frame 0 of the input,
    integration by integration. *)
Lemma first_frames_cut_or_cycled (I req need : nat) (a : list (list (list (list Q)))) :
  0 < need ->
  first_frames (cut_or_cycled I req (map (firstn need) a)) =
  cut_or_cycled I req (first_frames a).
Proof.
  intros Hneed. unfold first_frames. rewrite cut_or_cycled_map, map_map. f_equal.
  apply map_ext. intros r. rewrite nth_firstn.
  destruct (Nat.ltb_spec 0 need); [reflexivity | lia].
Qed.

Lemma first_frames_rect (I F Y X : nat) (a : list (list (list (list Q)))) :
  rect4 I F Y X a -> 0 < F ->
  length (first_frames a) = I /\ Forall (rect2 Y X) (first_frames a).
Proof.
  intros [Hlen Hall] HF. unfold first_frames. split; [rewrite length_map; exact Hlen | ].
  apply Forall_map. eapply Forall_impl; [ | exact Hall].
  intros r [Hr Hfr]. cbv beta. rewrite Forall_forall in Hfr. apply Hfr. apply nth_In. lia.
Qed.

Lemma cropped_frames_of (req I Y X x0 y0 x1 y1 : nat) (z : list (list (list Q))) :
  length z = I -> 0 < I -> Forall (rect2 Y X) z ->
  x0 <= x1 -> x1 < X -> y0 <= y1 -> y1 < Y ->
  cropped_frames req I y0 (y1 + 1 - y0) x0 (x1 + 1 - x0) z
    (map (window y0 (y1 + 1 - y0) x0 (x1 + 1 - x0)) (cut_or_cycled I req z)).
Proof.
  intros Hlen HI Hz Hx01 Hx1 Hy01 Hy1.
  pose proof (cut_or_cycled_cycles I req z HI Hlen) as Hcyc.
  split; [rewrite length_map; apply Hcyc | ]. split.
  - apply Forall_map.
    assert (Hall : Forall (rect2 Y X) (cut_or_cycled I req z))
      by (apply (cycles_of_Forall _ I req z); assumption).
    eapply Forall_impl; [ | exact Hall].
    intros f Hf. apply (window_rect Y X); [exact Hf | lia | lia].
  - intros i y x Hi Hy Hx.
    rewrite (nth_map_default _ _ _ [])
      by (unfold window; rewrite skipn_nil, firstn_nil; reflexivity).
    unfold pixel at 1. rewrite window_pixel by assumption.
    rewrite (cycles_of_nth I req z _ [] i HI Hlen Hcyc Hi). reflexivity.
Qed.

(** X18. Lines 690-771 of [prepare] for a linearized dark - the three
    stages and the crops of the dark and of the zero-frame model - on a
    RAPID-family dark that has the frames needed, a request outside the
    family, subarray bounds inside the frames and an amplifier count the
    crop accepts.  This part of [prepare] returns.  It leaves [data] and
    [sbAndRefpix] of the dark with shape
    (nint, ngroup, y_max - y_min + 1, x_max - x_min + 1), and sample [(y, x)]
    of group [g] of integration [i] is the arithmetic mean of the [nframe]
    samples [(y_min + y, x_min + x)] of the frames from
    [g * (nframe + nskip)] of input integration [i mod I]: [nframe] times
    the output sample is their sum.  The zero-frame model holds in [data]
    the same window of the dark's zero-frame - of frame 0 of [data] when the
    dark carried none - and in [sbAndRefpix] that of frame 0 of the dark's
    [sbAndRefpix], integration [i mod I] again.  The header of the dark is
    the request. *)
Theorem prepare_linearized_crop_samples
        (p : Readout) (tbl : list ReadPattern) (blank : option ndarray)
        (dark : Read_fits) (I F Y X x0 y0 x1 y1 : nat) :
  Py.mem (READPATT (header dark)) rapids = true ->
  Py.mem (readpatt p) rapids = false ->
  Py.mem (READPATT (header dark)) (map name tbl) = true ->
  rect4 I F Y X (data dark) ->
  (forall sb, sbAndRefpix dark = Some sb -> rect4 I F Y X sb) ->
  (forall z, zeroframe dark = Some z -> length z = I /\ Forall (rect2 Y X) z) ->
  0 < I ->
  ngroup p * (nskip p + nframe p) <= F ->
  0 < ngroup p -> 0 < nint p -> 1 <= nframe p ->
  x0 <= x1 -> x1 < X -> y0 <= y1 -> y1 < Y ->
  namp p = 1%Z \/ (namp p = 4%Z /\ (4 | Z.of_nat x1 - Z.of_nat x0 + 1)%Z) ->
  exists (out : list (list (list (list Q)))) (sbout : option (list (list (list (list Q)))))
         (zf : list (list (list Q))) (zsb : option (list (list (list Q)))),
    prepare_linearized_crop p tbl (Z.of_nat x0, Z.of_nat y0, Z.of_nat x1, Z.of_nat y1)
                            blank dark =
      Ok (mkCropped (Arr4 out) (option_map Arr4 sbout)
            (mkHeader (readpatt p) (nframe p) (nskip p) (ngroup p) (nint p)
                      (DETECTOR (header dark)) (INSTRUME (header dark)))
            (Some (Arr3 zf)) (option_map Arr3 zsb)) /\
    cropped_groups p I y0 (y1 + 1 - y0) x0 (x1 + 1 - x0) (data dark) out /\
    opt_rel (cropped_groups p I y0 (y1 + 1 - y0) x0 (x1 + 1 - x0)) (sbAndRefpix dark) sbout /\
    cropped_frames (nint p) I y0 (y1 + 1 - y0) x0 (x1 + 1 - x0)
      (match zeroframe dark with Some z => z | None => first_frames (data dark) end) zf /\
    opt_rel (cropped_frames (nint p) I y0 (y1 + 1 - y0) x0 (x1 + 1 - x0))
      (option_map first_frames (sbAndRefpix dark)) zsb.
Proof.
  intros Hr Hreq Htbl Hd Hsb Hz HI Hle Hng Hni Hnf Hx01 Hx1 Hy01 Hy1 Hamp.
  set (need := ngroup p * (nskip p + nframe p)) in *.
  assert (Hneed : 0 < need) by (unfold need; nia).
  set (b := (Z.of_nat x0, Z.of_nat y0, Z.of_nat x1, Z.of_nat y1)).
  set (win := window y0 (y1 + 1 - y0) x0 (x1 + 1 - x0)).
  unfold prepare_linearized_crop.
  rewrite (prepare_reshape_result p tbl dark I F Y X) by assumption. fold need.
  set (zsrc := match zeroframe dark with Some z => z | None => first_frames (data dark) end).
  assert (Hzsrc : length zsrc = I /\ Forall (rect2 Y X) zsrc).
  { unfold zsrc. destruct (zeroframe dark) as [z | ]; [apply Hz; reflexivity | ].
    apply (first_frames_rect I F Y X); [exact Hd | lia]. }
  assert (Hzf : match zeroframe dark with
                | None => first_frames (cut_or_cycled I (nint p) (map (firstn need) (data dark)))
                | Some z => cut_or_cycled I (nint p) z
                end = cut_or_cycled I (nint p) zsrc).
  { unfold zsrc. destruct (zeroframe dark); [reflexivity | ].
    apply first_frames_cut_or_cycled. exact Hneed. }
  rewrite Hzf.
  assert (Hsbz : option_map
                   (fun s => first_frames (cut_or_cycled I (nint p) (map (firstn need) s)))
                   (sbAndRefpix dark) =
                 option_map (cut_or_cycled I (nint p))
                   (option_map first_frames (sbAndRefpix dark))).
  { destruct (sbAndRefpix dark); cbn [option_map]; [ | reflexivity].
    rewrite first_frames_cut_or_cycled by exact Hneed. reflexivity. }
  rewrite Hsbz.
  set (hdr := mkHeader _ _ _ _ _ _ _).
  set (o := mkReadFits _ _ _ hdr).
  assert (Hcz : Forall (rect2 Y X) (cut_or_cycled I (nint p) zsrc)).
  { destruct Hzsrc as [Hl Hf].
    apply (cycles_of_Forall _ I (nint p) zsrc);
      [exact HI | exact Hl | apply cut_or_cycled_cycles; assumption | exact Hf]. }
  assert (Hczlen : length (cut_or_cycled I (nint p) zsrc) = nint p).
  { destruct Hzsrc as [Hl Hf]. apply (cut_or_cycled_cycles I (nint p) zsrc HI Hl). }
  assert (Hcsb : forall s, option_map (cut_or_cycled I (nint p))
                             (option_map first_frames (sbAndRefpix dark)) = Some s ->
                           Forall (rect2 Y X) s).
  { intros s E. destruct (sbAndRefpix dark) as [sb | ] eqn:Esb; cbn [option_map] in E;
      [ | discriminate].
    injection E as <-.
    destruct (first_frames_rect I F Y X sb (Hsb sb eq_refl)) as [Hl Hf]; [lia | ].
    apply (cycles_of_Forall _ I (nint p) (first_frames sb));
      [exact HI | exact Hl | apply cut_or_cycled_cycles; assumption | exact Hf]. }
  (* the crop of the dark *)
  pose proof (crop_dark_returns p x0 y0 x1 y1 (model_of o) Hamp) as Hret.
  pose proof (crop_dark_model4 p x0 y0 x1 y1 o (nint p) (ngroup p) Y X) as Hlin.
  fold b in Hret, Hlin. fold win in Hlin.
  destruct (crop_dark p b (model_of o)) as [lin r]. cbn [fst snd] in Hret, Hlin.
  subst r. rewrite Hlin; clear Hlin.
  2: { unfold o. cbn [data]. apply (regrouped_rect p _ (nint p) need Y X);
       [apply (cut_or_cycled_rect I F Y X); assumption | lia | unfold need; lia | exact Hnf]. }
  2: { unfold o. cbn [sbAndRefpix]. intros s E.
       destruct (sbAndRefpix dark) as [sb | ]; cbn [option_map] in E; [ | discriminate].
       injection E as <-. apply (regrouped_rect p _ (nint p) need Y X);
         [apply (cut_or_cycled_rect I F Y X); [apply Hsb; reflexivity | | ]; assumption
         | lia | unfold need; lia | exact Hnf]. }
  2: { unfold o. cbn [zeroframe]. intros z E. injection E as <-. exact Hcz. }
  2-7: assumption.
  unfold o at 1. cbn [zeroframe].
  (* the crop of the zero-frame model *)
  pose proof (crop_dark_returns p x0 y0 x1 y1
                (mkModel (Arr3 (cut_or_cycled I (nint p) zsrc))
                   (option_map Arr3 (option_map (cut_or_cycled I (nint p))
                                       (option_map first_frames (sbAndRefpix dark))))
                   blank) Hamp) as Hret0.
  pose proof (crop_dark_zeroframe_irrelevant p b
                (Arr3 (cut_or_cycled I (nint p) zsrc))
                (option_map Arr3 (option_map (cut_or_cycled I (nint p))
                                    (option_map first_frames (sbAndRefpix dark))))
                blank (option_map Arr3 None)) as [Hzd Hzs].
  unfold b in Hzd, Hzs.
  assert (Hne : cut_or_cycled I (nint p) zsrc <> [])
    by (intros E; rewrite E in Hczlen; cbn in Hczlen; lia).
  assert (Hnone : forall s : list (list (list Q)), None = Some s -> Forall (rect2 Y X) s)
    by discriminate.
  pose proof (crop_dark_model3 p x0 y0 x1 y1 (cut_or_cycled I (nint p) zsrc)
                (option_map (cut_or_cycled I (nint p))
                   (option_map first_frames (sbAndRefpix dark)))
                None Y X Hne Hcz Hcsb Hnone Hx01 Hx1 Hy01 Hy1) as Hm3.
  rewrite Hm3 in Hzd, Hzs. clear Hm3.
  fold b in Hret0, Hzd, Hzs. fold win in Hzd, Hzs.
  destruct (crop_dark p b (mkModel (Arr3 (cut_or_cycled I (nint p) zsrc)) _ blank))
    as [zm r0].
  cbn [fst snd m_data m_sbAndRefpix] in Hret0, Hzd, Hzs. subst r0.
  rewrite Hzd, Hzs. unfold model_of, o. cbn [m_data m_sbAndRefpix data sbAndRefpix header].
  exists (map (map win) (regrouped p (cut_or_cycled I (nint p) (map (firstn need) (data dark))))).
  exists (option_map
            (fun s => map (map win)
                          (regrouped p (cut_or_cycled I (nint p) (map (firstn need) s))))
            (sbAndRefpix dark)).
  exists (map win (cut_or_cycled I (nint p) zsrc)).
  exists (option_map (fun s => map win (cut_or_cycled I (nint p) (first_frames s)))
                     (sbAndRefpix dark)).
  split; [ | split; [ | split; [ | split]]].
  - destruct (sbAndRefpix dark); reflexivity.
  - apply (cropped_groups_of p I F Y X need); (assumption || reflexivity).
  - destruct (sbAndRefpix dark) as [sb | ] eqn:Esb; cbn [option_map opt_rel]; [ | exact Logic.I].
    apply (cropped_groups_of p I F Y X need); try (assumption || reflexivity).
    apply Hsb. reflexivity.
  - apply (cropped_frames_of (nint p) I Y X); try assumption; apply Hzsrc.
  - destruct (sbAndRefpix dark) as [sb | ] eqn:Esb; cbn [option_map opt_rel]; [ | exact Logic.I].
    destruct (first_frames_rect I F Y X sb (Hsb sb eq_refl)) as [Hl Hf]; [lia | ].
    apply (cropped_frames_of (nint p) I Y X); assumption.
Qed.

(** Two integrations of four frames of two rows by four columns, BRIGHT2
    groups of two frames, three integrations asked for, window of row 1 and
    columns 1..2, one amplifier. *)
Lemma prepare_linearized_crop_samples_witness :
  exists (out : list (list (list (list Q)))) (sbout : option (list (list (list (list Q)))))
         (zf : list (list (list Q))) (zsb : option (list (list (list Q)))),
    prepare_linearized_crop (mkReadout "BRIGHT2" 2 0 2 3 1%Z) Sample.table
                            (1%Z, 1%Z, 2%Z, 1%Z) None Ramps.two_by_four =
      Ok (mkCropped (Arr4 out) (option_map Arr4 sbout)
            (mkHeader "BRIGHT2" 2 0 2 3 "NRCA1" "NIRCAM")
            (Some (Arr3 zf)) (option_map Arr3 zsb)) /\
    cropped_groups (mkReadout "BRIGHT2" 2 0 2 3 1%Z) 2 1 1 1 2 (data Ramps.two_by_four) out /\
    opt_rel (cropped_groups (mkReadout "BRIGHT2" 2 0 2 3 1%Z) 2 1 1 1 2) None sbout /\
    cropped_frames 3 2 1 1 1 2 (first_frames (data Ramps.two_by_four)) zf /\
    opt_rel (cropped_frames 3 2 1 1 1 2) None zsb.
Proof.
  refine (prepare_linearized_crop_samples (mkReadout "BRIGHT2" 2 0 2 3 1%Z) Sample.table None
            Ramps.two_by_four 2 4 2 4 1 1 2 1 eq_refl eq_refl eq_refl _ _ _ _ _ _ _ _ _ _ _ _ _).
  - split; [reflexivity | repeat constructor].
  - intros sb E. discriminate E.
  - intros z E. discriminate E.
  - lia.
  - cbn. lia.
  - cbn. lia.
  - cbn. lia.
  - cbn. lia.
  - lia.
  - lia.
  - lia.
  - lia.
  - left. reflexivity.
Defined.
